(** * agent-skills: the Microsoft Graph command scripts

    A shallow embedding of the TypeScript command scripts [check-auth.ts],
    [check-auth-complete.ts], [auth.ts], [calendar.ts] and [emails.ts], and
    of the part of the JavaScript runtime they rest on (time values and the
    [Date] methods of ECMA-262, property access on parsed documents,
    [encodeURIComponent]), with the properties of the credential lifecycle,
    of the Graph requests and their responses and of the calendar date-range
    resolution proved over it.

    Conventions.
    - A JavaScript number that the scripts use as an integer (a time value
      in milliseconds, a count of seconds, an HTTP status) is a [Z]; [NaN] is
      [None] of [option Z].  A time value of a valid [Date] is an integer of
      magnitude at most 8.64e15 < 2^53, so the arithmetic of the scripts on
      time values is exact on doubles, and a result outside that range is an
      Invalid Date ([TimeClip]).
    - A [Date] object is its time value: [Some t], or [None] for an Invalid
      Date.  A mutating method ([setHours], [setDate], ...) is a function to
      the new value; the scripts copy a date before they change it.
    - The local time zone is the function [LocalTZA] of ECMA-262: its offset
      from UTC at an instant and at a local time, so that a zone with
      daylight saving time is a host like any other.  The [Date] methods
      that take a number from the command line ([setDate], [setMonth],
      [setFullYear]) are as ECMA-262 defines them while that number lies in
      the range in which the engines compute exactly; beyond it the result
      is the host's ([inexactDate]).
    - A string is a [string] of bytes; the scripts inspect ASCII characters
      of their inputs only.
    - A script is a function on a world: the credential store, the clock,
      the lines written to standard output and the URLs requested.  What the
      host and the services answer (the clock readings, the identity
      provider, the network, [ensureAuth]) is a parameter of the script.
    - [lib/credentials.ts] is modelled from the specification (sections 4.1
      and 4.2): a total store from service and profile to credential, and
      [isTokenExpired]. *)

From stdpp Require Import gmap strings list fin_maps pretty.
From Stdlib Require Import ZArith Lia Ascii.

Local Open Scope Z_scope.

(** ** Time values and the [Date] methods (ECMA-262, section 21.4.1) *)

Module JSDate.

Definition msPerDay : Z := 86400000.
Definition msPerHour : Z := 3600000.
Definition msPerMinute : Z := 60000.
Definition msPerSecond : Z := 1000.

Definition Day (t : Z) : Z := t / msPerDay.
Definition TimeWithinDay (t : Z) : Z := t mod msPerDay.

Definition DaysInYear (y : Z) : Z :=
  if negb (y mod 4 =? 0) then 365
  else if negb (y mod 100 =? 0) then 366
  else if negb (y mod 400 =? 0) then 365
  else 366.

Definition DayFromYear (y : Z) : Z :=
  365 * (y - 1970) + (y - 1969) / 4 - (y - 1901) / 100 + (y - 1601) / 400.

Definition TimeFromYear (y : Z) : Z := msPerDay * DayFromYear y.

(** The largest [y] with [DayFromYear y <= d]: an estimate from the mean
    length of a Gregorian year, corrected by at most one year. *)
Definition YearFromDay (d : Z) : Z :=
  let y := 1970 + (400 * d) / 146097 in
  if d <? DayFromYear y then y - 1
  else if DayFromYear (y + 1) <=? d then y + 1
  else y.

Definition YearFromTime (t : Z) : Z := YearFromDay (Day t).

(** [1] for a leap year, [0] otherwise. *)
Definition leap (y : Z) : Z := if DaysInYear y =? 366 then 1 else 0.

Definition InLeapYear (t : Z) : Z := leap (YearFromTime t).

Definition DayWithinYear (t : Z) : Z := Day t - DayFromYear (YearFromTime t).

Definition MonthFromTime (t : Z) : Z :=
  let d := DayWithinYear t in
  let L := InLeapYear t in
  if d <? 31 then 0
  else if d <? 59 + L then 1
  else if d <? 90 + L then 2
  else if d <? 120 + L then 3
  else if d <? 151 + L then 4
  else if d <? 181 + L then 5
  else if d <? 212 + L then 6
  else if d <? 243 + L then 7
  else if d <? 273 + L then 8
  else if d <? 304 + L then 9
  else if d <? 334 + L then 10
  else 11.

(** Day number, within its year, of the first day of month [m] (0..11). *)
Definition monthStart (m L : Z) : Z :=
  if m =? 0 then 0
  else if m =? 1 then 31
  else if m =? 2 then 59 + L
  else if m =? 3 then 90 + L
  else if m =? 4 then 120 + L
  else if m =? 5 then 151 + L
  else if m =? 6 then 181 + L
  else if m =? 7 then 212 + L
  else if m =? 8 then 243 + L
  else if m =? 9 then 273 + L
  else if m =? 10 then 304 + L
  else 334 + L.

Definition DateFromTime (t : Z) : Z :=
  DayWithinYear t - monthStart (MonthFromTime t) (InLeapYear t) + 1.

Definition MakeTime (hour min sec ms : Z) : Z :=
  hour * msPerHour + min * msPerMinute + sec * msPerSecond + ms.

(** [MakeDay]: the day number of the first of month [month mod 12] of year
    [year + floor(month / 12)], plus [date - 1]. *)
Definition MakeDay (year month date : Z) : Z :=
  let ym := year + month / 12 in
  let mn := month mod 12 in
  DayFromYear ym + monthStart mn (leap ym) + date - 1.

Definition MakeDate (day time : Z) : Z := day * msPerDay + time.

Definition maxTime : Z := 8640000000000000.

Definition TimeClip (time : Z) : option Z :=
  if Z.abs time <=? maxTime then Some time else None.

(** Number of days of month [m] (0..11) of year [y]. *)
Definition DaysInMonth (y m : Z) : Z :=
  if m =? 11 then 31 else monthStart (m + 1) (leap y) - monthStart m (leap y).

(** A [Date] object: its time value, [None] when it is an Invalid Date. *)
Definition Date : Type := option Z.

(** A Number that is an integer or [NaN]. *)
Definition Number : Type := option Z.

Definition num_add (a : Number) (n : Z) : Number := (λ x, x + n) <$> a.

Section LocalZone.

(** [LocalTZA(t, isUTC)] of ECMA-262: the offset of the host's local time
    zone from UTC, in milliseconds.  With [isUTC] true, [t] is a time value
    and the offset is the one in force at that instant.  With [isUTC] false,
    [t] is a local time value and the offset is the one of the instant it is
    the local time of: of the earlier of the two when a clock change repeats
    the local time, and the offset in force before the change when a clock
    change skips it. *)
Variable LocalTZA : Z → bool → Z.

(** What the engine makes of a year, a month number, a date number and a
    time within the day, of which one number lies beyond the range in which
    the engines compute as ECMA-262 defines. *)
Variable inexactDate : Z → Z → Z → Z → Date.

Definition LocalTime (t : Z) : Z := t + LocalTZA t true.
Definition UTC (t : Z) : Z := t - LocalTZA t false.

Definition getFullYear (d : Date) : Number := (λ t, YearFromTime (LocalTime t)) <$> d.
Definition getMonth (d : Date) : Number := (λ t, MonthFromTime (LocalTime t)) <$> d.
Definition getDate (d : Date) : Number := (λ t, DateFromTime (LocalTime t)) <$> d.

(** [d.setHours(hour, min, sec, ms)] *)
Definition setHours (d : Date) (hour min sec ms : Z) : Date :=
  t ← d;
  let t := LocalTime t in
  TimeClip (UTC (MakeDate (Day t) (MakeTime hour min sec ms))).

(** The numbers up to which the engines agree with ECMA-262 on the argument
    of [setDate], [setMonth] and [setFullYear].  JavaScriptCore departs from
    it beyond them: it adds the days of a date number to the milliseconds in
    floating point, which is exact only while the sum stays below 2^53, and
    it gives an Invalid Date for a month number above 12 * 275760.  No year
    after 275760 has a time value. *)
Definition maxExactDate : Z := 100000000.
Definition maxExactMonth : Z := 12 * 275760.
Definition maxExactYear : Z := 275760.

Definition exactDate (dt : Z) : bool := (0 <=? dt) && (dt <=? maxExactDate).
Definition exactMonth (m : Z) : bool := (0 <=? m) && (m <=? maxExactMonth).
Definition exactYear (y : Z) : bool := (- maxExactYear <=? y) && (y <=? maxExactYear).

(** [d.setDate(dt)] *)
Definition setDate (d : Date) (dt : Number) : Date :=
  t ← d;
  dt ← dt;
  let t := LocalTime t in
  if exactDate dt then
    TimeClip (UTC (MakeDate (MakeDay (YearFromTime t) (MonthFromTime t) dt) (TimeWithinDay t)))
  else inexactDate (YearFromTime t) (MonthFromTime t) dt (TimeWithinDay t).

(** [d.setMonth(m)] *)
Definition setMonth (d : Date) (m : Number) : Date :=
  t ← d;
  m ← m;
  let t := LocalTime t in
  if exactMonth m then
    TimeClip (UTC (MakeDate (MakeDay (YearFromTime t) m (DateFromTime t)) (TimeWithinDay t)))
  else inexactDate (YearFromTime t) m (DateFromTime t) (TimeWithinDay t).

(** [d.setFullYear(y)]; on an Invalid Date the argument is [NaN] at both
    call sites, so the result is invalid again. *)
Definition setFullYear (d : Date) (y : Number) : Date :=
  t ← d;
  y ← y;
  let t := LocalTime t in
  if exactYear y then
    TimeClip (UTC (MakeDate (MakeDay y (MonthFromTime t) (DateFromTime t)) (TimeWithinDay t)))
  else inexactDate y (MonthFromTime t) (DateFromTime t) (TimeWithinDay t).

End LocalZone.

End JSDate.

(** ** Strings: the pieces of [String.prototype] and [RegExp] the scripts use *)

Module JSString.

Definition isUpper (c : ascii) : bool :=
  let n := nat_of_ascii c in (65 <=? n)%nat && (n <=? 90)%nat.

Definition lowerChar (c : ascii) : ascii :=
  if isUpper c then ascii_of_nat (nat_of_ascii c + 32) else c.

(** [s.toLowerCase()], on the ASCII letters. *)
Fixpoint toLowerCase (s : string) : string :=
  match s with
  | EmptyString => EmptyString
  | String c rest => String (lowerChar c) (toLowerCase rest)
  end.

(** The class [\d]. *)
Definition isDigit (c : ascii) : bool :=
  let n := nat_of_ascii c in (48 <=? n)%nat && (n <=? 57)%nat.

Fixpoint allDigits (s : string) : bool :=
  match s with
  | EmptyString => true
  | String c rest => isDigit c && allDigits rest
  end.

Definition digitValue (c : ascii) : Z := Z.of_nat (nat_of_ascii c) - 48.

Fixpoint parseDigits (acc : Z) (s : string) : Z :=
  match s with
  | EmptyString => acc
  | String c rest => parseDigits (10 * acc + digitValue c) rest
  end.

(** [parseInt(s)] on a string of decimal digits: the number the digits
    denote.  (The engine rounds a number of 2^53 or more to a double; the
    [Date] methods take a number of that size as beyond their exact
    range.) *)
Definition parseInt (s : string) : Z := parseDigits 0 s.

(** The string without its last character, and that character. *)
Fixpoint splitLast (s : string) : option (string * ascii) :=
  match s with
  | EmptyString => None
  | String c rest =>
      match splitLast rest with
      | None => Some (EmptyString, c)
      | Some (body, l) => Some (String c body, l)
      end
  end.

(** The class [[dmy]]. *)
Definition isUnit (c : ascii) : bool :=
  (Ascii.eqb c "d" || Ascii.eqb c "m" || Ascii.eqb c "y")%char.

(** [s.match(/^\+(\d+)([dmy])$/)]: the two groups of the match. *)
Definition relativeMatch (s : string) : option (string * ascii) :=
  match s with
  | String "+"%char rest =>
      match splitLast rest with
      | Some (amount, unit) =>
          if negb (String.eqb amount "") && allDigits amount && isUnit unit
          then Some (amount, unit)
          else None
      | None => None
      end
  | _ => None
  end.

(** [s.replace(/'/g, "''")] *)
Fixpoint doubleQuotes (s : string) : string :=
  match s with
  | EmptyString => EmptyString
  | String c rest =>
      if Ascii.eqb c "'"%char then String c (String c (doubleQuotes rest))
      else String c (doubleQuotes rest)
  end.

(** [a.join(sep)] *)
Fixpoint join (sep : string) (a : list string) : string :=
  match a with
  | [] => ""
  | [x] => x
  | x :: rest => x +:+ sep +:+ join sep rest
  end.

(** The line feed, as the escape [\n] of a string literal. *)
Definition nl : string := String (ascii_of_nat 10) EmptyString.

(** Truthiness of an optional string: [undefined] and the empty string are
    falsy. *)
Definition truthy (s : option string) : bool :=
  match s with
  | Some s => negb (String.eqb s "")
  | None => false
  end.

End JSString.

(** ** Values shared by the scripts *)

(** A JSON document, as [JSON.stringify] writes one and [response.json()]
    reads one. *)
#[local] Unset Elimination Schemes.
Inductive JSON : Type :=
  | JNull
  | JBool (b : bool)
  | JNum (n : Z)
  | JStr (s : string)
  | JArr (items : list JSON)
  | JObj (fields : list (string * JSON)).
#[local] Set Elimination Schemes.

(** What a [catch] clause receives: an [Error] with its message, or any
    other thrown value. *)
Inductive Thrown : Type :=
  | ThrowError (message : string)
  | ThrowOther.

(** [error instanceof Error ? error.message : "Unknown error"] *)
Definition errorMessage (error : Thrown) : string :=
  match error with
  | ThrowError message => message
  | ThrowOther => "Unknown error"
  end.

(** ** The credential record and the credential store ([lib/credentials]) *)

Module Credentials.

(** The [Credential] of [lib/types]; [expiresAt] is the time value, in
    milliseconds, that the stored ISO-8601 string denotes. *)
Record Credential : Type := {
  accessToken : string;
  refreshToken : option string;
  expiresAt : Z;
  account : string;
  scopes : list string;
  clientId : option string;
  tenantId : option string;
}.

Abbreviation Store := (gmap string (gmap string Credential)).

(** Modelled from the spec: [getCredential] of [lib/credentials.ts], which is
    not among the sources; section 4.1,
    [get(service, profile) -> Credential | absent]. *)
Definition getCredential (service profile : string) (st : Store) : option Credential :=
  ps ← st !! service; ps !! profile.

(** Modelled from the spec: [setCredential] of [lib/credentials.ts]; section
    4.1, [set(service, profile, Credential) -> ack], the store being a
    mapping from service name to a mapping from profile name to Credential. *)
Definition setCredential (service profile : string) (c : Credential) (st : Store) : Store :=
  <[service := <[profile := c]> (default ∅ (st !! service))]> st.

(** Modelled from the spec: [deleteCredential] of [lib/credentials.ts];
    section 4.1, [delete(service, profile) -> boolean found]. *)
Definition deleteCredential (service profile : string) (st : Store) : bool * Store :=
  match st !! service with
  | Some ps =>
      match ps !! profile with
      | Some _ => (true, <[service := delete profile ps]> st)
      | None => (false, st)
      end
  | None => (false, st)
  end.

(** Modelled from the spec: [listProfiles] of [lib/credentials.ts]; section
    4.1, [listProfiles(service) -> ordered sequence of profile names]. *)
Definition listProfiles (service : string) (st : Store) : list string :=
  match st !! service with
  | Some ps => (map_to_list ps).*1
  | None => []
  end.

(** Modelled from the spec: the comparison of [isTokenExpired] of
    [lib/credentials.ts]; section 4.2, true when current time >= stored
    expiry, with no safety margin. *)
Definition expiredAt (now : Z) (c : Credential) : bool := expiresAt c <=? now.

End Credentials.

(** ** A run of a script

    The world a script acts on: the credential file, the system clock (by
    the number of times it was read), what was written to standard output,
    and the URLs requested over the network. *)

Inductive Line : Type :=
  | Text (s : string)
  | StringifiedJSON (j : JSON).

Record World : Type := {
  store : Credentials.Store;
  ticks : nat;
  stdout : list Line;
  fetched : list string;
}.

(** A step either returns to the script or ends the process
    ([process.exit(code)]). *)
Inductive Result (A : Type) : Type :=
  | Ret (a : A) (w : World)
  | Exit (code : Z) (w : World).
Arguments Ret {A} a w.
Arguments Exit {A} code w.

Definition Proc (A : Type) : Type := World → Result A.

#[global] Instance proc_ret : MRet Proc := λ A a w, Ret a w.

#[global] Instance proc_bind : MBind Proc := λ A B f m w,
  match m w with
  | Ret a w' => f a w'
  | Exit code w' => Exit code w'
  end.

(** The exit code of the process: [0] when the script runs to its end. *)
Definition exitCode {A} (r : Result A) : Z :=
  match r with
  | Ret _ _ => 0
  | Exit code _ => code
  end.

Definition finalWorld {A} (r : Result A) : World :=
  match r with
  | Ret _ w => w
  | Exit _ w => w
  end.

Definition console_log (l : Line) : Proc unit := λ w,
  Ret () {| store := store w; ticks := ticks w; stdout := stdout w ++ [l]; fetched := fetched w |}.

Definition process_exit {A} (code : Z) : Proc A := λ w, Exit code w.

(** The host: the clock and the local time zone of the machine, and the
    parsing and printing of dates by the JavaScript engine. *)
Class Host : Type := {
  (** the reading of the system clock when it is read for the [n]-th time *)
  clock : nat → Z;
  (** [LocalTZA(t, isUTC)] *)
  LocalTZA : Z → bool → Z;
  (** the result of [setDate], [setMonth] and [setFullYear] for a number
      beyond the exact range, by year, month, date and time within the day *)
  inexactDate : Z → Z → Z → Z → JSDate.Date;
  (** [new Date(s).getTime()] *)
  DateParse : string → JSDate.Date;
  (** [d.toISOString()] of a valid date *)
  toISOString : Z → string;
  (** the message of the [RangeError] of [toISOString] on an Invalid Date *)
  invalidTimeMessage : string;
  (** [`${parseInt(s, 10)}`] *)
  showParseInt : string → string;
}.

(** [Date.now()], and the time value of [new Date()] *)
Definition Date_now `{Host} : Proc Z := λ w,
  Ret (clock (ticks w))
      {| store := store w; ticks := S (ticks w); stdout := stdout w; fetched := fetched w |}.

Definition getCredential (service profile : string) : Proc (option Credentials.Credential) := λ w,
  Ret (Credentials.getCredential service profile (store w)) w.

Definition setCredential (service profile : string) (c : Credentials.Credential) : Proc unit := λ w,
  Ret () {| store := Credentials.setCredential service profile c (store w);
            ticks := ticks w; stdout := stdout w; fetched := fetched w |}.

Definition deleteCredential (service profile : string) : Proc bool := λ w,
  let '(found, st) := Credentials.deleteCredential service profile (store w) in
  Ret found {| store := st; ticks := ticks w; stdout := stdout w; fetched := fetched w |}.

Definition listProfiles (service : string) : Proc (list string) := λ w,
  Ret (Credentials.listProfiles service (store w)) w.

(** Modelled from the spec: [isTokenExpired] of [lib/credentials.ts]; section
    4.2, true when current time >= stored expiry, on a reading of the
    clock. *)
Definition isTokenExpired `{Host} (c : Credentials.Credential) : Proc bool :=
  now ← Date_now; mret (Credentials.expiredAt now c).

(** ** The identity provider (MSAL) *)

Module Msal.

Record AccountInfo : Type := { username : string }.

(** The [AuthenticationResult] of a token request, with the fields the
    scripts read; [expiresOn] is the time value of a valid [Date]. *)
Record AuthenticationResult : Type := {
  accessToken : string;
  refreshToken : option string;
  expiresOn : option Z;
  account : option AccountInfo;
  scopes : option (list string);
}.

(** [new PublicClientApplication({ auth: { clientId, authority } })] *)
Record Configuration : Type := { clientId : string; authority : string }.

Record RefreshTokenRequest : Type := {
  request_refreshToken : string;
  request_scopes : list string;
}.

(** How the promise of a token request settles: rejected with a thrown
    value, or resolved with a result or with [null]. *)
Inductive Settled : Type :=
  | Rejected (error : Thrown)
  | Resolved (result : option AuthenticationResult).

End Msal.

(** [GRAPH_SCOPES] of [lib/graph-client], a constant table that is not among
    the sources. *)
Record GraphScopes : Type := {
  user : list string;
  mail : list string;
  calendar : list string;
}.

(** ** [check-auth.ts] *)

Module CheckAuth.

Definition DEFAULT_CLIENT_ID : string := "14d82eec-204b-4c2f-b7e8-296a70dab67e".
Definition DEFAULT_TENANT : string := "common".

Inductive Status : Type := valid | needs_auth.

Record CheckResult : Type := {
  status : Status;
  expiresIn : option Z;
  account : option string;
  error : option string;
}.

Definition statusText (s : Status) : string :=
  match s with
  | valid => "valid"
  | needs_auth => "needs-auth"
  end.

Definition isValid (s : Status) : bool :=
  match s with
  | valid => true
  | needs_auth => false
  end.

(** The members [JSON.stringify] writes: one that is [undefined] is left
    out. *)
Definition member {A} (key : string) (f : A → JSON) (v : option A) : list (string * JSON) :=
  match v with
  | Some a => [(key, f a)]
  | None => []
  end.

(** [JSON.stringify(result)] *)
Definition stringify (result : CheckResult) : JSON :=
  JObj ([("status", JStr (statusText (status result)))]
        ++ member "expiresIn" JNum (expiresIn result)
        ++ member "account" JStr (account result)
        ++ member "error" JStr (error result)).

(** [Math.round(n / 60)] *)
Definition roundMinutes (n : Z) : Z := (n + 30) / 60.

Definition when (b : bool) (p : Proc unit) : Proc unit := if b then p else mret ().

Definition output (json : bool) (result : CheckResult) : Proc unit :=
  (if json then console_log (StringifiedJSON (stringify result))
   else if isValid (status result) then
     console_log (Text "Auth status: Valid");;
     when (JSString.truthy (account result))
       (console_log (Text ("Account: " +:+ default "" (account result))));;
     match expiresIn result with
     | Some e =>
         let mins := roundMinutes e in
         console_log (Text ("Expires in: " +:+ pretty mins +:+ " minutes"))
     | None => mret ()
     end
   else
     console_log (Text "Auth status: Authentication required");;
     when (JSString.truthy (error result))
       (console_log (Text ("Reason: " +:+ default "" (error result)))));;
  process_exit (if isValid (status result) then 0 else 1).

Definition needsAuth (reason : string) : CheckResult :=
  {| status := needs_auth; expiresIn := None; account := None; error := Some reason |}.

Definition validFor (expiresIn : Z) (account : string) : CheckResult :=
  {| status := valid; expiresIn := Some expiresIn; account := Some account; error := None |}.

Section Script.

Context `{Host}.

(** [GRAPH_SCOPES], and the [acquireTokenByRefreshToken] of the client
    application built from a configuration. *)
Variable GRAPH_SCOPES : GraphScopes.
Variable acquireTokenByRefreshToken :
  Msal.Configuration → Msal.RefreshTokenRequest → Msal.Settled.

(** [Math.max(0, Math.floor((expiresAt.getTime() - Date.now()) / 1000))] *)
Definition secondsLeft (expiresAt now : Z) : Z := Z.max 0 ((expiresAt - now) / 1000).

(** [result.scopes?.length > 0 ? result.scopes : credential.scopes] *)
Definition scopesOr (granted : option (list string)) (old : list string) : list string :=
  match granted with
  | Some (s :: rest) => s :: rest
  | _ => old
  end.

Definition main (profile : string) (json : bool) : Proc unit :=
  credential ← getCredential "microsoft-graph" profile;
  match credential with
  | None => output json (needsAuth "No credentials found")
  | Some credential =>
      expired ← isTokenExpired credential;
      if negb expired then
        now ← Date_now;
        let expiresIn := secondsLeft (Credentials.expiresAt credential) now in
        output json (validFor expiresIn (Credentials.account credential))
      else if negb (JSString.truthy (Credentials.refreshToken credential)) then
        output json (needsAuth "Token expired, no refresh token")
      else
        let clientId := default DEFAULT_CLIENT_ID (Credentials.clientId credential) in
        let tenantId := default DEFAULT_TENANT (Credentials.tenantId credential) in
        let pca :=
          acquireTokenByRefreshToken
            {| Msal.clientId := clientId;
               Msal.authority := "https://login.microsoftonline.com/" +:+ tenantId |} in
        let scopes := user GRAPH_SCOPES ++ mail GRAPH_SCOPES ++ calendar GRAPH_SCOPES in
        match pca {| Msal.request_refreshToken := default "" (Credentials.refreshToken credential);
                     Msal.request_scopes := scopes |} with
        | Msal.Resolved (Some result) =>
            expiresAt ←
              match Msal.expiresOn result with
              | Some expiresOn => mret expiresOn
              | None => now ← Date_now; mret (now + 3600000)
              end;
            let newCredential :=
              {| Credentials.accessToken := Msal.accessToken result;
                 Credentials.refreshToken :=
                   match Msal.refreshToken result with
                   | Some r => Some r
                   | None => Credentials.refreshToken credential
                   end;
                 Credentials.expiresAt := expiresAt;
                 Credentials.account :=
                   match Msal.account result with
                   | Some a => Msal.username a
                   | None => Credentials.account credential
                   end;
                 Credentials.scopes := scopesOr (Msal.scopes result) (Credentials.scopes credential);
                 Credentials.clientId := Credentials.clientId credential;
                 Credentials.tenantId := Credentials.tenantId credential |} in
            setCredential "microsoft-graph" profile newCredential;;
            now ← Date_now;
            let expiresIn := secondsLeft (Credentials.expiresAt newCredential) now in
            output json (validFor expiresIn (Credentials.account newCredential))
        | Msal.Resolved None => output json (needsAuth "Refresh returned no result")
        | Msal.Rejected error =>
            let message := errorMessage error in
            output json (needsAuth ("Refresh failed: " +:+ message))
        end
  end.

(** The script: [--help] prints the usage and exits with 0, anything else
    runs [main]. *)
Definition script (help : bool) (usage : string) (profile : string) (json : bool) : Proc unit :=
  if help then console_log (Text usage);; process_exit 0
  else main profile json.

End Script.

End CheckAuth.

(** ** [auth.ts]: the [--list] and [--delete] branches *)

Module Auth.

Record Values : Type := {
  profile : string;
  list_flag : bool;
  delete_flag : bool;
}.

(** [new Date(cred.expiresAt) < new Date()] *)
Definition listedAsExpired (now : Z) (cred : Credentials.Credential) : bool :=
  Credentials.expiresAt cred <? now.

(** [for (const x of l) body(x)] *)
Fixpoint forEach {A} (l : list A) (body : A → Proc unit) : Proc unit :=
  match l with
  | [] => mret ()
  | x :: rest => body x;; forEach rest body
  end.

Definition when (b : bool) (p : Proc unit) : Proc unit := if b then p else mret ().

Section Script.

Context `{Host}.

(** The device-code flow that [main] runs without [--list] and [--delete];
    it rests on [GraphClient] and on the identity provider. *)
Variable authenticate : Values → Proc unit.

(** The body of the loop over the profiles. *)
Definition printProfile (profile : string) : Proc unit :=
  cred ← getCredential "microsoft-graph" profile;
  match cred with
  | Some cred =>
      now ← Date_now;
      let expired := listedAsExpired now cred in
      console_log (Text ("  " +:+ profile +:+ ":"));;
      console_log (Text ("    Account: " +:+ Credentials.account cred));;
      console_log (Text ("    Scopes: " +:+ JSString.join ", " (Credentials.scopes cred)));;
      when (JSString.truthy (Credentials.clientId cred))
        (console_log (Text ("    Client ID: " +:+ default "" (Credentials.clientId cred))));;
      when (JSString.truthy (Credentials.tenantId cred))
        (console_log (Text ("    Tenant ID: " +:+ default "" (Credentials.tenantId cred))));;
      console_log (Text ("    Status: " +:+ (if expired then "EXPIRED" else "Valid")));;
      console_log (Text "")
  | None => mret ()
  end.

Definition main (values : Values) : Proc unit :=
  if list_flag values then
    profiles ← listProfiles "microsoft-graph";
    if (length profiles =? 0)%nat then
      console_log (Text "No credential profiles found.");;
      console_log (Text "Run 'bun run auth.ts' to create one.")
    else
      console_log (Text ("Microsoft Graph credential profiles:" +:+ JSString.nl));;
      forEach profiles printProfile
  else if delete_flag values then
    deleted ← deleteCredential "microsoft-graph" (profile values);
    if (deleted : bool) then
      console_log (Text ("Deleted credential profile: " +:+ profile values))
    else
      console_log (Text ("Profile not found: " +:+ profile values))
  else authenticate values.

End Script.

End Auth.

(** ** [calendar.ts] *)

Module Calendar.

Import JSDate.

Record Values : Type := {
  profile : string;
  top : string;
  start : option string;
  end_ : option string;
  query : option string;
  id : option string;
}.

(** [positionals[0] || "list"] *)
Definition commandOf (positionals : list string) : string :=
  match positionals with
  | p :: _ => if String.eqb p "" then "list" else p
  | [] => "list"
  end.

(** The [ScriptResponse] of [lib/auth-handler]: an object with a [status]
    and further members. *)
Record ScriptResponse : Type := {
  status : string;
  members : list (string * JSON);
}.

Definition success (data : JSON) : ScriptResponse :=
  {| status := "success"; members := [("data", data)] |}.

Definition failure (error : string) : ScriptResponse :=
  {| status := "error"; members := [("error", JStr error)] |}.

Definition stringify (response : ScriptResponse) : JSON :=
  JObj (("status", JStr (status response)) :: members response).

Definition output {A} (response : ScriptResponse) : Proc A :=
  console_log (StringifiedJSON (stringify response));;
  process_exit (if String.eqb (status response) "success" then 0 else 1).

(** What [ensureAuth] resolves to: a token, or the response to print. *)
Inductive AuthResult : Type :=
  | AuthToken (token : string)
  | AuthResponse (response : ScriptResponse).

Record EnsureAuthOptions : Type := {
  auth_service : string;
  auth_profile : string;
  requiredScopes : list string;
}.

Record Response : Type := {
  response_status : Z;
  response_text : string;
}.

(** [response.ok]: the status is in the range 200-299. *)
Definition ok (response : Response) : bool :=
  (200 <=? response_status response) && (response_status response <=? 299).

(** How the promise of [fetch] settles. *)
Inductive Fetched : Type :=
  | FetchRejected (error : Thrown)
  | FetchResolved (response : Response).

(** A computation inside a [try] block: it throws or it yields a value. *)
Definition Try (A : Type) : Type := Proc (Thrown + A).

Definition settle {A} (r : Thrown + A) : Try A := λ w, Ret r w.
Definition throw {A} (error : Thrown) : Try A := settle (inl error).
Definition resolve {A} (a : A) : Try A := settle (inr a).

(** An awaited step that does not throw. *)
Definition lift {A} (p : Proc A) : Try A := λ w,
  match p w with
  | Ret a w' => Ret (inr a) w'
  | Exit code w' => Exit code w'
  end.

Definition try_bind {A B} (m : Try A) (k : A → Try B) : Try B := λ w,
  match m w with
  | Ret (inl error) w' => Ret (inl error) w'
  | Ret (inr a) w' => k a w'
  | Exit code w' => Exit code w'
  end.

Notation "x ⇐ m ; k" := (try_bind m (λ x, k))
  (at level 20, m at level 100, k at level 200, only parsing).

(** [try { body } catch (error) { handler }] *)
Definition try_catch (body : Try unit) (handler : Thrown → Proc unit) : Proc unit :=
  r ← (body : Proc (Thrown + unit));
  match r with
  | inl error => handler error
  | inr _ => mret ()
  end.

Section Script.

Context `{Host}.

Variable GRAPH_SCOPES : GraphScopes.

(** [ensureAuth] of [lib/auth-handler], which is not among the sources. *)
Variable ensureAuth : EnsureAuthOptions → Proc AuthResult.

(** The network: how the [n]-th request of the run settles, by its URL and
    headers. *)
Variable network : nat → string → list (string * string) → Fetched.

(** [response.json()], and the shaping of a parsed body:
    [response.value.map(formatEventData)] and [formatEventData(event)]. *)
Variable json : string → Thrown + JSON.
Variable mapFormatEventData : JSON → Thrown + JSON.
Variable formatEventData : JSON → Thrown + JSON.

Definition fetch (url : string) (headers : list (string * string)) : Proc Fetched := λ w,
  Ret (network (length (fetched w)) url headers)
      {| store := store w; ticks := ticks w; stdout := stdout w; fetched := fetched w ++ [url] |}.

Definition graphRequest (token endpoint : string) : Try JSON :=
  let url := "https://graph.microsoft.com/v1.0" +:+ endpoint in
  response ⇐ lift (fetch url [("Authorization", "Bearer " +:+ token);
                              ("Content-Type", "application/json")]);
  match response with
  | FetchRejected error => throw error
  | FetchResolved response =>
      if negb (ok response) then
        let error := response_text response in
        throw (ThrowError ("Graph API error: " +:+ pretty (response_status response)
                           +:+ " - " +:+ error))
      else settle (json (response_text response))
  end.

Definition parseDate (input : string) (baseDate : Date) : Date :=
  let lower := JSString.toLowerCase input in
  if String.eqb lower "today" then
    let d := baseDate in
    setHours LocalTZA d 0 0 0 0
  else if String.eqb lower "tomorrow" then
    let d := baseDate in
    let d := setDate LocalTZA inexactDate d (num_add (getDate LocalTZA d) 1) in
    setHours LocalTZA d 0 0 0 0
  else
    match JSString.relativeMatch lower with
    | Some (amount, unit) =>
        let d := baseDate in
        if Ascii.eqb unit "d" then
          setDate LocalTZA inexactDate d (num_add (getDate LocalTZA d) (JSString.parseInt amount))
        else if Ascii.eqb unit "m" then
          setMonth LocalTZA inexactDate d (num_add (getMonth LocalTZA d) (JSString.parseInt amount))
        else
          setFullYear LocalTZA inexactDate d (num_add (getFullYear LocalTZA d) (JSString.parseInt amount))
    | None => DateParse input
    end.

(** [new Date()] *)
Definition new_Date : Proc Date := now ← Date_now; mret (Some now).

(** The date range of [main], by the command. *)
Definition dateRange (command : string) (values : Values) : Proc (Date * Date) :=
  now ← new_Date;
  if String.eqb command "today" then
    let startDate := setHours LocalTZA now 0 0 0 0 in
    let endDate := setHours LocalTZA now 23 59 59 999 in
    mret (startDate, endDate)
  else if String.eqb command "week" then
    let startDate := setHours LocalTZA now 0 0 0 0 in
    let endDate := setDate LocalTZA inexactDate now (num_add (getDate LocalTZA now) 7) in
    mret (startDate, endDate)
  else
    startDate ←
      (if JSString.truthy (start values) then
         baseDate ← new_Date;
         mret (parseDate (default "" (start values)) baseDate)
       else mret now);
    let endDate :=
      if JSString.truthy (end_ values) then parseDate (default "" (end_ values)) startDate
      else parseDate "+30d" startDate in
    mret (startDate, endDate).

(** [d.toISOString()], which throws a [RangeError] on an Invalid Date. *)
Definition toISO (d : Date) : Try string :=
  match d with
  | Some t => resolve (toISOString t)
  | None => throw (ThrowError invalidTimeMessage)
  end.

(** The [switch] inside the [try] block of [main]. *)
Definition run (command token top : string) (values : Values) (startDate endDate : Date) : Try unit :=
  if String.eqb command "list" || String.eqb command "today" || String.eqb command "week" then
    startISO ⇐ toISO startDate;
    endISO ⇐ toISO endDate;
    response ⇐ graphRequest token
      ("/me/calendarView?startDateTime=" +:+ startISO +:+ "&endDateTime=" +:+ endISO
       +:+ "&$top=" +:+ top +:+ "&$orderby=start/dateTime");
    data ⇐ settle (mapFormatEventData response);
    output (success data)
  else if String.eqb command "view" then
    if negb (JSString.truthy (id values)) then
      output (failure "--id is required for 'view' command")
    else
      event ⇐ graphRequest token ("/me/events/" +:+ default "" (id values));
      data ⇐ settle (formatEventData event);
      output (success data)
  else if String.eqb command "search" then
    if negb (JSString.truthy (query values)) then
      output (failure "--query is required for 'search' command")
    else
      let query := JSString.doubleQuotes (default "" (query values)) in
      response ⇐ graphRequest token
        ("/me/events?$filter=contains(subject,'" +:+ query +:+ "')&$top=" +:+ top
         +:+ "&$orderby=start/dateTime desc");
      data ⇐ settle (mapFormatEventData response);
      output (success data)
  else
    output (failure ("Unknown command: " +:+ command +:+ ". Use --help for usage.")).

Definition main (values : Values) (positionals : list string) : Proc unit :=
  let command := commandOf positionals in
  let requiredScopes := user GRAPH_SCOPES ++ calendar GRAPH_SCOPES in
  auth ← ensureAuth {| auth_service := "microsoft-graph";
                       auth_profile := profile values;
                       requiredScopes := requiredScopes |};
  match auth with
  | AuthResponse response => output response
  | AuthToken token =>
      let top := showParseInt (top values) in
      '(startDate, endDate) ← dateRange command values;
      try_catch (run command token top values startDate endDate)
        (λ error, output (failure (errorMessage error)))
  end.

End Script.

End Calendar.

(** ** Values read out of a parsed document

    What the scripts do with the body of a response: property access,
    optional chaining, the nullish default and [Array.prototype.map], on
    values that [response.json()] has parsed. *)

Module JSValue.

(** A value of a script: a JSON value, or [undefined]. *)
Definition Value : Type := option JSON.

(** The property [key] of an object, from the list of its properties; the
    keys of an object are distinct. *)
Fixpoint own (key : string) (fields : list (string * JSON)) : Value :=
  match fields with
  | [] => None
  | (k, v) :: rest => if String.eqb k key then Some v else own key rest
  end.

(** [v === undefined || v === null] *)
Definition nullish (v : Value) : bool :=
  match v with
  | None | Some JNull => true
  | Some _ => false
  end.

(** [v ?? d] *)
Definition orElse (v : Value) (d : JSON) : JSON :=
  match v with
  | None | Some JNull => d
  | Some j => j
  end.

(** [v?.key], for a key that the prototypes of the primitive values and of
    the arrays do not have (as all the keys that the scripts read). *)
Definition getOpt (v : Value) (key : string) : Value :=
  match v with
  | Some (JObj fields) => own key fields
  | _ => None
  end.

(** The member [key: v] of an object literal, as [JSON.stringify] writes the
    object: a member whose value is [undefined] is left out. *)
Definition member (key : string) (v : Value) : list (string * JSON) :=
  match v with
  | Some j => [(key, j)]
  | None => []
  end.

(** Evaluation that may throw. *)
#[global] Instance thrown_ret : MRet (sum Thrown) := λ A a, inr a.

#[global] Instance thrown_bind : MBind (sum Thrown) := λ A B k r,
  match r with
  | inl error => inl error
  | inr a => k a
  end.

(** The calls of a callback on the elements of an array, in order, up to the
    first one that throws. *)
Fixpoint each {A B} (f : A → Thrown + B) (l : list A) : Thrown + list B :=
  match l with
  | [] => inr []
  | x :: rest =>
      match f x with
      | inl error => inl error
      | inr y =>
          match each f rest with
          | inl error => inl error
          | inr ys => inr (y :: ys)
          end
      end
  end.

Section Engine.

(** The message of the [TypeError] that the engine throws at the expression
    [site] for the value [v]: a property of [undefined] or [null] is read,
    or a value that is not a function is called. *)
Variable TypeErrorMessage : Value → string → string.

Definition TypeError (v : Value) (site : string) : Thrown :=
  ThrowError (TypeErrorMessage v site).

(** [v.key], written [site] in the source, for a key that the prototypes do
    not have. *)
Definition get (v : Value) (key site : string) : Thrown + Value :=
  match v with
  | None | Some JNull => inl (TypeError v site)
  | Some (JObj fields) => inr (own key fields)
  | Some _ => inr None
  end.

(** [v.map(f)], written [site] in the source: only an array has the method
    [map]. *)
Definition mapArray (v : Value) (f : JSON → Thrown + JSON) (site : string) : Thrown + JSON :=
  match v with
  | Some (JArr items) => items ← each f items; mret (JArr items)
  | _ => inl (TypeError v site)
  end.

End Engine.

End JSValue.

(** ** [calendar.ts]: the shaping of the events *)

Module CalendarEvents.

Import JSValue.

Section Script.

Variable TypeErrorMessage : Value → string → string.

Local Abbreviation get := (JSValue.get TypeErrorMessage).
Local Abbreviation mapArray := (JSValue.mapArray TypeErrorMessage).

(** The callback of [event.attendees?.map]. *)
Definition formatAttendee (a : JSON) : Thrown + JSON :=
  let a := Some a in
  emailAddress ← get a "emailAddress" "a.emailAddress";
  status ← get a "status" "a.status";
  mret (JObj (member "email" emailAddress
              ++ [("status", orElse (getOpt status "response") JNull)])).

Definition formatEventData (event : JSON) : Thrown + JSON :=
  let event := Some event in
  id ← get event "id" "event.id";
  subject ← get event "subject" "event.subject";
  start ← get event "start" "event.start";
  end_ ← get event "end" "event.end";
  isAllDay ← get event "isAllDay" "event.isAllDay";
  location ← get event "location" "event.location";
  organizer ← get event "organizer" "event.organizer";
  attendees ← get event "attendees" "event.attendees";
  attendees ←
    (if nullish attendees then mret None
     else mapped ← mapArray attendees formatAttendee "event.attendees?.map"; mret (Some mapped));
  bodyPreview ← get event "bodyPreview" "event.bodyPreview";
  mret (JObj (member "id" id
              ++ member "subject" subject
              ++ member "start" start
              ++ member "end" end_
              ++ [("isAllDay", orElse isAllDay (JBool false));
                  ("location", orElse (getOpt location "displayName") JNull);
                  ("organizer", orElse (getOpt organizer "emailAddress") JNull);
                  ("attendees", orElse attendees (JArr []));
                  ("bodyPreview", orElse bodyPreview JNull)])).

(** [response.value.map(formatEventData)] *)
Definition mapFormatEventData (response : JSON) : Thrown + JSON :=
  value ← get (Some response) "value" "response.value";
  mapArray value formatEventData "response.value.map".

(** [main] of [calendar.ts], with the shaping of the events. *)
Definition main `{Host} (GRAPH_SCOPES : GraphScopes)
    (ensureAuth : Calendar.EnsureAuthOptions → Proc Calendar.AuthResult)
    (network : nat → string → list (string * string) → Calendar.Fetched)
    (json : string → Thrown + JSON) : Calendar.Values → list string → Proc unit :=
  Calendar.main GRAPH_SCOPES ensureAuth network json mapFormatEventData formatEventData.

End Script.

End CalendarEvents.

(** ** [emails.ts] *)

Module Emails.

Import JSString JSValue Calendar.

Record Values : Type := {
  profile : string;
  folder : string;
  top : string;
  query : option string;
  id : option string;
}.

(** The characters that [encodeURIComponent] leaves as they are: the letters,
    the digits and [- _ . ! ~ * ' ( )]. *)
Definition isUnreserved (c : ascii) : bool :=
  let n := nat_of_ascii c in
  ((65 <=? n) && (n <=? 90) || (97 <=? n) && (n <=? 122) || (48 <=? n) && (n <=? 57))%nat
  || Ascii.eqb c "-" || Ascii.eqb c "_" || Ascii.eqb c "." || Ascii.eqb c "!"
  || Ascii.eqb c "~" || Ascii.eqb c "*" || Ascii.eqb c "'" || Ascii.eqb c "("
  || Ascii.eqb c ")".

(** The upper-case hexadecimal digit of a number below 16. *)
Definition hexDigit (n : nat) : ascii :=
  if (n <? 10)%nat then ascii_of_nat (48 + n) else ascii_of_nat (55 + n).

(** [encodeURIComponent(s)] on a string given by the bytes of its UTF-8
    encoding: every byte that is not an unreserved character is written as
    [%] and its two hexadecimal digits. *)
Fixpoint encodeURIComponent (s : string) : string :=
  match s with
  | EmptyString => EmptyString
  | String c rest =>
      if isUnreserved c then String c (encodeURIComponent rest)
      else
        let n := nat_of_ascii c in
        String "%" (String (hexDigit (n / 16)) (String (hexDigit (n mod 16))
          (encodeURIComponent rest)))
  end.

(** The double quote, as the character of a template literal. *)
Definition dquote : string := String (ascii_of_nat 34) EmptyString.

Section Script.

Context `{Host}.

Variable TypeErrorMessage : Value → string → string.
Variable GRAPH_SCOPES : GraphScopes.
Variable ensureAuth : EnsureAuthOptions → Proc AuthResult.
Variable network : nat → string → list (string * string) → Fetched.
Variable json : string → Thrown + JSON.

Local Abbreviation get := (JSValue.get TypeErrorMessage).
Local Abbreviation mapArray := (JSValue.mapArray TypeErrorMessage).

(** [output] and [graphRequest] have the text of those of [calendar.ts]. *)
Definition output {A} (response : ScriptResponse) : Proc A := Calendar.output response.

Definition graphRequest (token endpoint : string) : Try JSON :=
  Calendar.graphRequest network json token endpoint.

(** The callback of [response.value.map] of [list] and [search]. *)
Definition summary (email : JSON) : Thrown + JSON :=
  let email := Some email in
  id ← get email "id" "email.id";
  subject ← get email "subject" "email.subject";
  from ← get email "from" "email.from";
  emailAddress ← get from "emailAddress" "email.from.emailAddress";
  receivedDateTime ← get email "receivedDateTime" "email.receivedDateTime";
  bodyPreview ← get email "bodyPreview" "email.bodyPreview";
  isRead ← get email "isRead" "email.isRead";
  hasAttachments ← get email "hasAttachments" "email.hasAttachments";
  mret (JObj (member "id" id
              ++ member "subject" subject
              ++ member "from" emailAddress
              ++ member "receivedDateTime" receivedDateTime
              ++ member "bodyPreview" bodyPreview
              ++ member "isRead" isRead
              ++ member "hasAttachments" hasAttachments)).

(** The [data] of [read]. *)
Definition detail (email : JSON) : Thrown + JSON :=
  let email := Some email in
  id ← get email "id" "email.id";
  subject ← get email "subject" "email.subject";
  from ← get email "from" "email.from";
  emailAddress ← get from "emailAddress" "email.from.emailAddress";
  receivedDateTime ← get email "receivedDateTime" "email.receivedDateTime";
  body ← get email "body" "email.body";
  bodyPreview ← get email "bodyPreview" "email.bodyPreview";
  isRead ← get email "isRead" "email.isRead";
  hasAttachments ← get email "hasAttachments" "email.hasAttachments";
  mret (JObj (member "id" id
              ++ member "subject" subject
              ++ member "from" emailAddress
              ++ member "receivedDateTime" receivedDateTime
              ++ member "body" body
              ++ member "bodyPreview" bodyPreview
              ++ member "isRead" isRead
              ++ member "hasAttachments" hasAttachments)).

(** The callback of [response.value.map] of [folders]. *)
Definition folderData (folder : JSON) : Thrown + JSON :=
  let folder := Some folder in
  id ← get folder "id" "folder.id";
  displayName ← get folder "displayName" "folder.displayName";
  unreadItemCount ← get folder "unreadItemCount" "folder.unreadItemCount";
  totalItemCount ← get folder "totalItemCount" "folder.totalItemCount";
  childFolderCount ← get folder "childFolderCount" "folder.childFolderCount";
  mret (JObj (member "id" id
              ++ member "displayName" displayName
              ++ member "unreadItemCount" unreadItemCount
              ++ member "totalItemCount" totalItemCount
              ++ member "childFolderCount" childFolderCount)).

(** [response.value.map(f)] *)
Definition mapValue (response : JSON) (f : JSON → Thrown + JSON) : Thrown + JSON :=
  value ← get (Some response) "value" "response.value";
  mapArray value f "response.value.map".

(** The [switch] inside the [try] block of [main]. *)
Definition run (command token top : string) (values : Values) : Try unit :=
  if String.eqb command "list" then
    let folder := encodeURIComponent (folder values) in
    response ⇐ graphRequest token
      ("/me/mailFolders/" +:+ folder +:+ "/messages?$top=" +:+ top
       +:+ "&$orderby=receivedDateTime desc");
    data ⇐ settle (mapValue response summary);
    output (success data)
  else if String.eqb command "read" then
    if negb (truthy (id values)) then
      output (failure "--id is required for 'read' command")
    else
      email ⇐ graphRequest token
        ("/me/messages/" +:+ default "" (id values)
         +:+ "?$select=id,subject,from,receivedDateTime,body,bodyPreview,isRead,hasAttachments");
      data ⇐ settle (detail email);
      output (success data)
  else if String.eqb command "search" then
    if negb (truthy (query values)) then
      output (failure "--query is required for 'search' command")
    else
      let query := encodeURIComponent (default "" (query values)) in
      response ⇐ graphRequest token
        ("/me/messages?$search=" +:+ dquote +:+ query +:+ dquote +:+ "&$top=" +:+ top
         +:+ "&$orderby=receivedDateTime desc");
      data ⇐ settle (mapValue response summary);
      output (success data)
  else if String.eqb command "folders" then
    response ⇐ graphRequest token "/me/mailFolders?$top=50";
    data ⇐ settle (mapValue response folderData);
    output (success data)
  else
    output (failure ("Unknown command: " +:+ command +:+ ". Use --help for usage.")).

Definition main (values : Values) (positionals : list string) : Proc unit :=
  let command := head positionals in
  if negb (truthy command) then
    output (failure "No command specified. Use --help for usage.")
  else
    let command := default "" command in
    let requiredScopes := user GRAPH_SCOPES ++ mail GRAPH_SCOPES in
    auth ← ensureAuth {| auth_service := "microsoft-graph";
                         auth_profile := profile values;
                         requiredScopes := requiredScopes |};
    match auth with
    | AuthResponse response => output response
    | AuthToken token =>
        let top := showParseInt (top values) in
        try_catch (run command token top values)
          (λ error, output (failure (errorMessage error)))
    end.

(** The script: [--help] writes the usage and exits with 0 before [main] is
    called, anything else runs [main]. *)
Definition script (help : bool) (usage : string) (values : Values)
    (positionals : list string) : Proc unit :=
  if help then console_log (Text usage);; process_exit 0
  else main values positionals.

End Script.

End Emails.

(** ** [check-auth-complete.ts] *)

Module CheckAuthComplete.

Inductive Status : Type := complete | pending | failed.

Record CheckResult : Type := {
  status : Status;
  account : option string;
  error : option string;
}.

Definition statusText (s : Status) : string :=
  match s with
  | complete => "complete"
  | pending => "pending"
  | failed => "failed"
  end.

Definition isComplete (s : Status) : bool :=
  match s with
  | complete => true
  | _ => false
  end.

(** [JSON.stringify(result)] *)
Definition stringify (result : CheckResult) : JSON :=
  JObj ([("status", JStr (statusText (status result)))]
        ++ CheckAuth.member "account" JStr (account result)
        ++ CheckAuth.member "error" JStr (error result)).

Definition when (b : bool) (p : Proc unit) : Proc unit := if b then p else mret ().

Definition output (json : bool) (result : CheckResult) : Proc unit :=
  (if json then console_log (StringifiedJSON (stringify result))
   else
     match status result with
     | complete =>
         console_log (Text "Authentication complete!");;
         when (JSString.truthy (account result))
           (console_log (Text ("Account: " +:+ default "" (account result))))
     | pending =>
         console_log (Text "Authentication still pending");;
         when (JSString.truthy (error result))
           (console_log (Text ("Note: " +:+ default "" (error result))))
     | failed =>
         console_log (Text "Authentication failed");;
         when (JSString.truthy (error result))
           (console_log (Text ("Error: " +:+ default "" (error result))))
     end);;
  process_exit (if isComplete (status result) then 0 else 1).

Section Script.

Context `{Host}.

Definition main (profile : string) (json : bool) : Proc unit :=
  credential ← getCredential "microsoft-graph" profile;
  match credential with
  | None =>
      output json {| status := pending; account := None;
                     error := Some "No credentials found yet" |}
  | Some credential =>
      expired ← isTokenExpired credential;
      if negb expired then
        output json {| status := complete;
                       account := Some (Credentials.account credential);
                       error := None |}
      else
        output json {| status := failed; account := None;
                       error := Some "Credentials expired - please try authenticating again" |}
  end.

(** The script: [--help] prints the usage and exits with 0, anything else
    runs [main]. *)
Definition script (help : bool) (usage : string) (profile : string) (json : bool) : Proc unit :=
  if help then console_log (Text usage);; process_exit 0
  else main profile json.

End Script.

End CheckAuthComplete.

(** ** [auth.ts]: the sign-in *)

Module AuthLogin.

Import JSString Calendar.

(** The options of [auth.ts] that the sign-in reads, beside the profile. *)
Record Values : Type := {
  client_id : option string;
  tenant_id : option string;
  scopes : option string;
  json : bool;
  no_wait : bool;
}.

(** [new GraphClient({ profile, clientId, tenantId })] *)
Record GraphClientOptions : Type := {
  client_profile : string;
  client_clientId : option string;
  client_tenantId : option string;
}.

(** [s.split(sep)] for a separator of one character. *)
Fixpoint split (sep : ascii) (s : string) : list string :=
  match s with
  | EmptyString => [EmptyString]
  | String c rest =>
      if Ascii.eqb c sep then EmptyString :: split sep rest
      else
        match split sep rest with
        | first :: others => String c first :: others
        | [] => [String c EmptyString]
        end
  end.

(** [console.error(...)]: a line on standard error, which is not part of
    the world. *)
Definition console_error (s : string) : Proc unit := mret ().

Definition when (b : bool) (p : Proc unit) : Proc unit := if b then p else mret ().

(** [`${v}`] of an optional string. *)
Definition show (v : option string) : string := default "undefined" v.

Section Script.

Context `{Host}.

Variable GRAPH_SCOPES : GraphScopes.

(** [s.trim()] and [d.toLocaleString()], of the engine. *)
Variable trim : string → string.
Variable toLocaleString : Z → string.

(** [client.authenticate(scopes)] of [lib/graph-client], which is not among
    the sources: the device-code flow, which stores the credential. *)
Variable authenticate : GraphClientOptions → list string → Try Msal.AuthenticationResult.

(** The branch of [--no-wait], which runs the device-code flow of the
    identity provider on the event loop: by the configuration, the scopes and
    [--json]. *)
Variable noWait : Msal.Configuration → list string → bool → Try unit.

(** The scopes to ask for. *)
Definition requestedScopes (more : Values) : list string :=
  if truthy (scopes more) then trim <$> split "," (default "" (scopes more))
  else user GRAPH_SCOPES ++ mail GRAPH_SCOPES ++ calendar GRAPH_SCOPES.

(** [main] after the branches of [--list] and [--delete]. *)
Definition login (more : Values) (values : Auth.Values) : Proc unit :=
  let scopes := requestedScopes more in
  let clientId := default "14d82eec-204b-4c2f-b7e8-296a70dab67e" (client_id more) in
  let tenantId := default "common" (tenant_id more) in
  when (negb (json more))
    (console_log (Text "Authenticating with Microsoft Graph...");;
     console_log (Text ("Profile: " +:+ Auth.profile values));;
     (if truthy (client_id more) then console_log (Text ("Client ID: " +:+ clientId))
      else console_log (Text "Client ID: (using default Graph Explorer client)"));;
     when (truthy (tenant_id more)) (console_log (Text ("Tenant ID: " +:+ tenantId)));;
     console_log (Text ("Scopes: " +:+ join ", " scopes +:+ nl)));;
  try_catch
    (if no_wait more then
       noWait {| Msal.clientId := clientId;
                 Msal.authority := "https://login.microsoftonline.com/" +:+ tenantId |}
         scopes (json more)
     else
       result ⇐ authenticate {| client_profile := Auth.profile values;
                                client_clientId := client_id more;
                                client_tenantId := tenant_id more |} scopes;
       let account := Msal.username <$> Msal.account result in
       lift
         (if json more then
            console_log
              (StringifiedJSON
                 (JObj ([("status", JStr "success")]
                        ++ CheckAuth.member "account" JStr account
                        ++ CheckAuth.member "expiresAt" JStr
                             (toISOString <$> Msal.expiresOn result))))
          else
            console_log (Text (nl +:+ "✓ Authentication successful!"));;
            console_log (Text ("  Account: " +:+ show account));;
            console_log (Text ("  Expires: " +:+ show (toLocaleString <$> Msal.expiresOn result)));;
            when (truthy (client_id more))
              (console_log (Text "  Client ID saved for future use"));;
            console_log (Text (nl +:+ "Credentials saved to profile: " +:+ Auth.profile values))))
    (λ error,
       (if json more then
          console_log
            (StringifiedJSON
               (JObj [("status", JStr "error"); ("error", JStr (errorMessage error))]))
        else console_error "Authentication failed:");;
       process_exit 1).

(** [main] of [auth.ts]. *)
Definition main (more : Values) (values : Auth.Values) : Proc unit :=
  Auth.main (login more) values.

End Script.

End AuthLogin.

(** ** Observations on a run, and sample hosts *)

(** The local calendar fields of a time value. *)
Definition localDay `{Host} (t : Z) : Z := JSDate.Day (JSDate.LocalTime LocalTZA t).
Definition localTimeOfDay `{Host} (t : Z) : Z := JSDate.TimeWithinDay (JSDate.LocalTime LocalTZA t).
Definition localYear `{Host} (t : Z) : Z := JSDate.YearFromTime (JSDate.LocalTime LocalTZA t).
Definition localMonth `{Host} (t : Z) : Z := JSDate.MonthFromTime (JSDate.LocalTime LocalTZA t).
Definition localDate `{Host} (t : Z) : Z := JSDate.DateFromTime (JSDate.LocalTime LocalTZA t).

(** The time value that the zone gives for a local day number and a time
    within the day. *)
Definition ofLocal `{Host} (day time : Z) : JSDate.Date :=
  JSDate.TimeClip (JSDate.UTC LocalTZA (JSDate.MakeDate day time)).

(** A local time value that the zone has: the instant the zone gives for it
    reads it back.  A local time that a clock change skips is not one. *)
Definition isLocalTime `{Host} (x : Z) : Prop :=
  JSDate.LocalTime LocalTZA (JSDate.UTC LocalTZA x) = x.

(** The number that a relative date of a unit and an amount [n] gives to
    the [Date] method, from the base date [t], is within the exact range of
    the engines. *)
Definition withinExact `{Host} (unit : ascii) (n t : Z) : bool :=
  if Ascii.eqb unit "d" then JSDate.exactDate (localDate t + n)
  else if Ascii.eqb unit "m" then JSDate.exactMonth (localMonth t + n)
  else JSDate.exactYear (localYear t + n).

(** A zone without changes of its offset. *)
Definition constantOffset `{Host} : Prop :=
  ∃ offset, ∀ t isUTC, LocalTZA t isUTC = offset.

(** A world after [n] more readings of the clock, with [ls] more lines
    written, with one more URL requested. *)
Definition ticked (n : nat) (w : World) : World :=
  {| store := store w; ticks := (n + ticks w)%nat; stdout := stdout w; fetched := fetched w |}.

Definition printed (ls : list Line) (w : World) : World :=
  {| store := store w; ticks := ticks w; stdout := stdout w ++ ls; fetched := fetched w |}.

Definition requested (url : string) (w : World) : World :=
  {| store := store w; ticks := ticks w; stdout := stdout w; fetched := fetched w ++ [url] |}.

Definition withStore (st : Credentials.Store) (w : World) : World :=
  {| store := st; ticks := ticks w; stdout := stdout w; fetched := fetched w |}.

(** The lines [CheckAuth.output] writes for a result. *)
Definition report (json : bool) (result : CheckAuth.CheckResult) : list Line :=
  if json then [StringifiedJSON (CheckAuth.stringify result)]
  else if CheckAuth.isValid (CheckAuth.status result) then
    [Text "Auth status: Valid"]
    ++ (if JSString.truthy (CheckAuth.account result)
        then [Text ("Account: " +:+ default "" (CheckAuth.account result))] else [])
    ++ match CheckAuth.expiresIn result with
       | Some e => [Text ("Expires in: " +:+ pretty (CheckAuth.roundMinutes e) +:+ " minutes")]
       | None => []
       end
  else
    [Text "Auth status: Authentication required"]
    ++ (if JSString.truthy (CheckAuth.error result)
        then [Text ("Reason: " +:+ default "" (CheckAuth.error result))] else []).

(** The request for a silent refresh that [CheckAuth.main] sends for a
    credential, and how the provider settles it. *)
Definition silentRefresh (GRAPH_SCOPES : GraphScopes)
    (acquireTokenByRefreshToken : Msal.Configuration → Msal.RefreshTokenRequest → Msal.Settled)
    (credential : Credentials.Credential) : Msal.Settled :=
  acquireTokenByRefreshToken
    {| Msal.clientId := default CheckAuth.DEFAULT_CLIENT_ID (Credentials.clientId credential);
       Msal.authority := "https://login.microsoftonline.com/"
                         +:+ default CheckAuth.DEFAULT_TENANT (Credentials.tenantId credential) |}
    {| Msal.request_refreshToken := default "" (Credentials.refreshToken credential);
       Msal.request_scopes := user GRAPH_SCOPES ++ mail GRAPH_SCOPES ++ calendar GRAPH_SCOPES |}.

(** A host in the UTC zone whose clock reads [now], one millisecond later at
    each reading. *)
Definition utcHost (now : Z) : Host :=
  {| clock := λ n, now + Z.of_nat n;
     LocalTZA := λ _ _, 0;
     inexactDate := λ _ _ _ _, None;
     DateParse := λ _, None;
     toISOString := λ t, pretty t;
     invalidTimeMessage := "Invalid time value";
     showParseInt := λ s, s |}.

(** A host in a zone that is five hours behind UTC until 2024-03-10T07:00Z
    and four hours behind from then on, as America/New_York is around that
    day: the local times from 02:00 to 03:00 of 2024-03-10 are skipped. *)
Definition springForwardHost (now : Z) : Host :=
  {| clock := λ n, now + Z.of_nat n;
     LocalTZA := λ t isUTC,
       if isUTC then (if t <? 1710054000000 then -18000000 else -14400000)
       else (if t <? 1710039600000 then -18000000 else -14400000);
     inexactDate := λ _ _ _ _, None;
     DateParse := λ _, None;
     toISOString := λ t, pretty t;
     invalidTimeMessage := "Invalid time value";
     showParseInt := λ s, s |}.

Definition sampleScopes : GraphScopes :=
  {| user := ["User.Read"]; mail := ["Mail.Read"]; calendar := ["Calendars.Read"] |}.

Definition sampleCredential (expiresAt : Z) (refreshToken : option string) : Credentials.Credential :=
  {| Credentials.accessToken := "old-access";
     Credentials.refreshToken := refreshToken;
     Credentials.expiresAt := expiresAt;
     Credentials.account := "user@example.com";
     Credentials.scopes := ["Mail.Read"];
     Credentials.clientId := None;
     Credentials.tenantId := Some "contoso" |}.

Definition sampleValues (start end_ : option string) : Calendar.Values :=
  {| Calendar.profile := "default"; Calendar.top := "10";
     Calendar.start := start; Calendar.end_ := end_;
     Calendar.query := None; Calendar.id := None |}.

Definition emptyWorld : World :=
  {| store := ∅; ticks := 0; stdout := []; fetched := [] |}.

Definition sampleWorld (c : Credentials.Credential) : World :=
  withStore (Credentials.setCredential "microsoft-graph" "default" c ∅) emptyWorld.

Section CheckAuth_observations.

Context `{Host}.
Variable GRAPH_SCOPES : GraphScopes.
Variable acquireTokenByRefreshToken :
  Msal.Configuration → Msal.RefreshTokenRequest → Msal.Settled.

(** The three ways in which a run ends with [needs-auth]. *)
Definition noCredential (profile : string) (w : World) : Prop :=
  Credentials.getCredential "microsoft-graph" profile (store w) = None.

Definition expiredWithoutRefreshToken (profile : string) (w : World) : Prop :=
  ∃ credential,
    Credentials.getCredential "microsoft-graph" profile (store w) = Some credential
    ∧ Credentials.expiredAt (clock (ticks w)) credential = true
    ∧ JSString.truthy (Credentials.refreshToken credential) = false.

Definition refreshFails (profile : string) (w : World) : Prop :=
  ∃ credential,
    Credentials.getCredential "microsoft-graph" profile (store w) = Some credential
    ∧ Credentials.expiredAt (clock (ticks w)) credential = true
    ∧ JSString.truthy (Credentials.refreshToken credential) = true
    ∧ ((∃ error, silentRefresh GRAPH_SCOPES acquireTokenByRefreshToken credential = Msal.Rejected error)
       ∨ silentRefresh GRAPH_SCOPES acquireTokenByRefreshToken credential = Msal.Resolved None).

End CheckAuth_observations.

(** A provider that settles every request in the same way, and a result
    without a refresh token, an account or scopes. *)
Definition sampleProvider (answer : Msal.Settled)
    : Msal.Configuration → Msal.RefreshTokenRequest → Msal.Settled :=
  λ _ _, answer.

Definition sampleResult (expiresOn : option Z) : Msal.AuthenticationResult :=
  {| Msal.accessToken := "new-access";
     Msal.refreshToken := None;
     Msal.expiresOn := expiresOn;
     Msal.account := None;
     Msal.scopes := Some [] |}.

(** The lines that [Auth.printProfile] writes for a profile with a
    credential, at the time [now] read for its status. *)
Definition profileBlock (profile : string) (cred : Credentials.Credential) (now : Z) : list Line :=
  [Text ("  " +:+ profile +:+ ":");
   Text ("    Account: " +:+ Credentials.account cred);
   Text ("    Scopes: " +:+ JSString.join ", " (Credentials.scopes cred))]
  ++ (if JSString.truthy (Credentials.clientId cred)
      then [Text ("    Client ID: " +:+ default "" (Credentials.clientId cred))] else [])
  ++ (if JSString.truthy (Credentials.tenantId cred)
      then [Text ("    Tenant ID: " +:+ default "" (Credentials.tenantId cred))] else [])
  ++ [Text ("    Status: " +:+ (if Auth.listedAsExpired now cred then "EXPIRED" else "Valid"));
      Text ""].

Definition listValues (profile : string) : Auth.Values :=
  {| Auth.profile := profile; Auth.list_flag := true; Auth.delete_flag := false |}.

Definition deleteValues (profile : string) : Auth.Values :=
  {| Auth.profile := profile; Auth.list_flag := false; Auth.delete_flag := true |}.

(** The first character of a string is a space. *)
Definition startsWithSpace (s : string) : bool :=
  match s with
  | String c _ => Ascii.eqb c " "
  | EmptyString => false
  end.

(** ** Observations on the shaping of documents *)

(** The attendees of an event, as [formatEventData] reads them: the elements
    of the array, none when the member is missing or [null]. *)
Definition attendeesOf (event : JSON) : option (list JSON) :=
  match JSValue.getOpt (Some event) "attendees" with
  | None | Some JNull => Some []
  | Some (JArr items) => Some items
  | Some _ => None
  end.

(** The characters that delimit the parts of a URL and of a query. *)
Definition urlDelimiters : list ascii :=
  ["/"; "?"; "#"; "&"; "="; "+"; " "; ascii_of_nat 34]%char.

(** An engine whose [TypeError]s carry the expression as their message. *)
Definition sampleTypeErrorMessage : JSValue.Value → string → string :=
  λ _ site, "TypeError: " +:+ site.

Definition sampleEmailValues : Emails.Values :=
  {| Emails.profile := "default"; Emails.folder := "Sent Items"; Emails.top := "10";
     Emails.query := None; Emails.id := None |}.

(** The lines [CheckAuthComplete.output] writes for a result. *)
Definition completionReport (json : bool) (result : CheckAuthComplete.CheckResult) : list Line :=
  if json then [StringifiedJSON (CheckAuthComplete.stringify result)]
  else
    match CheckAuthComplete.status result with
    | CheckAuthComplete.complete =>
        [Text "Authentication complete!"]
        ++ (if JSString.truthy (CheckAuthComplete.account result)
            then [Text ("Account: " +:+ default "" (CheckAuthComplete.account result))] else [])
    | CheckAuthComplete.pending =>
        [Text "Authentication still pending"]
        ++ (if JSString.truthy (CheckAuthComplete.error result)
            then [Text ("Note: " +:+ default "" (CheckAuthComplete.error result))] else [])
    | CheckAuthComplete.failed =>
        [Text "Authentication failed"]
        ++ (if JSString.truthy (CheckAuthComplete.error result)
            then [Text ("Error: " +:+ default "" (CheckAuthComplete.error result))] else [])
    end.

(** The number of occurrences of a character in a string. *)
Fixpoint occurrences (c : ascii) (s : string) : nat :=
  match s with
  | EmptyString => 0
  | String x rest => (if Ascii.eqb x c then 1 else 0) + occurrences c rest
  end.

(** The lines that the sign-in of [auth.ts] writes before it starts, without
    [--json]. *)
Definition loginHeader (GRAPH_SCOPES : GraphScopes) (trim : string → string)
    (more : AuthLogin.Values) (values : Auth.Values) : list Line :=
  if AuthLogin.json more then []
  else
    [Text "Authenticating with Microsoft Graph...";
     Text ("Profile: " +:+ Auth.profile values);
     Text (if JSString.truthy (AuthLogin.client_id more)
           then "Client ID: " +:+ default "" (AuthLogin.client_id more)
           else "Client ID: (using default Graph Explorer client)")]
    ++ (if JSString.truthy (AuthLogin.tenant_id more)
        then [Text ("Tenant ID: " +:+ default "" (AuthLogin.tenant_id more))] else [])
    ++ [Text ("Scopes: "
              +:+ JSString.join ", " (AuthLogin.requestedScopes GRAPH_SCOPES trim more)
              +:+ JSString.nl)].

(** The text of an OData string literal, read from after its opening quote
    up to the first quote that is not doubled, a doubled quote standing for
    one quote; and what follows the closing quote.  [None] when the literal
    is not closed. *)
Fixpoint readLiteral (s : string) : option (string * string) :=
  match s with
  | EmptyString => None
  | String c rest =>
      if Ascii.eqb c "'" then
        match rest with
        | String c' rest' =>
            if Ascii.eqb c' "'" then
              match readLiteral rest' with
              | Some (text, tail) => Some (String c text, tail)
              | None => None
              end
            else Some (EmptyString, rest)
        | EmptyString => Some (EmptyString, rest)
        end
      else
        match readLiteral rest with
        | Some (text, tail) => Some (String c text, tail)
        | None => None
        end
  end.

(** An event with one attendee and without a location, and an email with a
    sender, as the Graph API gives them. *)
Definition sampleEvent : JSON :=
  JObj [("id", JStr "AAMk1");
        ("subject", JStr "Review");
        ("isAllDay", JNull);
        ("attendees",
         JArr [JObj [("emailAddress", JObj [("address", JStr "ann@example.com")]);
                     ("status", JObj [("response", JStr "accepted")])]])].

Definition sampleEmail : JSON :=
  JObj [("id", JStr "AAMk2");
        ("subject", JStr "Hello");
        ("from", JObj [("emailAddress", JObj [("address", JStr "bob@example.com")])]);
        ("isRead", JBool false)].

(** A service that hands out the token [token], and networks that answer
    every request in the same way. *)
Definition sampleAuth : Calendar.EnsureAuthOptions → Proc Calendar.AuthResult :=
  λ _ w, Ret (Calendar.AuthToken "token") w.

Definition sampleNetwork (answer : Calendar.Fetched)
    : nat → string → list (string * string) → Calendar.Fetched :=
  λ _ _ _, answer.

Definition okResponse : Calendar.Fetched :=
  Calendar.FetchResolved {| Calendar.response_status := 200; Calendar.response_text := "{}" |}.

(** A parser that reads every body as the object whose [value] is the array
    of the given items. *)
Definition sampleBody (items : list JSON) : string → Thrown + JSON :=
  λ _, inr (JObj [("value", JArr items)]).

Definition sampleLogin (json : bool) : AuthLogin.Values :=
  {| AuthLogin.client_id := None; AuthLogin.tenant_id := None;
     AuthLogin.scopes := Some "User.Read, Mail.Read";
     AuthLogin.json := json; AuthLogin.no_wait := false |}.

(** * Properties *)

(** ** The calendar of time values *)

Section Calendar_facts.

Import JSDate.

Lemma DayFromYear_succ y : DayFromYear (y + 1) = DayFromYear y + DaysInYear y.
Proof.
  unfold DayFromYear, DaysInYear.
  repeat match goal with |- context [?a =? ?b] => destruct (Z.eqb_spec a b); simpl end;
    Z.div_mod_to_equations; lia.
Qed.

Lemma DayFromYear_lt y1 y2 : y1 < y2 → DayFromYear y1 < DayFromYear y2.
Proof. unfold DayFromYear. intros. Z.div_mod_to_equations. lia. Qed.

(** [YearFromDay d] is the year whose days include day [d]. *)
Lemma YearFromDay_spec d :
  DayFromYear (YearFromDay d) <= d < DayFromYear (YearFromDay d + 1).
Proof.
  unfold YearFromDay.
  set (y := 1970 + 400 * d / 146097).
  assert (DayFromYear (y - 1) <= d < DayFromYear (y + 2)) as Hb.
  { subst y. unfold DayFromYear. Z.div_mod_to_equations. lia. }
  destruct (Z.ltb_spec d (DayFromYear y)).
  - replace (y - 1 + 1) with y by lia. lia.
  - destruct (Z.leb_spec (DayFromYear (y + 1)) d).
    + replace (y + 1 + 1) with (y + 2) by lia. lia.
    + lia.
Qed.

Lemma YearFromDay_unique d y :
  DayFromYear y <= d < DayFromYear (y + 1) → YearFromDay d = y.
Proof.
  intros Hy. pose proof (YearFromDay_spec d) as Hs.
  destruct (Z.lt_trichotomy (YearFromDay d) y) as [Hlt | [Heq | Hgt]]; [| done |].
  - destruct (Z.eq_dec (YearFromDay d + 1) y) as [Heq | Hne]; [rewrite <- Heq in Hy; lia |].
    pose proof (DayFromYear_lt (YearFromDay d + 1) y). lia.
  - destruct (Z.eq_dec (y + 1) (YearFromDay d)) as [Heq | Hne]; [rewrite <- Heq in Hs; lia |].
    pose proof (DayFromYear_lt (y + 1) (YearFromDay d)). lia.
Qed.

(** [YearFromTime t] is the largest [y] with [TimeFromYear y <= t]. *)
Lemma YearFromTime_largest t y : TimeFromYear y <= t ↔ y <= YearFromTime t.
Proof.
  unfold YearFromTime, TimeFromYear.
  pose proof (YearFromDay_spec (Day t)) as Hs.
  assert (DayFromYear y <= Day t ↔ msPerDay * DayFromYear y <= t) as <-.
  { unfold Day, msPerDay. split; intros Hd.
    - pose proof (Z.mul_div_le t 86400000 ltac:(lia)). lia.
    - apply Z.div_le_lower_bound; lia. }
  split; intros Hy.
  - destruct (Z.le_gt_cases y (YearFromDay (Day t))) as [Hle | Hgt]; [done |].
    destruct (Z.eq_dec (YearFromDay (Day t) + 1) y) as [Heq | Hne];
      [rewrite <- Heq in Hy; lia |].
    pose proof (DayFromYear_lt (YearFromDay (Day t) + 1) y). lia.
  - destruct (Z.eq_dec y (YearFromDay (Day t))) as [-> | Hne]; [lia |].
    pose proof (DayFromYear_lt y (YearFromDay (Day t))). lia.
Qed.

Lemma leap_cases y : leap y = 0 ∨ leap y = 1.
Proof. unfold leap. destruct (DaysInYear y =? 366); auto. Qed.

Lemma DaysInYear_leap y : DaysInYear y = 365 + leap y.
Proof. unfold leap, DaysInYear. repeat case_match; done. Qed.

Lemma DayWithinYear_range t : 0 <= DayWithinYear t < 365 + InLeapYear t.
Proof.
  unfold DayWithinYear, InLeapYear, YearFromTime.
  pose proof (YearFromDay_spec (Day t)) as Hs.
  rewrite DayFromYear_succ, DaysInYear_leap in Hs. lia.
Qed.

Lemma MonthFromTime_range t : 0 <= MonthFromTime t <= 11.
Proof. unfold MonthFromTime. repeat case_match; lia. Qed.

(** The day number that [MakeDay] gives for the fields of [t], with the date
    moved by [n], is the day of [t] moved by [n]. *)
Lemma MakeDay_of_fields t n :
  MakeDay (YearFromTime t) (MonthFromTime t) (DateFromTime t + n) = Day t + n.
Proof.
  pose proof (MonthFromTime_range t) as Hm.
  unfold MakeDay, DateFromTime.
  rewrite Z.div_small, Z.mod_small by lia.
  rewrite Z.add_0_r. fold (InLeapYear t).
  unfold DayWithinYear. lia.
Qed.

Lemma Day_MakeDate day time : 0 <= time < msPerDay → Day (MakeDate day time) = day.
Proof.
  intros Ht. unfold Day, MakeDate, msPerDay in *.
  rewrite Z.add_comm, Z.div_add by lia. rewrite Z.div_small by lia. lia.
Qed.

Lemma TimeWithinDay_MakeDate day time :
  0 <= time < msPerDay → TimeWithinDay (MakeDate day time) = time.
Proof.
  intros Ht. unfold TimeWithinDay, MakeDate, msPerDay in *.
  rewrite Z.add_comm, Z.mod_add by lia. apply Z.mod_small. lia.
Qed.

Lemma MakeDate_Day_TimeWithinDay t : MakeDate (Day t) (TimeWithinDay t) = t.
Proof.
  unfold MakeDate, Day, TimeWithinDay.
  pose proof (Z.div_mod t msPerDay). unfold msPerDay in *. lia.
Qed.

Lemma TimeWithinDay_range t : 0 <= TimeWithinDay t < msPerDay.
Proof. unfold TimeWithinDay, msPerDay. apply Z.mod_pos_bound. lia. Qed.

(** Case analysis on a month number known to lie in 0..11. *)
Ltac each_month m :=
  let H := fresh in
  assert (m = 0 ∨ m = 1 ∨ m = 2 ∨ m = 3 ∨ m = 4 ∨ m = 5 ∨ m = 6 ∨ m = 7 ∨ m = 8
          ∨ m = 9 ∨ m = 10 ∨ m = 11) as H by lia;
  repeat (destruct H as [H | H]); subst m.

Ltac leap_year y :=
  let H := fresh in
  let L := fresh "L" in
  pose proof (leap_cases y) as H; set (L := leap y) in *; clearbody L;
  destruct H; subst L.

Lemma DateFromTime_range t :
  1 <= DateFromTime t <= DaysInMonth (YearFromTime t) (MonthFromTime t).
Proof.
  pose proof (DayWithinYear_range t) as Hd.
  unfold DateFromTime, DaysInMonth. fold (InLeapYear t).
  unfold MonthFromTime. unfold InLeapYear in *.
  set (d := DayWithinYear t) in *. clearbody d.
  leap_year (YearFromTime t);
    repeat match goal with
           | |- context [Z.ltb ?a ?b] => destruct (Z.ltb_spec a b); [unfold monthStart; simpl; lia |]
           end; unfold monthStart; simpl; lia.
Qed.


Lemma month_of_day_within_year L m dt :
  (L = 0 ∨ L = 1) → 0 <= m <= 11 → 1 <= dt <= (if m =? 11 then 31 else monthStart (m + 1) L - monthStart m L) →
  let d := monthStart m L + dt - 1 in
  (if d <? 31 then 0
    else if d <? 59 + L then 1
    else if d <? 90 + L then 2
    else if d <? 120 + L then 3
    else if d <? 151 + L then 4
    else if d <? 181 + L then 5
    else if d <? 212 + L then 6
    else if d <? 243 + L then 7
    else if d <? 273 + L then 8
    else if d <? 304 + L then 9
    else if d <? 334 + L then 10
    else 11) = m ∧ 0 <= d < 365 + L.
Proof.
  intros HL Hm Hdt d. subst d.
  destruct HL; subst L; each_month m; unfold monthStart in *; simpl in *;
    (split; [| lia]);
    repeat match goal with
           | |- context [Z.ltb ?a ?b] => destruct (Z.ltb_spec a b); [try lia |]
           end; try lia; try done.
Qed.

(** The fields of the time value made from a year, a month, a date of that
    month and a time within the day are these. *)
Lemma fields_of_MakeDate y m dt time :
  0 <= m <= 11 → 1 <= dt <= DaysInMonth y m → 0 <= time < msPerDay →
  let t := MakeDate (MakeDay y m dt) time in
  YearFromTime t = y ∧ MonthFromTime t = m ∧ DateFromTime t = dt ∧ TimeWithinDay t = time.
Proof.
  intros Hm Hdt Ht t.
  destruct (month_of_day_within_year (leap y) m dt (leap_cases y) Hm Hdt) as [HM Hw].
  assert (Day t = DayFromYear y + monthStart m (leap y) + dt - 1) as HD.
  { subst t. rewrite Day_MakeDate by done. unfold MakeDay.
    rewrite Z.div_small, Z.mod_small by lia. by rewrite Z.add_0_r. }
  assert (YearFromTime t = y) as HY.
  { unfold YearFromTime. rewrite HD. apply YearFromDay_unique.
    rewrite DayFromYear_succ, DaysInYear_leap. lia. }
  assert (DayWithinYear t = monthStart m (leap y) + dt - 1) as HW.
  { unfold DayWithinYear. rewrite HY, HD. lia. }
  assert (InLeapYear t = leap y) as HL by (unfold InLeapYear; by rewrite HY).
  assert (MonthFromTime t = m) as HMt.
  { unfold MonthFromTime. rewrite HW, HL. exact HM. }
  split; [done |]. split; [done |]. split.
  - unfold DateFromTime. rewrite HMt, HW, HL. lia.
  - subst t. by apply TimeWithinDay_MakeDate.
Qed.

Lemma DaysInMonth_range y m : 0 <= m <= 11 → 28 <= DaysInMonth y m <= 31.
Proof.
  intros Hm. unfold DaysInMonth. leap_year y; each_month m; unfold monthStart; simpl; lia.
Qed.

(** The month and the year that [MakeDay] normalises a month number to. *)
Lemma MakeDay_normalise y m dt :
  MakeDay y m dt = MakeDay (y + m / 12) (m mod 12) dt.
Proof.
  unfold MakeDay.
  assert (0 <= m mod 12 < 12) as Hm by (apply Z.mod_pos_bound; lia).
  rewrite (Z.div_small (m mod 12)), (Z.mod_small (m mod 12)) by lia.
  by rewrite Z.add_0_r.
Qed.

(** The day that [MakeDay] counts from is the first of the month it
    normalised to, as ECMA-262 asks of it. *)
Lemma MakeDay_first_of_month y m :
  let t := MakeDate (MakeDay y m 1) 0 in
  YearFromTime t = y + m / 12 ∧ MonthFromTime t = m mod 12 ∧ DateFromTime t = 1.
Proof.
  intros t. subst t. rewrite MakeDay_normalise.
  assert (0 <= m mod 12 <= 11) as Hm.
  { pose proof (Z.mod_pos_bound m 12). lia. }
  pose proof (DaysInMonth_range (y + m / 12) (m mod 12) Hm) as Hd.
  destruct (fields_of_MakeDate (y + m / 12) (m mod 12) 1 0 Hm) as (? & ? & ? & _);
    [lia | unfold msPerDay; lia | done].
Qed.


End Calendar_facts.

(** ** Strings *)

Section String_facts.

Import JSString.

Lemma splitLast_app (a : string) (u : ascii) :
  splitLast (a +:+ String u EmptyString) = Some (a, u).
Proof.
  induction a as [| c a IH]; [done |].
  simpl. by rewrite IH.
Qed.

Lemma splitLast_inv (s a : string) (u : ascii) :
  splitLast s = Some (a, u) → s = a +:+ String u EmptyString.
Proof.
  revert a. induction s as [| c s IH]; intros a Hs; [done |].
  simpl in Hs. destruct (splitLast s) as [[body l] |] eqn:Hl.
  - injection Hs as <- <-. rewrite (IH body eq_refl) at 1. done.
  - injection Hs as <- <-. destruct s as [| c' s]; [done |].
    simpl in Hl. destruct (splitLast s) as [[? ?] |]; done.
Qed.

(** [relativeMatch] accepts exactly the strings [+<digits><unit>]. *)
Lemma relativeMatch_spec (s amount : string) (unit : ascii) :
  relativeMatch s = Some (amount, unit) ↔
  s = "+" +:+ amount +:+ String unit EmptyString
  ∧ amount ≠ "" ∧ allDigits amount = true ∧ isUnit unit = true.
Proof.
  split.
  - unfold relativeMatch. intros Hm.
    destruct s as [| c rest]; [done |].
    destruct (Ascii.eqb_spec c "+"%char) as [-> | Hc]; cycle 1.
    { revert Hc Hm. clear. destruct c as [[] [] [] [] [] [] [] []]; done. }
    destruct (splitLast rest) as [[a u] |] eqn:Hl; [| done].
    destruct (String.eqb_spec a ""); [done |].
    destruct (allDigits a) eqn:Hd; [| done].
    destruct (isUnit u) eqn:Hu; [| done].
    simpl in Hm. injection Hm as <- <-.
    apply splitLast_inv in Hl as ->. done.
  - intros (-> & Hne & Hd & Hu).
    change (relativeMatch ("+" +:+ amount +:+ String unit EmptyString))
      with (match splitLast (amount +:+ String unit EmptyString) with
            | Some (amount, unit) =>
                if negb (String.eqb amount "") && allDigits amount && isUnit unit
                then Some (amount, unit) else None
            | None => None
            end).
    rewrite splitLast_app, Hd, Hu.
    destruct (String.eqb_spec amount ""); done.
Qed.

End String_facts.

(** ** Date resolution of [calendar.ts] *)

Section ParseDate_facts.

Import JSDate JSString Calendar.

Lemma digitValue_range c : isDigit c = true → 0 <= digitValue c <= 9.
Proof.
  unfold isDigit, digitValue. intros [H1 H2]%andb_prop.
  apply Nat.leb_le in H1, H2. lia.
Qed.

Lemma parseDigits_nonneg acc s : allDigits s = true → 0 <= acc → 0 <= parseDigits acc s.
Proof.
  revert acc. induction s as [| c s IH]; intros acc Hs Hacc; simpl in *; [done |].
  apply andb_prop in Hs as [Hc Hs]. apply IH; [done |].
  pose proof (digitValue_range c Hc). lia.
Qed.

Lemma parseInt_nonneg s : allDigits s = true → 0 <= parseInt s.
Proof. intros Hs. by apply parseDigits_nonneg. Qed.








Context `{Host}.

(** In a zone of constant offset every local time value is the local time
    of an instant. *)
Lemma constantOffset_isLocalTime x : constantOffset → isLocalTime x.
Proof. intros [offset Ho]. unfold isLocalTime, LocalTime, UTC. rewrite !Ho. lia. Qed.

(** The local fields of a time value made from a local day and a time
    within the day that the zone has. *)
Lemma ofLocal_fields day time r :
  0 <= time < msPerDay → isLocalTime (MakeDate day time) → ofLocal day time = Some r →
  localDay r = day ∧ localTimeOfDay r = time.
Proof.
  unfold ofLocal, TimeClip, localDay, localTimeOfDay, isLocalTime. intros Ht Hx Hr.
  case_match; [| done]. injection Hr as <-.
  rewrite Hx. split; [by apply Day_MakeDate | by apply TimeWithinDay_MakeDate].
Qed.


Lemma TimeClip_valid x : Z.abs x <= maxTime → TimeClip x = Some x.
Proof. unfold TimeClip. intros Hx. destruct (Z.leb_spec (Z.abs x) maxTime); [done | lia]. Qed.

(** In a zone of constant offset the instant of a local date that many days
    after a time value, at its time of day, is that many times 24 hours
    after it. *)
Lemma ofLocal_shifted t n :
  constantOffset → ofLocal (localDay t + n) (localTimeOfDay t) = TimeClip (t + n * msPerDay).
Proof.
  intros [offset Ho]. unfold ofLocal, localDay, localTimeOfDay. f_equal.
  pose proof (MakeDate_Day_TimeWithinDay (LocalTime LocalTZA t)) as Ht.
  unfold UTC, LocalTime, MakeDate in *. rewrite !Ho in *. lia.
Qed.

Lemma localTimeOfDay_range t : 0 <= localTimeOfDay t < msPerDay.
Proof. apply TimeWithinDay_range. Qed.

Lemma localDate_range t : 1 <= localDate t <= 31.
Proof.
  unfold localDate. set (lt := LocalTime LocalTZA t).
  pose proof (DateFromTime_range lt) as Hd.
  pose proof (DaysInMonth_range (YearFromTime lt) (MonthFromTime lt) (MonthFromTime_range lt)).
  lia.
Qed.

Lemma localMonth_range t : 0 <= localMonth t <= 11.
Proof. apply MonthFromTime_range. Qed.

(** The numbers the script gives to [setDate] and [setMonth] are within the
    exact range when the amount is. *)
Lemma exactDate_relative t n :
  0 <= n <= maxExactDate - 31 → exactDate (localDate t + n) = true.
Proof.
  intros Hn. pose proof (localDate_range t). unfold exactDate.
  apply andb_true_intro. split; apply Z.leb_le; lia.
Qed.

Lemma exactMonth_relative t n :
  0 <= n <= maxExactMonth - 11 → exactMonth (localMonth t + n) = true.
Proof.
  intros Hn. pose proof (localMonth_range t). unfold exactMonth.
  apply andb_true_intro. split; apply Z.leb_le; lia.
Qed.

(** Unfolding of the option binds of a [Date] method on a valid date. *)
Ltac on_valid_date :=
  cbv [setHours setDate setMonth setFullYear getDate getMonth getFullYear num_add
       mbind option_bind fmap option_fmap option_map
       ofLocal localDay localTimeOfDay localYear localMonth localDate].

Lemma setHours_midnight t :
  setHours LocalTZA (Some t) 0 0 0 0 = ofLocal (localDay t) 0.
Proof. on_valid_date. reflexivity. Qed.

Lemma setDate_relative t n :
  exactDate (localDate t + n) = true →
  setDate LocalTZA inexactDate (Some t) (num_add (getDate LocalTZA (Some t)) n)
  = ofLocal (localDay t + n) (localTimeOfDay t).
Proof.
  intros Hex. unfold localDate in Hex. on_valid_date. rewrite Hex.
  by rewrite MakeDay_of_fields.
Qed.

Lemma setMonth_relative t n :
  exactMonth (localMonth t + n) = true →
  setMonth LocalTZA inexactDate (Some t) (num_add (getMonth LocalTZA (Some t)) n)
  = ofLocal (MakeDay (localYear t) (localMonth t + n) (localDate t)) (localTimeOfDay t).
Proof. intros Hex. unfold localMonth in Hex. on_valid_date. by rewrite Hex. Qed.

Lemma setFullYear_relative t n :
  exactYear (localYear t + n) = true →
  setFullYear LocalTZA inexactDate (Some t) (num_add (getFullYear LocalTZA (Some t)) n)
  = ofLocal (MakeDay (localYear t + n) (localMonth t) (localDate t)) (localTimeOfDay t).
Proof. intros Hex. unfold localYear in Hex. on_valid_date. by rewrite Hex. Qed.

Lemma parseDate_today_eq input baseDate :
  toLowerCase input = "today" →
  parseDate input baseDate = setHours LocalTZA baseDate 0 0 0 0.
Proof. unfold parseDate. intros ->. reflexivity. Qed.

Lemma parseDate_tomorrow_eq input baseDate :
  toLowerCase input = "tomorrow" →
  parseDate input baseDate
  = setHours LocalTZA
      (setDate LocalTZA inexactDate baseDate (num_add (getDate LocalTZA baseDate) 1)) 0 0 0 0.
Proof. unfold parseDate. intros ->. reflexivity. Qed.

Lemma parseDate_relative_eq input baseDate amount unit :
  relativeMatch (toLowerCase input) = Some (amount, unit) →
  parseDate input baseDate =
    if Ascii.eqb unit "d" then
      setDate LocalTZA inexactDate baseDate (num_add (getDate LocalTZA baseDate) (parseInt amount))
    else if Ascii.eqb unit "m" then
      setMonth LocalTZA inexactDate baseDate
        (num_add (getMonth LocalTZA baseDate) (parseInt amount))
    else
      setFullYear LocalTZA inexactDate baseDate
        (num_add (getFullYear LocalTZA baseDate) (parseInt amount)).
Proof.
  intros Hm. unfold parseDate. rewrite Hm.
  apply relativeMatch_spec in Hm as (-> & _). reflexivity.
Qed.


Lemma bind_valid {A} (t : Z) (f : Z → option A) : (Some t ≫= f) = f t.
Proof. reflexivity. Qed.

Lemma parseDate_tomorrow_spec input baseDate :
  toLowerCase input = "tomorrow" →
  parseDate input baseDate
  = (t ← baseDate; next ← ofLocal (localDay t + 1) (localTimeOfDay t);
     ofLocal (localDay next) 0).
Proof.
  intros Hl. rewrite (parseDate_tomorrow_eq _ _ Hl).
  destruct baseDate as [t |]; [| reflexivity].
  rewrite setDate_relative by (apply exactDate_relative; unfold maxExactDate; lia).
  rewrite bind_valid.
  destruct (ofLocal (localDay t + 1) (localTimeOfDay t)) as [next |]; [| reflexivity].
  rewrite bind_valid. apply setHours_midnight.
Qed.

(** A relative date, by its unit, for an amount within the exact range. *)
Lemma parseDate_relative_value input amount unit t :
  relativeMatch (toLowerCase input) = Some (amount, unit) →
  let n := parseInt amount in
  0 <= n
  ∧ (unit = "d"%char → n <= maxExactDate - 31 →
     parseDate input (Some t) = ofLocal (localDay t + n) (localTimeOfDay t))
  ∧ (unit = "m"%char → n <= maxExactMonth - 11 →
     parseDate input (Some t)
     = ofLocal (MakeDay (localYear t) (localMonth t + n) (localDate t)) (localTimeOfDay t))
  ∧ (unit = "y"%char → exactYear (localYear t + n) = true →
     parseDate input (Some t)
     = ofLocal (MakeDay (localYear t + n) (localMonth t) (localDate t)) (localTimeOfDay t))
  ∧ parseDate input None = None.
Proof.
  intros Hm n. pose proof Hm as (_ & _ & Hd & _)%relativeMatch_spec.
  assert (0 <= n) as Hn by (by apply parseInt_nonneg).
  rewrite !(parseDate_relative_eq _ _ _ _ Hm).
  split; [done |]. repeat split.
  - intros -> Hb. change (Ascii.eqb "d" "d") with true. cbv iota.
    apply setDate_relative, exactDate_relative. fold n. lia.
  - intros -> Hb. change (Ascii.eqb "m" "d") with false.
    change (Ascii.eqb "m" "m") with true. cbv iota.
    apply setMonth_relative, exactMonth_relative. fold n. lia.
  - intros -> Hb. change (Ascii.eqb "y" "d") with false.
    change (Ascii.eqb "y" "m") with false. cbv iota.
    by apply setFullYear_relative.
  - by repeat case_match.
Qed.

Lemma parseDate_relative_spec input baseDate amount unit :
  toLowerCase input = "+" +:+ amount +:+ String unit EmptyString →
  amount ≠ "" → allDigits amount = true →
  let n := parseInt amount in
  (unit = "d"%char → n <= maxExactDate - 31 →
     parseDate input baseDate
     = (t ← baseDate; ofLocal (localDay t + n) (localTimeOfDay t)))
  ∧ (unit = "m"%char → n <= maxExactMonth - 11 →
       parseDate input baseDate
       = (t ← baseDate;
          ofLocal (MakeDay (localYear t) (localMonth t + n) (localDate t)) (localTimeOfDay t)))
  ∧ (unit = "y"%char →
       (baseDate = None → parseDate input baseDate = None)
       ∧ ∀ t, baseDate = Some t → exactYear (localYear t + n) = true →
           parseDate input baseDate
           = ofLocal (MakeDay (localYear t + n) (localMonth t) (localDate t))
               (localTimeOfDay t)).
Proof.
  intros Hl Hne Hd n.
  assert (isUnit unit = true → relativeMatch (toLowerCase input) = Some (amount, unit)) as Hm.
  { intros Hu. by apply relativeMatch_spec. }
  split; [| split].
  - intros -> Hb. specialize (Hm eq_refl).
    destruct baseDate as [t |].
    + destruct (parseDate_relative_value input amount "d"%char t Hm) as (_ & Hv & _).
      exact (Hv eq_refl Hb).
    + destruct (parseDate_relative_value input amount "d"%char 0 Hm) as (_ & _ & _ & _ & Hv).
      exact Hv.
  - intros -> Hb. specialize (Hm eq_refl).
    destruct baseDate as [t |].
    + destruct (parseDate_relative_value input amount "m"%char t Hm) as (_ & _ & Hv & _).
      exact (Hv eq_refl Hb).
    + destruct (parseDate_relative_value input amount "m"%char 0 Hm) as (_ & _ & _ & _ & Hv).
      exact Hv.
  - intros ->. specialize (Hm eq_refl). split.
    + intros ->.
      destruct (parseDate_relative_value input amount "y"%char 0 Hm) as (_ & _ & _ & _ & Hv).
      exact Hv.
    + intros t -> Hex.
      destruct (parseDate_relative_value input amount "y"%char t Hm) as (_ & _ & _ & Hv & _).
      exact (Hv eq_refl Hex).
Qed.

Lemma dateRange_default command values w :
  command ≠ "today" → command ≠ "week" →
  let now := Some (clock (ticks w)) in
  let startDate :=
    if truthy (start values)
    then parseDate (default "" (start values)) (Some (clock (S (ticks w))))
    else now in
  let endDate :=
    parseDate (if truthy (end_ values) then default "" (end_ values) else "+30d") startDate in
  dateRange command values w
  = Ret (startDate, endDate) (ticked (if truthy (start values) then 2 else 1) w).
Proof.
  intros H1 H2. unfold dateRange, new_Date.
  destruct (String.eqb_spec command "today"); [done |].
  destruct (String.eqb_spec command "week"); [done |].
  cbv [mbind proc_bind mret proc_ret Date_now].
  destruct (truthy (start values)); destruct (truthy (end_ values)); reflexivity.
Qed.

Lemma dateRange_week values w :
  let now := clock (ticks w) in
  dateRange "week" values w
  = Ret (ofLocal (localDay now) 0, ofLocal (localDay now + 7) (localTimeOfDay now))
        (ticked 1 w).
Proof.
  unfold dateRange, new_Date.
  cbv [mbind proc_bind mret proc_ret Date_now]. cbv beta iota.
  change (String.eqb "week" "today") with false.
  change (String.eqb "week" "week") with true. cbv iota.
  rewrite setDate_relative by (apply exactDate_relative; unfold maxExactDate; lia).
  reflexivity.
Qed.


Lemma parseDate_today_spec input baseDate :
  toLowerCase input = "today" →
  parseDate input baseDate = (t ← baseDate; ofLocal (localDay t) 0)
  ∧ ∀ t r, baseDate = Some t → parseDate input baseDate = Some r →
      isLocalTime (MakeDate (localDay t) 0) →
      localDay r = localDay t ∧ localTimeOfDay r = 0.
Proof.
  intros Hl. rewrite (parseDate_today_eq _ _ Hl). split.
  - destruct baseDate; [apply setHours_midnight | reflexivity].
  - intros t r -> Hr Hx. rewrite setHours_midnight in Hr.
    apply ofLocal_fields in Hr; [exact Hr | unfold msPerDay; lia | exact Hx].
Qed.





End ParseDate_facts.

Section Range_facts.

Import JSDate JSString Calendar.



Context `{Host}.

(** C8, as amended.  Without [--start] and [--end] the range of [list]
    starts at the current time and ends at the instant that the zone gives
    for the local day 30 days later at the same time of day.  The range of
    [week] starts at the instant of time 0 of the local day of today and
    ends at the instant of the local day seven days after the current time,
    at the current time of day.  These instants read back with the local
    day and time of day they were made of whenever the zone has that local
    time, and they are within the range of time values or an Invalid Date;
    in a zone of constant offset N days later is N times 24 hours later. *)
Theorem list_and_week_ranges (values : Values) (w : World) :
  let now := clock (ticks w) in
  (truthy (start values) = false → truthy (end_ values) = false →
     dateRange "list" values w
     = Ret (Some now, ofLocal (localDay now + 30) (localTimeOfDay now)) (ticked 1 w))
  ∧ dateRange "week" values w
    = Ret (ofLocal (localDay now) 0, ofLocal (localDay now + 7) (localTimeOfDay now))
          (ticked 1 w)
  ∧ (∀ r, ofLocal (localDay now) 0 = Some r → isLocalTime (MakeDate (localDay now) 0) →
       localDay r = localDay now ∧ localTimeOfDay r = 0)
  ∧ (∀ n r, ofLocal (localDay now + n) (localTimeOfDay now) = Some r →
       isLocalTime (MakeDate (localDay now + n) (localTimeOfDay now)) →
       localDay r = localDay now + n ∧ localTimeOfDay r = localTimeOfDay now)
  ∧ (∀ day time, Z.abs (UTC LocalTZA (MakeDate day time)) <= maxTime →
       ofLocal day time = Some (UTC LocalTZA (MakeDate day time)))
  ∧ (constantOffset →
       (∀ x, isLocalTime x)
       ∧ ∀ n, ofLocal (localDay now + n) (localTimeOfDay now) = TimeClip (now + n * msPerDay)).
Proof.
  intros now. repeat apply conj.
  - intros Hs He.
    rewrite (dateRange_default "list" values w) by discriminate.
    rewrite Hs, He. cbv beta iota zeta.
    destruct (parseDate_relative_spec "+30d" (Some (clock (ticks w))) "30" "d"%char eq_refl
                ltac:(discriminate) eq_refl) as (Heq & _).
    rewrite Heq; [reflexivity | reflexivity | vm_compute; discriminate].
  - apply dateRange_week.
  - intros r Hr Hx. apply ofLocal_fields in Hr; [exact Hr | unfold msPerDay; lia | exact Hx].
  - intros n r Hr Hx.
    apply ofLocal_fields in Hr; [exact Hr | apply localTimeOfDay_range | exact Hx].
  - intros day time. apply TimeClip_valid.
  - intros Hc. split; [intros x; by apply constantOffset_isLocalTime |].
    intros n. by apply ofLocal_shifted.
Qed.

End Range_facts.

(** C8, at 2024-02-20T17:00:00Z, noon in a zone whose clocks go forward on
    2024-03-10: [list] ends at noon of 2024-03-21, 2024-03-21T16:00:00Z, and
    [week] runs from the local midnight of 2024-02-20 to noon of
    2024-02-27. *)
Lemma list_and_week_ranges_witness :
  Calendar.dateRange (H := springForwardHost 1708448400000) "list" (sampleValues None None)
    emptyWorld
  = Ret (Some 1708448400000, Some 1711036800000) (ticked 1 emptyWorld)
  ∧ Calendar.dateRange (H := springForwardHost 1708448400000) "week" (sampleValues None None)
      emptyWorld
    = Ret (Some 1708405200000, Some 1709053200000) (ticked 1 emptyWorld).
Proof.
  destruct (list_and_week_ranges (H := springForwardHost 1708448400000)
              (sampleValues None None) emptyWorld)
    as (Hl & Hw & _).
  split; [exact (Hl eq_refl eq_refl) | exact Hw].
Defined.

(** C8 as stated fails for [week]: at noon of 1970-01-01 in the UTC zone the
    range does not end at a midnight.  And it fails for [list] where a clock
    change skips the local time: from 02:30 of 2024-02-09 (07:30Z) the range
    ends at 03:30 of 2024-03-10, at another time of day. *)
Lemma ranges_not_as_stated :
  (¬ ∃ startDate e w',
       Calendar.dateRange (H := utcHost 43200000) "week" (sampleValues None None) emptyWorld
       = Ret (startDate, Some e) w'
       ∧ localTimeOfDay (H := utcHost 43200000) e = 0)
  ∧ ¬ ∃ startDate e w',
        Calendar.dateRange (H := springForwardHost 1707463800000) "list"
          (sampleValues None None) emptyWorld
        = Ret (startDate, Some e) w'
        ∧ localTimeOfDay (H := springForwardHost 1707463800000) e
          = localTimeOfDay (H := springForwardHost 1707463800000) 1707463800000.
Proof.
  split.
  - intros (startDate & e & w' & Hr & Ht).
    vm_compute in Hr. injection Hr as _ <- _.
    vm_compute in Ht. discriminate Ht.
  - intros (startDate & e & w' & Hr & Ht).
    vm_compute in Hr. injection Hr as _ <- _.
    vm_compute in Ht. discriminate Ht.
Qed.

(** ** Runs of [check-auth.ts] *)

Section Run_facts.

Lemma printed_printed ls1 ls2 w : printed ls2 (printed ls1 w) = printed (ls1 ++ ls2) w.
Proof. unfold printed. simpl. by rewrite app_assoc. Qed.

Lemma printed_nil w : printed [] w = w.
Proof. destruct w. unfold printed. simpl. by rewrite app_nil_r. Qed.

Lemma console_log_run l w : console_log l w = Ret () (printed [l] w).
Proof. reflexivity. Qed.

(** [output] writes the report of its result and ends the process, with 0
    for a valid status and 1 otherwise. *)
Lemma output_run json result w :
  CheckAuth.output json result w
  = Exit (if CheckAuth.isValid (CheckAuth.status result) then 0 else 1)
         (printed (report json result) w).
Proof.
  unfold CheckAuth.output, report, CheckAuth.when.
  cbv [mbind proc_bind mret proc_ret process_exit].
  destruct json; [reflexivity |].
  destruct (CheckAuth.isValid (CheckAuth.status result)).
  - rewrite console_log_run.
    destruct (JSString.truthy (CheckAuth.account result));
      destruct (CheckAuth.expiresIn result);
      rewrite ?console_log_run, ?printed_printed; reflexivity.
  - rewrite console_log_run.
    destruct (JSString.truthy (CheckAuth.error result));
      rewrite ?console_log_run, ?printed_printed; reflexivity.
Qed.

End Run_facts.

Section CheckAuth_facts.

Import CheckAuth.

Context `{Host}.
Variable GRAPH_SCOPES : GraphScopes.
Variable acquireTokenByRefreshToken :
  Msal.Configuration → Msal.RefreshTokenRequest → Msal.Settled.

Local Abbreviation main := (CheckAuth.main GRAPH_SCOPES acquireTokenByRefreshToken).
Local Abbreviation refresh := (silentRefresh GRAPH_SCOPES acquireTokenByRefreshToken).

Ltac run_main :=
  unfold CheckAuth.main;
  cbv [mbind proc_bind mret proc_ret getCredential isTokenExpired Date_now setCredential].

Lemma main_no_credential profile json w :
  Credentials.getCredential "microsoft-graph" profile (store w) = None →
  main profile json w = output json (needsAuth "No credentials found") w.
Proof. intros Hc. run_main. by rewrite Hc. Qed.

Lemma main_fresh profile json w credential :
  Credentials.getCredential "microsoft-graph" profile (store w) = Some credential →
  Credentials.expiredAt (clock (ticks w)) credential = false →
  main profile json w
  = output json
      (validFor (secondsLeft (Credentials.expiresAt credential) (clock (S (ticks w))))
                (Credentials.account credential))
      (ticked 2 w).
Proof. intros Hc He. run_main. rewrite Hc. cbv beta iota. rewrite He. reflexivity. Qed.

Lemma main_no_refresh_token profile json w credential :
  Credentials.getCredential "microsoft-graph" profile (store w) = Some credential →
  Credentials.expiredAt (clock (ticks w)) credential = true →
  JSString.truthy (Credentials.refreshToken credential) = false →
  main profile json w = output json (needsAuth "Token expired, no refresh token") (ticked 1 w).
Proof.
  intros Hc He Hr. run_main. rewrite Hc. cbv beta iota. rewrite He. cbv beta iota.
  simpl negb. cbv iota. rewrite Hr. reflexivity.
Qed.

Ltac to_refresh Hc He Hr Hs :=
  run_main; rewrite Hc; cbv beta iota; rewrite He; simpl negb; cbv iota;
  rewrite Hr; simpl negb; cbv iota zeta; unfold silentRefresh in Hs; rewrite Hs.

Lemma main_refresh_rejected profile json w credential error :
  Credentials.getCredential "microsoft-graph" profile (store w) = Some credential →
  Credentials.expiredAt (clock (ticks w)) credential = true →
  JSString.truthy (Credentials.refreshToken credential) = true →
  refresh credential = Msal.Rejected error →
  main profile json w
  = output json (needsAuth ("Refresh failed: " +:+ errorMessage error)) (ticked 1 w).
Proof. intros Hc He Hr Hs. to_refresh Hc He Hr Hs. reflexivity. Qed.

Lemma main_refresh_null profile json w credential :
  Credentials.getCredential "microsoft-graph" profile (store w) = Some credential →
  Credentials.expiredAt (clock (ticks w)) credential = true →
  JSString.truthy (Credentials.refreshToken credential) = true →
  refresh credential = Msal.Resolved None →
  main profile json w = output json (needsAuth "Refresh returned no result") (ticked 1 w).
Proof. intros Hc He Hr Hs. to_refresh Hc He Hr Hs. reflexivity. Qed.

(** The run of a successful silent refresh. *)
Lemma main_refreshed profile json w credential result :
  Credentials.getCredential "microsoft-graph" profile (store w) = Some credential →
  Credentials.expiredAt (clock (ticks w)) credential = true →
  JSString.truthy (Credentials.refreshToken credential) = true →
  refresh credential = Msal.Resolved (Some result) →
  let reads := match Msal.expiresOn result with Some _ => 2%nat | None => 3%nat end in
  let last := match Msal.expiresOn result with Some _ => 1%nat | None => 2%nat end in
  let newCredential :=
    {| Credentials.accessToken := Msal.accessToken result;
       Credentials.refreshToken :=
         match Msal.refreshToken result with
         | Some r => Some r
         | None => Credentials.refreshToken credential
         end;
       Credentials.expiresAt :=
         match Msal.expiresOn result with
         | Some expiresOn => expiresOn
         | None => clock (S (ticks w)) + 3600000
         end;
       Credentials.account :=
         match Msal.account result with
         | Some a => Msal.username a
         | None => Credentials.account credential
         end;
       Credentials.scopes := scopesOr (Msal.scopes result) (Credentials.scopes credential);
       Credentials.clientId := Credentials.clientId credential;
       Credentials.tenantId := Credentials.tenantId credential |} in
  main profile json w
  = output json
      (validFor (secondsLeft (Credentials.expiresAt newCredential) (clock (last + ticks w)))
                (Credentials.account newCredential))
      (withStore (Credentials.setCredential "microsoft-graph" profile newCredential (store w))
                 (ticked reads w)).
Proof.
  intros Hc He Hr Hs. to_refresh Hc He Hr Hs.
  cbv beta iota. destruct (Msal.expiresOn result); reflexivity.
Qed.


Lemma setCredential_lookup service profile c (st : Credentials.Store) :
  Credentials.getCredential service profile (Credentials.setCredential service profile c st)
  = Some c.
Proof.
  unfold Credentials.getCredential, Credentials.setCredential.
  rewrite lookup_insert_eq. simpl. by rewrite lookup_insert_eq.
Qed.

Lemma setCredential_other service profile service' profile' c (st : Credentials.Store) :
  (service', profile') ≠ (service, profile) →
  Credentials.getCredential service' profile' (Credentials.setCredential service profile c st)
  = Credentials.getCredential service' profile' st.
Proof.
  unfold Credentials.getCredential, Credentials.setCredential. intros Hne.
  destruct (decide (service' = service)) as [-> | Hs].
  - rewrite lookup_insert_eq. simpl.
    rewrite lookup_insert_ne by congruence.
    destruct (st !! service); simpl; [done | apply lookup_empty].
  - by rewrite lookup_insert_ne.
Qed.

(** C3.  A stored credential that is not expired is reported as valid, with
    the whole seconds left until its expiry at the time of the report, at
    least 0, and with the stored account; the process exits with 0. *)
Theorem fresh_credential_reported_valid profile json w credential :
  Credentials.getCredential "microsoft-graph" profile (store w) = Some credential →
  Credentials.expiredAt (clock (ticks w)) credential = false →
  let now := clock (S (ticks w)) in
  let expiresIn := Z.max 0 ((Credentials.expiresAt credential - now) / 1000) in
  main profile json w
  = Exit 0 (printed (report json (validFor expiresIn (Credentials.account credential)))
                    (ticked 2 w))
  ∧ report true (validFor expiresIn (Credentials.account credential))
    = [StringifiedJSON
         (JObj [("status", JStr "valid"); ("expiresIn", JNum expiresIn);
                ("account", JStr (Credentials.account credential))])].
Proof.
  intros Hc He now expiresIn. split; [| reflexivity].
  rewrite (main_fresh _ _ _ _ Hc He), output_run. reflexivity.
Qed.


(** C1.  For a stored credential that is expired and has a refresh token, a
    silent refresh that the provider resolves with a result stores, under
    the same service and profile, a credential with the access token of the
    result, the expiry of the result, and the refresh token of the result or,
    when the result has none, the old one; the run reports the status
    [valid] and exits with 0.  The report is, with [--json], the one line
    of the object with the members [status], which is [valid], [expiresIn]
    and [account] and, without it, the lines [Auth status: Valid],
    [Account: ...] for an account that is not empty, and
    [Expires in: ... minutes]; the seconds reported are those from the time
    read last to the new expiry, at least 0. *)
Theorem silent_refresh_success profile json w credential result :
  Credentials.getCredential "microsoft-graph" profile (store w) = Some credential →
  Credentials.expiredAt (clock (ticks w)) credential = true →
  JSString.truthy (Credentials.refreshToken credential) = true →
  refresh credential = Msal.Resolved (Some result) →
  ∃ newCredential w' expiresIn,
    main profile json w = Exit 0 w'
    ∧ store w' = Credentials.setCredential "microsoft-graph" profile newCredential (store w)
    ∧ Credentials.getCredential "microsoft-graph" profile (store w') = Some newCredential
    ∧ (∀ service' profile', (service', profile') ≠ ("microsoft-graph", profile) →
         Credentials.getCredential service' profile' (store w')
         = Credentials.getCredential service' profile' (store w))
    ∧ Credentials.accessToken newCredential = Msal.accessToken result
    ∧ (∀ expiresOn, Msal.expiresOn result = Some expiresOn →
         Credentials.expiresAt newCredential = expiresOn)
    ∧ (∀ r, Msal.refreshToken result = Some r →
         Credentials.refreshToken newCredential = Some r)
    ∧ (Msal.refreshToken result = None →
         Credentials.refreshToken newCredential = Credentials.refreshToken credential)
    ∧ stdout w'
      = stdout w
        ++ (if json then
              [StringifiedJSON
                 (JObj [("status", JStr "valid"); ("expiresIn", JNum expiresIn);
                        ("account", JStr (Credentials.account newCredential))])]
            else
              [Text "Auth status: Valid"]
              ++ (if String.eqb (Credentials.account newCredential) "" then []
                  else [Text ("Account: " +:+ Credentials.account newCredential)])
              ++ [Text ("Expires in: " +:+ pretty ((expiresIn + 30) / 60) +:+ " minutes")])
    ∧ expiresIn
      = Z.max 0 ((Credentials.expiresAt newCredential - clock (Nat.pred (ticks w'))) / 1000)
    ∧ 0 <= expiresIn.
Proof.
  intros Hc He Hr Hs.
  pose proof (main_refreshed profile json w credential result Hc He Hr Hs) as Hrun.
  cbv zeta in Hrun. rewrite output_run in Hrun.
  eexists _, _, _. split; [exact Hrun |].
  split; [reflexivity |]. split; [apply setCredential_lookup |].
  split; [intros service' profile'; apply setCredential_other |].
  split; [reflexivity |]. split; [by intros e -> |].
  split; [by intros r -> |]. split; [by intros -> |].
  split; [| split].
  - cbn [stdout printed withStore ticked]. f_equal. destruct json; [reflexivity |].
    unfold report, validFor. cbn [CheckAuth.status CheckAuth.account CheckAuth.expiresIn isValid].
    unfold JSString.truthy, roundMinutes.
    by destruct (String.eqb _ "").
  - cbn [ticks printed withStore ticked]. unfold secondsLeft.
    by destruct (Msal.expiresOn result).
  - unfold secondsLeft. lia.
Qed.

(** C9.  A successful silent refresh stores a credential with the client id
    and the tenant id of the old one, present or absent. *)
Theorem silent_refresh_keeps_client_and_tenant profile json w credential result :
  Credentials.getCredential "microsoft-graph" profile (store w) = Some credential →
  Credentials.expiredAt (clock (ticks w)) credential = true →
  JSString.truthy (Credentials.refreshToken credential) = true →
  refresh credential = Msal.Resolved (Some result) →
  ∃ newCredential w',
    main profile json w = Exit 0 w'
    ∧ Credentials.getCredential "microsoft-graph" profile (store w') = Some newCredential
    ∧ Credentials.clientId newCredential = Credentials.clientId credential
    ∧ Credentials.tenantId newCredential = Credentials.tenantId credential.
Proof.
  intros Hc He Hr Hs.
  pose proof (main_refreshed profile json w credential result Hc He Hr Hs) as Hrun.
  cbv zeta in Hrun. rewrite output_run in Hrun.
  eexists _, _. split; [exact Hrun |].
  split; [apply setCredential_lookup |]. split; reflexivity.
Qed.

(** C10.  On a successful silent refresh, a result without an expiry gives
    the stored credential the expiry of one hour (3,600,000 ms) after the
    time read then; a result whose scope list is empty or missing leaves the
    old scopes; a result without an account leaves the old account. *)
Theorem silent_refresh_defaults profile json w credential result :
  Credentials.getCredential "microsoft-graph" profile (store w) = Some credential →
  Credentials.expiredAt (clock (ticks w)) credential = true →
  JSString.truthy (Credentials.refreshToken credential) = true →
  refresh credential = Msal.Resolved (Some result) →
  ∃ newCredential w',
    main profile json w = Exit 0 w'
    ∧ Credentials.getCredential "microsoft-graph" profile (store w') = Some newCredential
    ∧ (Msal.expiresOn result = None →
         Credentials.expiresAt newCredential = clock (S (ticks w)) + 3600000)
    ∧ (Msal.scopes result = Some [] ∨ Msal.scopes result = None →
         Credentials.scopes newCredential = Credentials.scopes credential)
    ∧ (∀ s rest, Msal.scopes result = Some (s :: rest) →
         Credentials.scopes newCredential = s :: rest)
    ∧ (Msal.account result = None →
         Credentials.account newCredential = Credentials.account credential)
    ∧ (∀ a, Msal.account result = Some a →
         Credentials.account newCredential = Msal.username a).
Proof.
  intros Hc He Hr Hs.
  pose proof (main_refreshed profile json w credential result Hc He Hr Hs) as Hrun.
  cbv zeta in Hrun. rewrite output_run in Hrun.
  eexists _, _. split; [exact Hrun |].
  split; [apply setCredential_lookup |]. simpl.
  split; [by intros -> |]. split; [by intros [-> | ->] |].
  split; [by intros s rest -> |]. split; [by intros -> | by intros a ->].
Qed.

(** The lines of a report of [needs-auth] with a reason that is not
    empty. *)
Lemma needs_auth_report json reason :
  reason ≠ "" →
  report json (needsAuth reason)
  = if json then
      [StringifiedJSON (JObj [("status", JStr "needs-auth"); ("error", JStr reason)])]
    else [Text "Auth status: Authentication required"; Text ("Reason: " +:+ reason)].
Proof.
  intros Hne. destruct json; [reflexivity |].
  unfold report, needsAuth. cbn [CheckAuth.status CheckAuth.error isValid].
  unfold JSString.truthy. by destruct (String.eqb_spec reason "").
Qed.

(** C2.  An invocation with [--help] writes the usage and exits with 0.
    Every other invocation ends by reporting one result.  The result is
    [needs-auth], and the exit code 1, exactly when no credential is stored
    for the profile, or the stored one is expired and has no refresh token,
    or the silent refresh is rejected or resolves with no result.  The
    report then carries the reason, a text that is not empty: with [--json]
    the one line of the object with the members [status], which is
    [needs-auth], and [error], which is the reason; without it the lines
    [Auth status: Authentication required] and [Reason: ...].  The
    reason is [No credentials found], [Token expired, no refresh token],
    [Refresh failed: ] with the message of what was thrown, or
    [Refresh returned no result], by the case. *)
Theorem needs_auth_exactly_when help usage profile json w :
  let script :=
    CheckAuth.script GRAPH_SCOPES acquireTokenByRefreshToken help usage profile json in
  (help = true → script w = Exit 0 (printed [Text usage] w))
  ∧ (help = false →
     ∃ result w0,
       script w = output json result w0
       ∧ (status result = needs_auth ↔
            noCredential profile w ∨ expiredWithoutRefreshToken profile w
            ∨ refreshFails GRAPH_SCOPES acquireTokenByRefreshToken profile w)
       ∧ (exitCode (script w) = 1 ↔
            noCredential profile w ∨ expiredWithoutRefreshToken profile w
            ∨ refreshFails GRAPH_SCOPES acquireTokenByRefreshToken profile w)
       ∧ (status result = needs_auth →
            ∃ reason,
              error result = Some reason ∧ reason ≠ ""
              ∧ stdout (finalWorld (script w))
                = stdout w
                  ++ (if json then
                        [StringifiedJSON
                           (JObj [("status", JStr "needs-auth"); ("error", JStr reason)])]
                      else [Text "Auth status: Authentication required";
                            Text ("Reason: " +:+ reason)])
              ∧ (noCredential profile w → reason = "No credentials found")
              ∧ (expiredWithoutRefreshToken profile w →
                   reason = "Token expired, no refresh token")
              ∧ (∀ credential error,
                   Credentials.getCredential "microsoft-graph" profile (store w)
                   = Some credential →
                   refresh credential = Msal.Rejected error →
                   JSString.truthy (Credentials.refreshToken credential) = true →
                   reason = "Refresh failed: " +:+ errorMessage error)
              ∧ (∀ credential,
                   Credentials.getCredential "microsoft-graph" profile (store w)
                   = Some credential →
                   refresh credential = Msal.Resolved None →
                   JSString.truthy (Credentials.refreshToken credential) = true →
                   reason = "Refresh returned no result"))
       ∧ (status result = valid → exitCode (script w) = 0)).
Proof.
  intros script. subst script. split; [by intros -> |]. intros ->.
  change (CheckAuth.script GRAPH_SCOPES acquireTokenByRefreshToken false usage profile json)
    with (main profile json).
  unfold noCredential, expiredWithoutRefreshToken, refreshFails.
  destruct (Credentials.getCredential "microsoft-graph" profile (store w))
    as [credential |] eqn:Hc.
  2: { eexists _, _. split; [exact (main_no_credential _ _ _ Hc) |].
       rewrite (main_no_credential _ _ _ Hc), output_run.
       split; [split; [intros _; by left | reflexivity] |].
       split; [split; [intros _; by left | reflexivity] |]. split; [| done].
       intros _. eexists. split; [reflexivity |]. split; [done |].
       split; [cbn [finalWorld stdout printed]; by rewrite needs_auth_report |].
       split; [done |]. split; [by intros (c & ? & _) |]. split; by intros c. }
  destruct (Credentials.expiredAt (clock (ticks w)) credential) eqn:He.
  2: { eexists _, _. split; [exact (main_fresh _ _ _ _ Hc He) |].
       rewrite (main_fresh _ _ _ _ Hc He), output_run.
       split; [| split; [| split; [done | done]]].
       all: split; [done |]; intros [? | [(c & [= <-] & ? & _) | (c & [= <-] & ? & _)]];
         congruence. }
  destruct (JSString.truthy (Credentials.refreshToken credential)) eqn:Hr.
  2: { eexists _, _. split; [exact (main_no_refresh_token _ _ _ _ Hc He Hr) |].
       rewrite (main_no_refresh_token _ _ _ _ Hc He Hr), output_run.
       split; [| split; [| split; [| done]]].
       - split; [| done]. intros _. right. left. by exists credential.
       - split; [| done]. intros _. right. left. by exists credential.
       - intros _. eexists. split; [reflexivity |]. split; [done |].
         split; [cbn [finalWorld stdout printed ticked]; by rewrite needs_auth_report |].
         split; [done |]. split; [done |].
         split; [intros c e [= <-] _ Ht | intros c [= <-] _ Ht]; congruence. }
  destruct (refresh credential) as [error | [result |]] eqn:Hs.
  - eexists _, _. split; [exact (main_refresh_rejected _ _ _ _ _ Hc He Hr Hs) |].
    rewrite (main_refresh_rejected _ _ _ _ _ Hc He Hr Hs), output_run.
    split; [| split; [| split; [| done]]].
    + split; [| done]. intros _. right. right. exists credential. eauto 10.
    + split; [| done]. intros _. right. right. exists credential. eauto 10.
    + intros _. eexists. split; [reflexivity |]. split; [done |].
      split; [cbn [finalWorld stdout printed ticked]; by rewrite needs_auth_report |].
      split; [done |]. split; [intros (c & [= <-] & _ & Ht); congruence |].
      split; [intros c e [= <-] Hs' _ | intros c [= <-] Hs' _]; congruence.
  - pose proof (main_refreshed profile json w credential result Hc He Hr Hs) as Hrun.
    cbv zeta in Hrun. eexists _, _. split; [exact Hrun |].
    rewrite Hrun, output_run.
    split; [| split; [| split; [done | done]]].
    all: split; [done |];
      intros [? | [(c & [= <-] & ? & ?) | (c & [= <-] & ? & ? & [[e ?] | ?])]]; congruence.
  - eexists _, _. split; [exact (main_refresh_null _ _ _ _ Hc He Hr Hs) |].
    rewrite (main_refresh_null _ _ _ _ Hc He Hr Hs), output_run.
    split; [| split; [| split; [| done]]].
    + split; [| done]. intros _. right. right. exists credential. eauto 10.
    + split; [| done]. intros _. right. right. exists credential. eauto 10.
    + intros _. eexists. split; [reflexivity |]. split; [done |].
      split; [cbn [finalWorld stdout printed ticked]; by rewrite needs_auth_report |].
      split; [done |]. split; [intros (c & [= <-] & _ & Ht); congruence |].
      split; [intros c e [= <-] Hs' _ | intros c [= <-] Hs' _]; congruence.
Qed.

End CheckAuth_facts.

(** *** The check-auth properties at sample runs

    The clock reads 1000 ms at first; the stored credential of the profile
    [default] expires at 5,000,000 ms (still fresh) or at 500 ms (expired). *)

(** C3, at a credential with 4998.999 seconds left at the report. *)
Lemma fresh_credential_reported_valid_witness :
  CheckAuth.main (H := utcHost 1000) sampleScopes (sampleProvider (Msal.Resolved None))
    "default" true (sampleWorld (sampleCredential 5000000 None))
  = Exit 0
      (printed
         [StringifiedJSON
            (JObj [("status", JStr "valid"); ("expiresIn", JNum 4998);
                   ("account", JStr "user@example.com")])]
         (ticked 2 (sampleWorld (sampleCredential 5000000 None)))).
Proof.
  destruct (fresh_credential_reported_valid (H := utcHost 1000) sampleScopes
              (sampleProvider (Msal.Resolved None)) "default" true
              (sampleWorld (sampleCredential 5000000 None)) (sampleCredential 5000000 None)
              (setCredential_lookup _ _ _ _) eq_refl) as [Hrun _].
  exact Hrun.
Defined.

(** C1, at an expired credential with a refresh token and a result that
    expires at 7,200,000 ms and carries no refresh token; the clock reads
    1001 ms at the report. *)
Lemma silent_refresh_success_witness :
  ∃ newCredential w',
    CheckAuth.main (H := utcHost 1000) sampleScopes
      (sampleProvider (Msal.Resolved (Some (sampleResult (Some 7200000)))))
      "default" true (sampleWorld (sampleCredential 500 (Some "old-refresh")))
    = Exit 0 w'
    ∧ Credentials.getCredential "microsoft-graph" "default" (store w') = Some newCredential
    ∧ Credentials.accessToken newCredential = "new-access"
    ∧ Credentials.expiresAt newCredential = 7200000
    ∧ Credentials.refreshToken newCredential = Some "old-refresh"
    ∧ stdout w'
      = [StringifiedJSON
           (JObj [("status", JStr "valid"); ("expiresIn", JNum 7198);
                  ("account", JStr "user@example.com")])].
Proof.
  destruct (silent_refresh_success (H := utcHost 1000) sampleScopes
              (sampleProvider (Msal.Resolved (Some (sampleResult (Some 7200000)))))
              "default" true (sampleWorld (sampleCredential 500 (Some "old-refresh")))
              (sampleCredential 500 (Some "old-refresh")) (sampleResult (Some 7200000))
              (setCredential_lookup _ _ _ _) eq_refl eq_refl eq_refl)
    as (newCredential & w' & expiresIn & Hrun & _ & Hget & _ & Ha & He & _ & Hr & _).
  exists newCredential, w'.
  split; [exact Hrun |]. split; [exact Hget |]. split; [exact Ha |].
  split; [exact (He 7200000 eq_refl) |]. split; [exact (Hr eq_refl) |].
  assert (w' = finalWorld (Exit (A := unit) 0 w')) as -> by reflexivity.
  rewrite <- Hrun. vm_compute. reflexivity.
Defined.

(** C9, at the same run: no client id, the tenant [contoso]. *)
Lemma silent_refresh_keeps_client_and_tenant_witness :
  ∃ newCredential w',
    CheckAuth.main (H := utcHost 1000) sampleScopes
      (sampleProvider (Msal.Resolved (Some (sampleResult (Some 7200000)))))
      "default" true (sampleWorld (sampleCredential 500 (Some "old-refresh")))
    = Exit 0 w'
    ∧ Credentials.getCredential "microsoft-graph" "default" (store w') = Some newCredential
    ∧ Credentials.clientId newCredential = None
    ∧ Credentials.tenantId newCredential = Some "contoso".
Proof.
  exact (silent_refresh_keeps_client_and_tenant (H := utcHost 1000) sampleScopes
           (sampleProvider (Msal.Resolved (Some (sampleResult (Some 7200000)))))
           "default" true (sampleWorld (sampleCredential 500 (Some "old-refresh")))
           (sampleCredential 500 (Some "old-refresh")) (sampleResult (Some 7200000))
           (setCredential_lookup _ _ _ _) eq_refl eq_refl eq_refl).
Defined.

(** C10, at a result without an expiry: the clock reads 1001 ms when the
    default is taken. *)
Lemma silent_refresh_defaults_witness :
  ∃ newCredential w',
    CheckAuth.main (H := utcHost 1000) sampleScopes
      (sampleProvider (Msal.Resolved (Some (sampleResult None))))
      "default" true (sampleWorld (sampleCredential 500 (Some "old-refresh")))
    = Exit 0 w'
    ∧ Credentials.getCredential "microsoft-graph" "default" (store w') = Some newCredential
    ∧ Credentials.expiresAt newCredential = 3601001
    ∧ Credentials.scopes newCredential = ["Mail.Read"]
    ∧ Credentials.account newCredential = "user@example.com".
Proof.
  destruct (silent_refresh_defaults (H := utcHost 1000) sampleScopes
              (sampleProvider (Msal.Resolved (Some (sampleResult None))))
              "default" true (sampleWorld (sampleCredential 500 (Some "old-refresh")))
              (sampleCredential 500 (Some "old-refresh")) (sampleResult None)
              (setCredential_lookup _ _ _ _) eq_refl eq_refl eq_refl)
    as (newCredential & w' & Hrun & Hget & He & Hs & _ & Ha & _).
  exists newCredential, w'.
  split; [exact Hrun |]. split; [exact Hget |]. split; [exact (He eq_refl) |].
  split; [exact (Hs (or_introl eq_refl)) | exact (Ha eq_refl)].
Defined.

(** C2, at a profile without a credential. *)
Lemma needs_auth_exactly_when_witness :
  CheckAuth.script (H := utcHost 1000) sampleScopes (sampleProvider (Msal.Resolved None))
    false "usage" "default" true emptyWorld
  = Exit 1
      (printed [StringifiedJSON
                  (JObj [("status", JStr "needs-auth");
                         ("error", JStr "No credentials found")])]
         emptyWorld).
Proof.
  destruct (needs_auth_exactly_when (H := utcHost 1000) sampleScopes
              (sampleProvider (Msal.Resolved None)) false "usage" "default" true emptyWorld)
    as (_ & Hrun).
  destruct (Hrun eq_refl) as (result & w0 & Heq & _).
  etransitivity; [exact Heq |].
  pose proof Heq as Hsame. vm_compute in Hsame. symmetry. exact Hsame.
Defined.

(** ** Runs of [auth.ts] *)

Section Auth_facts.

Import Auth.

Context `{Host}.
Variable authenticate : Values → Proc unit.

Local Abbreviation main := (Auth.main authenticate).

Lemma ticked_printed n ls w : ticked n (printed ls w) = printed ls (ticked n w).
Proof. reflexivity. Qed.

Lemma printProfile_run profile w :
  printProfile profile w
  = match Credentials.getCredential "microsoft-graph" profile (store w) with
    | Some cred => Ret () (printed (profileBlock profile cred (clock (ticks w))) (ticked 1 w))
    | None => Ret () w
    end.
Proof.
  unfold printProfile, profileBlock, when.
  cbv [mbind proc_bind mret proc_ret getCredential Date_now].
  destruct (Credentials.getCredential "microsoft-graph" profile (store w)) as [cred |];
    [| reflexivity].
  rewrite !console_log_run.
  destruct (JSString.truthy (Credentials.clientId cred));
    destruct (JSString.truthy (Credentials.tenantId cred));
    rewrite ?console_log_run, ?printed_printed; reflexivity.
Qed.

(** The store, and so the profiles that the loop still has to visit, do not
    change while the profiles are printed. *)
Lemma forEach_printProfile_run profiles w :
  ∃ ls n,
    forEach profiles printProfile w = Ret () (printed ls (ticked n w))
    ∧ ∀ l, l ∈ ls →
        ∃ profile cred now,
          profile ∈ profiles
          ∧ Credentials.getCredential "microsoft-graph" profile (store w) = Some cred
          ∧ l ∈ profileBlock profile cred now.
Proof.
  revert w. induction profiles as [| p rest IH]; intros w.
  - exists [], 0%nat. split; [| by intros l ?%elem_of_nil].
    simpl. rewrite printed_nil. by destruct w.
  - simpl. cbv [mbind proc_bind]. rewrite printProfile_run.
    destruct (Credentials.getCredential "microsoft-graph" p (store w)) as [cred |] eqn:Hc.
    + destruct (IH (printed (profileBlock p cred (clock (ticks w))) (ticked 1 w)))
        as (ls & n & -> & Hls).
      exists (profileBlock p cred (clock (ticks w)) ++ ls), (n + 1)%nat.
      split.
      { rewrite ticked_printed, printed_printed. unfold ticked, printed. simpl.
        do 2 f_equal. lia. }
      intros l [Hl | Hl]%elem_of_app.
      * exists p, cred, (clock (ticks w)). split; [left |]. done.
      * destruct (Hls l Hl) as (q & c & now & Hq & Hg & Hin).
        exists q, c, now. split; [by right |]. done.
    + destruct (IH w) as (ls & n & -> & Hls).
      exists ls, n. split; [done |].
      intros l Hl. destruct (Hls l Hl) as (q & c & now & Hq & Hg & Hin).
      exists q, c, now. split; [by right |]. done.
Qed.

Lemma append_char_inj (a b : string) (c : ascii) :
  a +:+ String c EmptyString = b +:+ String c EmptyString → a = b.
Proof.
  revert b. induction a as [| x a IH]; intros [| y b] Hab; simpl in *; try done.
  - destruct b; done.
  - destruct a; done.
  - injection Hab as -> Hab. f_equal. by apply IH.
Qed.

(** A line of the block of another profile is not the heading of [X],
    unless [X] starts with a space. *)
Lemma profileBlock_not_heading X profile cred now l :
  profile ≠ X → startsWithSpace X = false →
  l ∈ profileBlock profile cred now → l ≠ Text ("  " +:+ X +:+ ":").
Proof.
  intros Hne HX Hl ->. unfold profileBlock in Hl.
  assert (∀ s, Text ("  " +:+ X +:+ ":") ≠ Text ("    " +:+ s)) as Hindent.
  { intros s [= Heq]. destruct X as [| c X]; [done |].
    simpl in HX. injection Heq as -> _. done. }
  repeat (apply elem_of_app in Hl as [Hl | Hl] || apply elem_of_cons in Hl as [Hl | Hl]).
  - injection Hl as Heq. apply Hne. symmetry. by apply (append_char_inj _ _ ":").
  - by apply (Hindent _) in Hl.
  - by apply (Hindent _) in Hl.
  - by apply elem_of_nil in Hl.
  - destruct (JSString.truthy (Credentials.clientId cred)).
    + apply elem_of_cons in Hl as [Hl | Hl]; [by apply (Hindent _) in Hl | by apply elem_of_nil in Hl].
    + by apply elem_of_nil in Hl.
  - destruct (JSString.truthy (Credentials.tenantId cred)).
    + apply elem_of_cons in Hl as [Hl | Hl]; [by apply (Hindent _) in Hl | by apply elem_of_nil in Hl].
    + by apply elem_of_nil in Hl.
  - by apply (Hindent _) in Hl.
  - done.
  - by apply elem_of_nil in Hl.
Qed.


Lemma deleteCredential_missing X (st : Credentials.Store) :
  Credentials.getCredential "microsoft-graph" X st = None →
  Credentials.deleteCredential "microsoft-graph" X st = (false, st).
Proof.
  unfold Credentials.getCredential, Credentials.deleteCredential.
  destruct (st !! "microsoft-graph") as [ps |]; simpl; [| done].
  by intros ->.
Qed.

Lemma deleteCredential_found X c (st : Credentials.Store) :
  Credentials.getCredential "microsoft-graph" X st = Some c →
  ∃ st',
    Credentials.deleteCredential "microsoft-graph" X st = (true, st')
    ∧ Credentials.getCredential "microsoft-graph" X st' = None
    ∧ (X ∉ Credentials.listProfiles "microsoft-graph" st')
    ∧ ∀ p, p ≠ X →
        Credentials.getCredential "microsoft-graph" p st'
        = Credentials.getCredential "microsoft-graph" p st.
Proof.
  unfold Credentials.getCredential, Credentials.deleteCredential, Credentials.listProfiles.
  destruct (st !! "microsoft-graph") as [ps |] eqn:Hs; simpl; [| done].
  intros ->. eexists. split; [reflexivity |].
  rewrite lookup_insert_eq. simpl. split; [apply lookup_delete_eq |]. split.
  - intros Hin. apply list_elem_of_fmap in Hin as ([p c'] & Hp & Hin).
    apply elem_of_map_to_list in Hin. simpl in Hp. subst p.
    by rewrite lookup_delete_eq in Hin.
  - intros p Hp. by apply lookup_delete_ne.
Qed.

Lemma main_list_run profile w :
  ∃ ls n,
    main (listValues profile) w = Ret () (printed ls (ticked n w))
    ∧ ∀ l, l ∈ ls →
        l = Text "No credential profiles found."
        ∨ l = Text "Run 'bun run auth.ts' to create one."
        ∨ l = Text ("Microsoft Graph credential profiles:" +:+ JSString.nl)
        ∨ ∃ shown cred now,
            shown ∈ (Credentials.listProfiles "microsoft-graph" (store w))
            ∧ Credentials.getCredential "microsoft-graph" shown (store w) = Some cred
            ∧ l ∈ profileBlock shown cred now.
Proof.
  unfold Auth.main, listValues. simpl.
  cbv [mbind proc_bind mret proc_ret listProfiles].
  destruct (length (Credentials.listProfiles "microsoft-graph" (store w)) =? 0)%nat.
  - rewrite !console_log_run, printed_printed.
    exists [Text "No credential profiles found."; Text "Run 'bun run auth.ts' to create one."], 0%nat.
    split; [by destruct w |].
    intros l [-> | [-> | []%elem_of_nil]%elem_of_cons]%elem_of_cons; auto.
  - rewrite console_log_run.
    destruct (forEach_printProfile_run
                (Credentials.listProfiles "microsoft-graph" (store w))
                (printed [Text ("Microsoft Graph credential profiles:" +:+ JSString.nl)] w))
      as (ls & n & -> & Hls).
    exists (Text ("Microsoft Graph credential profiles:" +:+ JSString.nl) :: ls), n.
    split; [by rewrite ticked_printed, printed_printed |].
    intros l [-> | Hl]%elem_of_cons; [auto |].
    do 3 right. exact (Hls l Hl).
Qed.

(** C7.  [auth --delete --profile X]: when no credential is stored for [X]
    the run writes the line [Profile not found: X], leaves the store as it
    is and ends normally; when one is stored the run writes the line
    [Deleted credential profile: X] and removes it, the other profiles
    staying as they are, so that [X] is not among the listed profiles and a
    following [auth --list] writes lines of the other profiles only; the
    heading of [X] is not among them (for a name that does not start with a
    space, which a line of another profile could otherwise spell). *)
Theorem delete_profile_then_list (X other : string) (w : World) :
  (Credentials.getCredential "microsoft-graph" X (store w) = None →
     main (deleteValues X) w = Ret () (printed [Text ("Profile not found: " +:+ X)] w))
  ∧ (is_Some (Credentials.getCredential "microsoft-graph" X (store w)) →
     ∃ w',
       main (deleteValues X) w = Ret () w'
       ∧ stdout w' = stdout w ++ [Text ("Deleted credential profile: " +:+ X)]
       ∧ Credentials.getCredential "microsoft-graph" X (store w') = None
       ∧ (X ∉ Credentials.listProfiles "microsoft-graph" (store w'))
       ∧ (∀ p, p ≠ X →
            Credentials.getCredential "microsoft-graph" p (store w')
            = Credentials.getCredential "microsoft-graph" p (store w))
       ∧ ∃ ls w'',
           main (listValues other) w' = Ret () w''
           ∧ stdout w'' = stdout w' ++ ls
           ∧ (∀ l, l ∈ ls →
                l = Text "No credential profiles found."
                ∨ l = Text "Run 'bun run auth.ts' to create one."
                ∨ l = Text ("Microsoft Graph credential profiles:" +:+ JSString.nl)
                ∨ ∃ shown cred now,
                    shown ≠ X
                    ∧ Credentials.getCredential "microsoft-graph" shown (store w) = Some cred
                    ∧ l ∈ profileBlock shown cred now)
           ∧ (startsWithSpace X = false → Text ("  " +:+ X +:+ ":") ∉ ls)).
Proof.
  split.
  - intros Hc. unfold Auth.main, deleteValues. simpl.
    cbv [mbind proc_bind deleteCredential].
    rewrite (deleteCredential_missing _ _ Hc). rewrite console_log_run. by destruct w.
  - intros [c Hc].
    destruct (deleteCredential_found X c (store w) Hc) as (st' & Hdel & Hgone & Hnot & Hframe).
    eexists. split.
    { unfold Auth.main, deleteValues. simpl. cbv [mbind proc_bind deleteCredential].
      rewrite Hdel. rewrite console_log_run. reflexivity. }
    simpl. split; [done |]. split; [done |]. split; [done |]. split; [done |].
    match goal with |- context [main _ ?w1] => destruct (main_list_run other w1) as (ls & n & Hrun & Hls) end.
    eexists ls, _. split; [exact Hrun |]. split; [done |].
    assert (∀ l, l ∈ ls →
              l = Text "No credential profiles found."
              ∨ l = Text "Run 'bun run auth.ts' to create one."
              ∨ l = Text ("Microsoft Graph credential profiles:" +:+ JSString.nl)
              ∨ ∃ shown cred now,
                  shown ≠ X
                  ∧ Credentials.getCredential "microsoft-graph" shown (store w) = Some cred
                  ∧ l ∈ profileBlock shown cred now) as Hlines.
    { intros l Hl. destruct (Hls l Hl) as [? | [? | [? | (p & cred & now & Hp & Hg & Hin)]]]; auto.
      do 3 right. simpl in Hp, Hg.
      assert (p ≠ X) as Hne by (intros ->; contradiction).
      exists p, cred, now. rewrite <- (Hframe p Hne). done. }
    split; [exact Hlines |].
    intros HX Hin.
    destruct (Hlines _ Hin) as [Heq | [Heq | [Heq | (p & cred & now & Hne & _ & Hl)]]];
      try discriminate Heq.
    by apply (profileBlock_not_heading X p cred now _ Hne HX Hl).
Qed.

(** The status that [auth --list] shows is [EXPIRED] exactly when the
    expiry is strictly before the time read. *)
Lemma listed_status (now : Z) (cred : Credentials.Credential) (profile : string) (w : World) :
  (listedAsExpired now cred = true ↔ Credentials.expiresAt cred < now)
  ∧ (listedAsExpired now cred = false ↔ now <= Credentials.expiresAt cred)
  ∧ (Credentials.getCredential "microsoft-graph" profile (store w) = Some cred →
       printProfile profile w
       = Ret () (printed (profileBlock profile cred (clock (ticks w))) (ticked 1 w))
       ∧ Text ("    Status: "
               +:+ (if Credentials.expiresAt cred <? clock (ticks w) then "EXPIRED" else "Valid"))
         ∈ profileBlock profile cred (clock (ticks w))).
Proof.
  unfold listedAsExpired.
  split; [apply Z.ltb_lt |]. split; [apply Z.ltb_ge |].
  intros Hc. rewrite printProfile_run, Hc. split; [reflexivity |].
  unfold profileBlock, listedAsExpired.
  rewrite !elem_of_app. do 3 right. by left.
Qed.

End Auth_facts.

(** C4.  The run of [auth --list] with a stored credential whose expiry is
    the very time the clock reads (1000 ms): the comparison of the listing
    is strict, the credential is not classified as expired, and the status
    line of its block is [Status: Valid].  Read one millisecond later the
    same credential is listed as [EXPIRED]. *)
Theorem listed_as_valid_at_expiry :
  Auth.listedAsExpired 1000 (sampleCredential 1000 None) = false
  ∧ Auth.main (H := utcHost 1000) (λ _, mret ()) (listValues "default")
      (sampleWorld (sampleCredential 1000 None))
    = Ret ()
        (printed [Text ("Microsoft Graph credential profiles:" +:+ JSString.nl);
                  Text "  default:";
                  Text "    Account: user@example.com";
                  Text "    Scopes: Mail.Read";
                  Text "    Tenant ID: contoso";
                  Text "    Status: Valid";
                  Text ""]
           (ticked 1 (sampleWorld (sampleCredential 1000 None))))
  ∧ Text "    Status: EXPIRED"
    ∈ stdout (finalWorld
                (Auth.main (H := utcHost 1001) (λ _, mret ()) (listValues "default")
                   (sampleWorld (sampleCredential 1000 None)))).
Proof.
  split; [reflexivity |]. split.
  - vm_compute. reflexivity.
  - vm_compute. apply list_elem_of_In. vm_compute. tauto.
Qed.

(** C7, at a store with the profile [default] only: after its deletion the
    listing writes that there are no profiles. *)
Lemma delete_profile_then_list_witness :
  ∃ w',
    Auth.main (H := utcHost 1000) (λ _, mret ()) (deleteValues "default")
      (sampleWorld (sampleCredential 5000000 None)) = Ret () w'
    ∧ stdout w' = [Text "Deleted credential profile: default"]
    ∧ Credentials.getCredential "microsoft-graph" "default" (store w') = None.
Proof.
  destruct (delete_profile_then_list (H := utcHost 1000) (λ _, mret ()) "default" "default"
              (sampleWorld (sampleCredential 5000000 None))) as [_ Hfound].
  destruct (Hfound (ex_intro _ _ (setCredential_lookup _ _ _ _)))
    as (w' & Hrun & Hout & Hgone & _).
  exists w'. split; [exact Hrun |]. split; [exact Hout | exact Hgone].
Defined.

(** ** Runs of [calendar.ts] *)

Section Calendar_run_facts.

Import JSDate JSString Calendar.

Context `{Host}.
Variable GRAPH_SCOPES : GraphScopes.
Variable ensureAuth : EnsureAuthOptions → Proc AuthResult.
Variable network : nat → string → list (string * string) → Fetched.
Variable json : string → Thrown + JSON.
Variable mapFormatEventData : JSON → Thrown + JSON.
Variable formatEventData : JSON → Thrown + JSON.

Local Abbreviation graphRequest := (Calendar.graphRequest network json).
Local Abbreviation run := (Calendar.run network json mapFormatEventData formatEventData).
Local Abbreviation main :=
  (Calendar.main GRAPH_SCOPES ensureAuth network json mapFormatEventData formatEventData).

(** The message of the error that [graphRequest] throws for a response. *)
Local Abbreviation apiError r :=
  ("Graph API error: " +:+ pretty (response_status r) +:+ " - " +:+ response_text r).

Lemma graphRequest_not_ok token endpoint w r :
  network (length (fetched w)) ("https://graph.microsoft.com/v1.0" +:+ endpoint)
    [("Authorization", "Bearer " +:+ token); ("Content-Type", "application/json")]
  = FetchResolved r →
  ok r = false →
  graphRequest token endpoint w
  = Ret (inl (ThrowError (apiError r)))
        (requested ("https://graph.microsoft.com/v1.0" +:+ endpoint) w).
Proof.
  intros Hn Hok. unfold Calendar.graphRequest, try_bind, lift, fetch.
  rewrite Hn, Hok. reflexivity.
Qed.

Lemma output_response_run {A} response w :
  Calendar.output (A := A) response w
  = Exit (if String.eqb (status response) "success" then 0 else 1)
         (printed [StringifiedJSON (stringify response)] w).
Proof. reflexivity. Qed.

Lemma dateRange_frame command values w :
  ∃ startDate endDate n, dateRange command values w = Ret (startDate, endDate) (ticked n w).
Proof.
  unfold dateRange, new_Date. cbv [mbind proc_bind mret proc_ret Date_now].
  destruct (String.eqb command "today"); [by eexists _, _, 1%nat |].
  destruct (String.eqb command "week"); [by eexists _, _, 1%nat |].
  destruct (truthy (start values)); [by eexists _, _, 2%nat | by eexists _, _, 1%nat].
Qed.

(** How the [switch] of [main] ends when the network answers the next
    request with a response that is not ok: before any request, by throwing
    or by writing a response and exiting; or after one request, by throwing
    the API error. *)
Lemma run_not_ok command token top values startDate endDate w r :
  (∀ url headers, network (length (fetched w)) url headers = FetchResolved r) →
  ok r = false →
  (∃ error, run command token top values startDate endDate w = Ret (inl error) w)
  ∨ (∃ code response,
       run command token top values startDate endDate w
       = Exit code (printed [StringifiedJSON (stringify response)] w))
  ∨ (∃ url,
       run command token top values startDate endDate w
       = Ret (inl (ThrowError (apiError r))) (requested url w)).
Proof.
  intros Hn Hok. unfold Calendar.run.
  assert (∀ endpoint (k : JSON → Try unit),
            ∃ url, try_bind (graphRequest token endpoint) k w
                   = Ret (inl (ThrowError (apiError r))) (requested url w)) as Hreq.
  { intros endpoint k. eexists. unfold try_bind at 1.
    rewrite (graphRequest_not_ok token endpoint w r (Hn _ _) Hok). reflexivity. }
  destruct (String.eqb command "list" || String.eqb command "today"
            || String.eqb command "week").
  - destruct startDate as [s |]; [| left; by eexists].
    destruct endDate as [e |]; [| left; by eexists].
    right. right. unfold toISO, resolve, settle, try_bind at 1 2. apply Hreq.
  - destruct (String.eqb command "view").
    + destruct (truthy (id values)); simpl negb; cbv iota.
      * right. right. apply Hreq.
      * right. left. eexists _, _. apply output_response_run.
    + destruct (String.eqb command "search").
      * destruct (truthy (query values)); simpl negb; cbv iota.
        -- right. right. apply Hreq.
        -- right. left. eexists _, _. apply output_response_run.
      * right. left. eexists _, _. apply output_response_run.
Qed.

(** C6.  When the response to a request of the calendar script is not ok
    (its status is outside 200-299), [graphRequest] throws an error whose
    message holds the status and the body, and [main] ends at once: the one
    request is the only one, the one line written is the error response with
    that message, and the exit code is 1. *)
Theorem graph_error_propagates values positionals w token w1 r :
  ok r = false →
  (∀ endpoint w0,
     network (length (fetched w0)) ("https://graph.microsoft.com/v1.0" +:+ endpoint)
       [("Authorization", "Bearer " +:+ token); ("Content-Type", "application/json")]
     = FetchResolved r →
     graphRequest token endpoint w0
     = Ret (inl (ThrowError ("Graph API error: " +:+ pretty (response_status r)
                             +:+ " - " +:+ response_text r)))
           (requested ("https://graph.microsoft.com/v1.0" +:+ endpoint) w0))
  ∧ (ensureAuth {| auth_service := "microsoft-graph";
                   auth_profile := profile values;
                   requiredScopes := user GRAPH_SCOPES ++ calendar GRAPH_SCOPES |} w
     = Ret (AuthToken token) w1 →
     (∀ url headers, network (length (fetched w1)) url headers = FetchResolved r) →
     let result := main values positionals w in
     fetched (finalWorld result) ≠ fetched w1 →
     ∃ url,
       result = Exit 1 (finalWorld result)
       ∧ fetched (finalWorld result) = fetched w1 ++ [url]
       ∧ stdout (finalWorld result)
         = stdout w1
           ++ [StringifiedJSON
                 (JObj [("status", JStr "error");
                        ("error", JStr ("Graph API error: " +:+ pretty (response_status r)
                                        +:+ " - " +:+ response_text r))])]).
Proof.
  intros Hok. split.
  - intros endpoint w0 Hn. by apply graphRequest_not_ok.
  - intros Hauth Hn result.
    assert (result
            = let '(startDate, endDate, n) :=
                  match dateRange (commandOf positionals) values w1 with
                  | Ret (s, e) w2 => (s, e, (ticks w2 - ticks w1)%nat)
                  | Exit _ _ => (None, None, 0%nat)
                  end in
              try_catch (run (commandOf positionals) token (showParseInt (top values)) values
                           startDate endDate)
                (λ error, output (failure (errorMessage error))) (ticked n w1)) as Hres.
    { subst result. unfold Calendar.main. cbv [mbind proc_bind]. rewrite Hauth.
      destruct (dateRange_frame (commandOf positionals) values w1) as (s & e & n & ->).
      simpl. by replace (n + ticks w1 - ticks w1)%nat with n by lia. }
    clearbody result. subst result.
    destruct (dateRange_frame (commandOf positionals) values w1) as (s & e & n & ->).
    simpl ticks. replace (n + ticks w1 - ticks w1)%nat with n by lia.
    unfold try_catch. cbv [mbind proc_bind mret proc_ret].
    destruct (run_not_ok (commandOf positionals) token (showParseInt (top values)) values
                s e (ticked n w1) r Hn Hok)
      as [(error & ->) | [(code & response & ->) | (url & ->)]].
    + rewrite output_response_run. simpl. done.
    + simpl. done.
    + rewrite output_response_run. simpl. intros _. by exists url.
Qed.

End Calendar_run_facts.

(** C6, at [calendar list] in the UTC zone at time 0, with a network that
    answers 404 Not Found. *)
Lemma graph_error_propagates_witness :
  Calendar.main (H := utcHost 0) sampleScopes (λ _ w, Ret (Calendar.AuthToken "token") w)
    (λ _ _ _, Calendar.FetchResolved
                {| Calendar.response_status := 404; Calendar.response_text := "Not Found" |})
    (λ _, inl ThrowOther) (λ _, inl ThrowOther) (λ _, inl ThrowOther)
    (sampleValues None None) ["list"] emptyWorld
  = Exit 1
      {| store := ∅; ticks := 1;
         stdout := [StringifiedJSON
                      (JObj [("status", JStr "error");
                             ("error", JStr "Graph API error: 404 - Not Found")])];
         fetched := ["https://graph.microsoft.com/v1.0/me/calendarView?startDateTime=0&endDateTime=2592000000&$top=10&$orderby=start/dateTime"] |}.
Proof.
  destruct (graph_error_propagates (H := utcHost 0) sampleScopes
              (λ _ w, Ret (Calendar.AuthToken "token") w)
              (λ _ _ _, Calendar.FetchResolved
                          {| Calendar.response_status := 404;
                             Calendar.response_text := "Not Found" |})
              (λ _, inl ThrowOther) (λ _, inl ThrowOther) (λ _, inl ThrowOther)
              (sampleValues None None) ["list"] emptyWorld "token" emptyWorld
              {| Calendar.response_status := 404; Calendar.response_text := "Not Found" |}
              eq_refl) as [_ Hmain].
  destruct (Hmain eq_refl (λ _ _, eq_refl) ltac:(vm_compute; discriminate))
    as (url & Hrun & _).
  rewrite Hrun. vm_compute. reflexivity.
Defined.

(** ** Further properties of the scripts *)

Section Further_facts.

Import JSDate JSString Calendar.

Context `{Host}.
Variable GRAPH_SCOPES : GraphScopes.
Variable ensureAuth : EnsureAuthOptions → Proc AuthResult.
Variable network : nat → string → list (string * string) → Fetched.
Variable json : string → Thrown + JSON.
Variable mapFormatEventData : JSON → Thrown + JSON.
Variable formatEventData : JSON → Thrown + JSON.

Local Abbreviation run := (Calendar.run network json mapFormatEventData formatEventData).
Local Abbreviation main :=
  (Calendar.main GRAPH_SCOPES ensureAuth network json mapFormatEventData formatEventData).

(** The range of [calendar today]: from the instant that the zone gives for
    time 0 of the local day of today to the one it gives for the last
    millisecond of that day; they read back as these local times whenever
    the zone has them.  In a zone of constant offset it always has, the
    range is one millisecond short of 24 hours and the current time lies in
    it. *)
Theorem today_range (values : Values) (w : World) :
  let now := clock (ticks w) in
  dateRange "today" values w
  = Ret (ofLocal (localDay now) 0, ofLocal (localDay now) (msPerDay - 1)) (ticked 1 w)
  ∧ (∀ r, ofLocal (localDay now) 0 = Some r → isLocalTime (MakeDate (localDay now) 0) →
       localDay r = localDay now ∧ localTimeOfDay r = 0)
  ∧ (∀ r, ofLocal (localDay now) (msPerDay - 1) = Some r →
       isLocalTime (MakeDate (localDay now) (msPerDay - 1)) →
       localDay r = localDay now ∧ localTimeOfDay r = msPerDay - 1)
  ∧ (constantOffset →
       (∀ x, isLocalTime x)
       ∧ ∀ s e, ofLocal (localDay now) 0 = Some s →
                ofLocal (localDay now) (msPerDay - 1) = Some e →
                e = s + msPerDay - 1 ∧ s <= now <= e).
Proof.
  intros now. split; [reflexivity |].
  split; [| split].
  - intros r Hr Hx. apply ofLocal_fields in Hr; [exact Hr | unfold msPerDay; lia | exact Hx].
  - intros r Hr Hx. apply ofLocal_fields in Hr; [exact Hr | unfold msPerDay; lia | exact Hx].
  - intros Hc. split; [intros x; by apply constantOffset_isLocalTime |].
    destruct Hc as [offset Ho]. intros s e. unfold ofLocal, TimeClip.
    repeat case_match; try done. intros [= <-] [= <-].
    pose proof (MakeDate_Day_TimeWithinDay (LocalTime LocalTZA now)) as Hsplit.
    pose proof (localTimeOfDay_range now) as Hrange.
    unfold UTC, MakeDate, localDay, localTimeOfDay, LocalTime, msPerDay in *.
    rewrite !Ho in *. lia.
Qed.

(** After a request the [switch] of [main] has thrown or has written one
    response and ended the process; it made at most one request. *)
Lemma run_ends command token top values startDate endDate w :
  ∃ w',
    (w' = w ∨ ∃ url, w' = requested url w)
    ∧ ((∃ error, run command token top values startDate endDate w = Ret (inl error) w')
       ∨ ∃ response,
           run command token top values startDate endDate w
           = Exit (if String.eqb (status response) "success" then 0 else 1)
                  (printed [StringifiedJSON (stringify response)] w')).
Proof.
  assert (∀ endpoint (shape : JSON → Thrown + JSON),
            ∃ w',
              (w' = w ∨ ∃ url, w' = requested url w)
              ∧ ((∃ error,
                    try_bind (Calendar.graphRequest network json token endpoint)
                      (λ response, try_bind (settle (shape response))
                                     (λ data, output (success data) : Try unit)) w
                    = Ret (inl error) w')
                 ∨ ∃ response,
                     try_bind (Calendar.graphRequest network json token endpoint)
                       (λ response, try_bind (settle (shape response))
                                      (λ data, output (success data) : Try unit)) w
                     = Exit (if String.eqb (status response) "success" then 0 else 1)
                            (printed [StringifiedJSON (stringify response)] w'))) as Hreq.
  { intros endpoint shape.
    exists (requested ("https://graph.microsoft.com/v1.0" +:+ endpoint) w).
    split; [right; eexists; reflexivity |].
    unfold Calendar.graphRequest, try_bind, lift, fetch, settle, throw.
    destruct (network _ _ _) as [error | response]; [left; eexists; reflexivity |].
    destruct (ok response); cbv beta iota delta [negb]; [| left; eexists; reflexivity].
    destruct (json (response_text response)) as [error | body]; [left; eexists; reflexivity |].
    destruct (shape body) as [error | data]; [left; eexists; reflexivity |].
    right. exists (success data). apply output_response_run. }
  unfold Calendar.run.
  destruct (String.eqb command "list" || String.eqb command "today"
            || String.eqb command "week").
  - destruct startDate as [s |]; [| exists w; split; [by left | left; eexists; reflexivity]].
    destruct endDate as [e |]; [| exists w; split; [by left | left; eexists; reflexivity]].
    unfold toISO, resolve, settle, try_bind at 1 2. apply Hreq.
  - destruct (String.eqb command "view").
    + destruct (truthy (id values)); simpl negb; cbv iota; [apply Hreq |].
      exists w. split; [by left |]. right. eexists. apply output_response_run.
    + destruct (String.eqb command "search").
      * destruct (truthy (query values)); simpl negb; cbv iota; [apply Hreq |].
        exists w. split; [by left |]. right. eexists. apply output_response_run.
      * exists w. split; [by left |]. right. eexists. apply output_response_run.
Qed.

(** Every run of [calendar.ts] in which [ensureAuth] resolves writes exactly
    one line, a JSON response, and then ends the process, with 0 when the
    status of the response is [success] and with 1 otherwise; it makes at
    most one request and leaves the credential store as [ensureAuth] left
    it. *)
Theorem calendar_single_response values positionals w auth w1 :
  ensureAuth {| auth_service := "microsoft-graph";
                auth_profile := profile values;
                requiredScopes := user GRAPH_SCOPES ++ calendar GRAPH_SCOPES |} w
  = Ret auth w1 →
  ∃ response w',
    main values positionals w
    = Exit (if String.eqb (status response) "success" then 0 else 1) w'
    ∧ stdout w' = stdout w1 ++ [StringifiedJSON (stringify response)]
    ∧ (fetched w' = fetched w1 ∨ ∃ url, fetched w' = fetched w1 ++ [url])
    ∧ store w' = store w1.
Proof.
  intros Hauth. unfold Calendar.main. cbv [mbind proc_bind]. rewrite Hauth.
  destruct auth as [token | response].
  2: { exists response. eexists. rewrite output_response_run.
       split; [reflexivity |]. split; [reflexivity |]. split; [by left | reflexivity]. }
  destruct (dateRange_frame (commandOf positionals) values w1) as (s & e & n & ->).
  unfold try_catch. cbv [mbind proc_bind mret proc_ret].
  destruct (run_ends (commandOf positionals) token (showParseInt (top values)) values
              s e (ticked n w1)) as (w' & Hw' & [(error & ->) | (response & ->)]).
  - exists (failure (errorMessage error)). eexists. rewrite output_response_run.
    split; [reflexivity |].
    destruct Hw' as [-> | (url & ->)]; simpl; eauto 6.
  - exists response. eexists. split; [reflexivity |].
    destruct Hw' as [-> | (url & ->)]; simpl; eauto 6.
Qed.

(** [check-auth --help] writes the usage and exits with 0, whatever is
    stored. *)
Theorem check_auth_help acquireTokenByRefreshToken usage profile json' w :
  CheckAuth.script GRAPH_SCOPES acquireTokenByRefreshToken true usage profile json' w
  = Exit 0 (printed [Text usage] w).
Proof. reflexivity. Qed.

End Further_facts.

(** [calendar_single_response] at a run of [calendar view] without [--id]. *)
Lemma calendar_single_response_witness :
  Calendar.main (H := utcHost 0) sampleScopes (λ _ w, Ret (Calendar.AuthToken "token") w)
    (λ _ _ _, Calendar.FetchRejected ThrowOther)
    (λ _, inl ThrowOther) (λ _, inl ThrowOther) (λ _, inl ThrowOther)
    (sampleValues None None) ["view"] emptyWorld
  = Exit 1
      {| store := ∅; ticks := 1;
         stdout := [StringifiedJSON
                      (JObj [("status", JStr "error");
                             ("error", JStr "--id is required for 'view' command")])];
         fetched := [] |}.
Proof.
  destruct (calendar_single_response (H := utcHost 0) sampleScopes
              (λ _ w, Ret (Calendar.AuthToken "token") w)
              (λ _ _ _, Calendar.FetchRejected ThrowOther)
              (λ _, inl ThrowOther) (λ _, inl ThrowOther) (λ _, inl ThrowOther)
              (sampleValues None None) ["view"] emptyWorld (Calendar.AuthToken "token")
              emptyWorld eq_refl) as (response & w' & Hrun & _).
  etransitivity; [exact Hrun |].
  pose proof Hrun as Hsame. vm_compute in Hsame. symmetry. exact Hsame.
Defined.

(** ** The shaping of the events of [calendar.ts] *)

Section Events_facts.

Import JSValue CalendarEvents.

Variable TypeErrorMessage : Value → string → string.

Local Abbreviation get := (JSValue.get TypeErrorMessage).
Local Abbreviation formatAttendee := (CalendarEvents.formatAttendee TypeErrorMessage).
Local Abbreviation formatEventData := (CalendarEvents.formatEventData TypeErrorMessage).

Lemma each_inr {A B} (f : A → Thrown + B) (l : list A) (ys : list B) :
  each f l = inr ys ↔ Forall2 (λ x y, f x = inr y) l ys.
Proof.
  revert ys. induction l as [| x l IH]; intros ys; simpl.
  - split; [intros [= <-]; constructor | by intros ->%Forall2_nil_inv_l].
  - destruct (f x) as [e | y] eqn:Hx.
    + split; [done |]. intros (y & ys' & Hy & _ & _)%Forall2_cons_inv_l. congruence.
    + destruct (each f l) as [e | ys'] eqn:Hl.
      * split; [done |]. intros (y' & ys' & _ & Hys & _)%Forall2_cons_inv_l.
        apply IH in Hys. done.
      * split.
        -- intros [= <-]. constructor; [done | by apply IH].
        -- intros (y' & ys'' & Hy & Hys & ->)%Forall2_cons_inv_l.
           apply IH in Hys. congruence.
Qed.

Lemma each_inl {A B} (f : A → Thrown + B) (l : list A) :
  (∃ error, each f l = inl error) ↔ ∃ x error, x ∈ l ∧ f x = inl error.
Proof.
  induction l as [| x l IH]; simpl.
  - split; [by intros [? ?] | by intros (? & ? & ?%elem_of_nil & _)].
  - destruct (f x) as [e | y] eqn:Hx.
    + split; [| by eauto]. intros _. exists x, e. split; [left | done].
    + destruct (each f l) as [e | ys] eqn:Hl.
      * split; [| by eauto]. intros _.
        destruct (proj1 IH (ex_intro _ e eq_refl)) as (x' & e' & Hin & Hx').
        exists x', e'. split; [by right | done].
      * split; [by intros [? ?] |].
        intros (x' & e' & [-> | Hin]%elem_of_cons & Hx'); [congruence |].
        destruct (proj2 IH (ex_intro _ x' (ex_intro _ e' (conj Hin Hx')))) as [? ?]. done.
Qed.

Lemma null_or_not (v : JSON) : {v = JNull} + {v ≠ JNull}.
Proof. destruct v; (by left) || (by right). Qed.

Lemma get_defined (v : JSON) (key site : string) :
  v ≠ JNull → get (Some v) key site = inr (getOpt (Some v) key).
Proof. by destruct v. Qed.

Lemma formatAttendee_run (a : JSON) :
  formatAttendee a
  = match a with
    | JNull => inl (TypeError TypeErrorMessage (Some JNull) "a.emailAddress")
    | _ => inr (JObj (member "email" (getOpt (Some a) "emailAddress")
                      ++ [("status",
                           orElse (getOpt (getOpt (Some a) "status") "response") JNull)]))
    end.
Proof. by destruct a. Qed.

Lemma formatAttendees_run (items : list JSON) :
  JNull ∉ items →
  each formatAttendee items
  = inr ((λ a, JObj (member "email" (getOpt (Some a) "emailAddress")
                     ++ [("status",
                          orElse (getOpt (getOpt (Some a) "status") "response") JNull)]))
         <$> items).
Proof.
  induction items as [| a items IH]; intros Hn; [done |].
  simpl. rewrite formatAttendee_run.
  rewrite IH by (intros ?; apply Hn; by right).
  destruct a; try reflexivity. exfalso. apply Hn. by left.
Qed.

(** The value of [formatEventData] on an event that is not [null] and whose
    attendees, if any, are an array without [null]. *)
Lemma formatEventData_run (event : JSON) (items : list JSON) :
  event ≠ JNull → attendeesOf event = Some items → JNull ∉ items →
  let read key := getOpt (Some event) key in
  formatEventData event
  = inr (JObj (member "id" (read "id")
               ++ member "subject" (read "subject")
               ++ member "start" (read "start")
               ++ member "end" (read "end")
               ++ [("isAllDay", orElse (read "isAllDay") (JBool false));
                   ("location", orElse (getOpt (read "location") "displayName") JNull);
                   ("organizer", orElse (getOpt (read "organizer") "emailAddress") JNull);
                   ("attendees",
                    JArr ((λ a, JObj (member "email" (getOpt (Some a) "emailAddress")
                                      ++ [("status",
                                           orElse (getOpt (getOpt (Some a) "status") "response")
                                             JNull)]))
                          <$> items));
                   ("bodyPreview", orElse (read "bodyPreview") JNull)])).
Proof.
  intros He Ha Hn read. unfold CalendarEvents.formatEventData.
  cbv zeta. rewrite !(get_defined event) by done.
  cbv [mbind thrown_bind mret thrown_ret]. fold (read "attendees").
  unfold attendeesOf in Ha. fold (read "attendees") in Ha.
  destruct (read "attendees") as [[| | | | items' |] |]; simplify_eq; try reflexivity.
  simpl. cbv [mbind thrown_bind mret thrown_ret].
  by rewrite formatAttendees_run.
Qed.

(** An event on which [formatEventData] returns. *)
Lemma formatEventData_inr_inv (event data : JSON) :
  formatEventData event = inr data →
  event ≠ JNull ∧ ∃ items, attendeesOf event = Some items ∧ JNull ∉ items.
Proof.
  intros Hd. destruct (null_or_not event) as [-> | He]; [done |].
  split; [done |]. revert Hd. unfold CalendarEvents.formatEventData.
  cbv zeta. rewrite !(get_defined event) by done.
  cbv [mbind thrown_bind mret thrown_ret]. unfold attendeesOf.
  destruct (getOpt (Some event) "attendees") as [[| | | | items |] |]; simpl;
    try done; try (intros _; exists []; split; [done | apply not_elem_of_nil]).
  cbv [mbind thrown_bind mret thrown_ret].
  destruct (each formatAttendee items) as [e | ys] eqn:Hi; [done |]. intros _.
  exists items. split; [done |]. intros Hin.
  apply each_inr in Hi. apply list_elem_of_lookup in Hin as [i Hin].
  destruct (Forall2_lookup_l _ _ _ _ _ Hi Hin) as (y & _ & Hy). done.
Qed.

(** [formatEventData] returns exactly for the events that are not [null] and
    whose member [attendees] is missing, [null], or an array without a
    [null] element; on any other event it throws, and what it throws is a
    [TypeError]. *)
Theorem formatEventData_returns_exactly_when (event : JSON) :
  ((∃ data, formatEventData event = inr data)
   ↔ event ≠ JNull ∧ ∃ items, attendeesOf event = Some items ∧ JNull ∉ items)
  ∧ ((∃ error, formatEventData event = inl error)
     ↔ ∃ v site, formatEventData event = inl (TypeError TypeErrorMessage v site)).
Proof.
  split.
  - split.
    + intros [data Hd]. by apply (formatEventData_inr_inv event data).
    + intros (He & items & Ha & Hn). eexists. by apply formatEventData_run.
  - split; [| intros (v & site & ->); by eexists].
    intros [error Hd]. revert Hd.
    destruct (null_or_not event) as [-> | He]; [intros _; by eexists _, _ |].
    unfold CalendarEvents.formatEventData.
    cbv zeta. rewrite !(get_defined event) by done.
    cbv [mbind thrown_bind mret thrown_ret].
    destruct (getOpt (Some event) "attendees") as [[| | | | items |] |]; simpl;
      try done; try (intros _; by eexists _, _).
    cbv [mbind thrown_bind mret thrown_ret].
    destruct (each formatAttendee items) as [e | ys] eqn:Hi; [| done]. intros _.
    assert (e = TypeError TypeErrorMessage (Some JNull) "a.emailAddress") as ->.
    { clear -Hi. induction items as [| a items IH]; [done |].
      simpl in Hi. rewrite formatAttendee_run in Hi.
      destruct a; try (by injection Hi as <-);
        (destruct (each formatAttendee items); [injection Hi as <-; by apply IH | done]). }
    by eexists _, _.
Qed.

End Events_facts.

Section Events_run_facts.

Import JSValue JSString Calendar.

Context `{Host}.
Variable TypeErrorMessage : Value → string → string.
Variable GRAPH_SCOPES : GraphScopes.
Variable ensureAuth : EnsureAuthOptions → Proc AuthResult.
Variable network : nat → string → list (string * string) → Fetched.
Variable json : string → Thrown + JSON.

Local Abbreviation formatEventData := (CalendarEvents.formatEventData TypeErrorMessage).
Local Abbreviation main :=
  (CalendarEvents.main TypeErrorMessage GRAPH_SCOPES ensureAuth network json).

(** The members of the object that [formatEventData] returns: [isAllDay],
    [location], [organizer], [attendees] and [bodyPreview] are always there,
    with [false], [null] and the empty array in the place of a value that is
    missing or [null]; [id], [subject], [start] and [end] are there when
    the event has them; there is one attendee, with a [status], for each
    attendee of the event; and there is no other member. *)
Theorem formatEventData_members (event data : JSON) :
  formatEventData event = inr data →
  let read key := getOpt (Some event) key in
  ∃ fields items attendees,
    data = JObj fields
    ∧ attendeesOf event = Some items
    ∧ own "isAllDay" fields = Some (orElse (read "isAllDay") (JBool false))
    ∧ own "location" fields = Some (orElse (getOpt (read "location") "displayName") JNull)
    ∧ own "organizer" fields = Some (orElse (getOpt (read "organizer") "emailAddress") JNull)
    ∧ own "bodyPreview" fields = Some (orElse (read "bodyPreview") JNull)
    ∧ own "attendees" fields = Some (JArr attendees)
    ∧ length attendees = length items
    ∧ (∀ a, a ∈ attendees → ∃ members status, a = JObj members ∧ own "status" members = Some status)
    ∧ (∀ key, key ∈ ["id"; "subject"; "start"; "end"] → own key fields = read key)
    ∧ (∀ key v, own key fields = Some v →
         key ∈ ["id"; "subject"; "start"; "end"; "isAllDay"; "location"; "organizer";
                "attendees"; "bodyPreview"]).
Proof.
  intros Hd read.
  destruct (formatEventData_inr_inv TypeErrorMessage event data Hd) as (He & items & Ha & Hn).
  pose proof (formatEventData_run TypeErrorMessage event items He Ha Hn) as Hrun.
  cbv beta zeta in Hrun. subst read. cbv beta.
  remember (getOpt (Some event) "id") as i eqn:Hi.
  remember (getOpt (Some event) "subject") as s eqn:Hs.
  remember (getOpt (Some event) "start") as b eqn:Hb.
  remember (getOpt (Some event) "end") as e eqn:Hend.
  match type of Hrun with _ = inr (JObj ?fs) => set (fields := fs) in * end.
  assert (data = JObj fields) as -> by congruence. clear Hrun Hd.
  eexists fields, items, _. split; [reflexivity |]. split; [done |]. subst fields.
  split; [destruct i, s, b, e; reflexivity |]. split; [destruct i, s, b, e; reflexivity |].
  split; [destruct i, s, b, e; reflexivity |]. split; [destruct i, s, b, e; reflexivity |].
  split; [destruct i, s, b, e; reflexivity |]. split; [by rewrite length_fmap |].
  split.
  { intros a (x & -> & _)%list_elem_of_fmap. eexists _, _. split; [reflexivity |].
    by destruct (getOpt (Some x) "emailAddress"). }
  split.
  { intros key Hk. repeat (apply elem_of_cons in Hk as [-> | Hk]);
      [rewrite <- ?Hi, <- ?Hs, <- ?Hb, <- ?Hend; clear; destruct i, s, b, e; reflexivity ..
      | by apply elem_of_nil in Hk]. }
  intros key v.
  clear. destruct i, s, b, e; cbn [own app member];
    repeat match goal with
           | |- context [String.eqb ?k key] =>
               destruct (String.eqb_spec k key) as [<- | _]; [intros _; set_solver |]
           end; done.
Qed.

(** The run of [calendar list], [today] or [week] when the request is
    answered with a status in 200-299 and a body that parses to an object
    whose [value] is an array of events that [formatEventData] accepts: one
    request, to the calendar view of the range, one line, the success
    response with the shaped events in the order of the body, and the exit
    code 0. *)
Theorem calendar_events_success values positionals w token w1 s e w2 r fields events data :
  ensureAuth {| auth_service := "microsoft-graph";
                auth_profile := profile values;
                requiredScopes := user GRAPH_SCOPES ++ calendar GRAPH_SCOPES |} w
  = Ret (AuthToken token) w1 →
  commandOf positionals = "list" ∨ commandOf positionals = "today"
  ∨ commandOf positionals = "week" →
  dateRange (commandOf positionals) values w1 = Ret (Some s, Some e) w2 →
  let url :=
    "https://graph.microsoft.com/v1.0"
    +:+ ("/me/calendarView?startDateTime=" +:+ toISOString s +:+ "&endDateTime="
         +:+ toISOString e +:+ "&$top=" +:+ showParseInt (top values)
         +:+ "&$orderby=start/dateTime") in
  network (length (fetched w2)) url
    [("Authorization", "Bearer " +:+ token); ("Content-Type", "application/json")]
  = FetchResolved r →
  ok r = true →
  json (response_text r) = inr (JObj fields) →
  own "value" fields = Some (JArr events) →
  Forall2 (λ event shaped, formatEventData event = inr shaped) events data →
  main values positionals w
  = Exit 0 (printed [StringifiedJSON (JObj [("status", JStr "success"); ("data", JArr data)])]
              (requested url w2)).
Proof.
  intros Hauth Hc Hrange url Hn Hok Hj Hv Hd.
  unfold CalendarEvents.main, Calendar.main. cbv [mbind proc_bind]. rewrite Hauth.
  rewrite Hrange. unfold try_catch. cbv [mbind proc_bind].
  assert (Calendar.run network json (CalendarEvents.mapFormatEventData TypeErrorMessage)
            formatEventData (commandOf positionals) token (showParseInt (top values)) values
            (Some s) (Some e) w2
          = Exit 0 (printed [StringifiedJSON
                               (JObj [("status", JStr "success"); ("data", JArr data)])]
                      (requested url w2))) as ->; [| reflexivity].
  unfold Calendar.run.
  assert (String.eqb (commandOf positionals) "list" || String.eqb (commandOf positionals) "today"
          || String.eqb (commandOf positionals) "week" = true) as ->.
  { destruct Hc as [-> | [-> | ->]]; reflexivity. }
  unfold toISO, resolve, settle, try_bind at 1 2.
  unfold try_bind at 1. unfold Calendar.graphRequest, try_bind, lift, fetch.
  fold url. rewrite Hn, Hok. cbv beta iota delta [negb settle]. rewrite Hj.
  unfold CalendarEvents.mapFormatEventData. simpl JSValue.get. rewrite Hv.
  cbv [mbind thrown_bind mret thrown_ret mapArray].
  apply each_inr in Hd. rewrite Hd. reflexivity.
Qed.

End Events_run_facts.

(** ** Runs of [emails.ts] *)

Section Encode_facts.

Import Emails.

Lemma hexDigit_unreserved n : (n < 16)%nat → isUnreserved (hexDigit n) = true.
Proof.
  intros Hn. do 16 (destruct n as [| n]; [reflexivity |]). lia.
Qed.

Lemma hexDigit_inj n m : (n < 16)%nat → (m < 16)%nat → hexDigit n = hexDigit m → n = m.
Proof.
  intros Hn Hm.
  do 16 (destruct n as [| n]; [do 16 (destruct m as [| m]; [done |]); lia |]). lia.
Qed.

Lemma percent_reserved : isUnreserved "%" = false.
Proof. reflexivity. Qed.

Lemma byte_digits c :
  (nat_of_ascii c / 16 < 16)%nat ∧ (nat_of_ascii c mod 16 < 16)%nat.
Proof.
  pose proof (nat_ascii_bounded c) as Hc. split.
  - apply Nat.Div0.div_lt_upper_bound. lia.
  - apply Nat.mod_upper_bound. lia.
Qed.

(** [encodeURIComponent] writes unreserved characters and [%] only, so none
    of the characters that delimit the parts of a URL; it leaves a string of
    unreserved characters as it is; and it is injective. *)
Lemma encodeURIComponent_safe (s : string) :
  Forall (λ c, isUnreserved c = true ∨ c = "%"%char)
    (String.list_ascii_of_string (encodeURIComponent s))
  ∧ (∀ c, c ∈ urlDelimiters → c ∉ String.list_ascii_of_string (encodeURIComponent s))
  ∧ (Forall (λ c, isUnreserved c = true) (String.list_ascii_of_string s) →
       encodeURIComponent s = s)
  ∧ (∀ s', encodeURIComponent s = encodeURIComponent s' → s = s').
Proof.
  assert (Forall (λ c, isUnreserved c = true ∨ c = "%"%char)
            (String.list_ascii_of_string (encodeURIComponent s))) as Hsafe.
  { induction s as [| c s IH]; [constructor |]. simpl.
    destruct (isUnreserved c) eqn:Hc; simpl.
    - constructor; [by left | done].
    - destruct (byte_digits c) as [Hh Hl].
      apply Forall_cons. split; [by right |].
      apply Forall_cons. split; [left; by apply hexDigit_unreserved |].
      apply Forall_cons. split; [left; by apply hexDigit_unreserved | done]. }
  split; [exact Hsafe |]. split; [| split].
  - intros c Hc Hin. rewrite Forall_forall in Hsafe.
    destruct (Hsafe c Hin) as [Hu | ->].
    + unfold urlDelimiters in Hc.
      repeat (apply elem_of_cons in Hc as [-> | Hc]); try discriminate Hu.
      by apply elem_of_nil in Hc.
    + unfold urlDelimiters in Hc.
      repeat (apply elem_of_cons in Hc as [Hc | Hc]); try discriminate Hc.
      by apply elem_of_nil in Hc.
  - clear Hsafe. induction s as [| c s IH]; [done |]. simpl.
    intros [Hc Hs]%Forall_cons. rewrite Hc. f_equal. by apply IH.
  - clear Hsafe. induction s as [| c s IH]; intros [| c' s']; cbn [encodeURIComponent].
    + done.
    + by destruct (isUnreserved c').
    + by destruct (isUnreserved c).
    + destruct (byte_digits c) as [Hh Hl]. destruct (byte_digits c') as [Hh' Hl'].
      destruct (isUnreserved c) eqn:Hc; destruct (isUnreserved c') eqn:Hc'.
      * intros [= -> Hs]. f_equal. by apply IH.
      * intros [= -> _]. by rewrite percent_reserved in Hc.
      * intros [= <- _]. by rewrite percent_reserved in Hc'.
      * intros [= H1 H2 Hs].
        apply hexDigit_inj in H1; [| done ..]. apply hexDigit_inj in H2; [| done ..].
        change (nat_of_ascii c / 16 = nat_of_ascii c' / 16)%nat in H1.
        change (nat_of_ascii c mod 16 = nat_of_ascii c' mod 16)%nat in H2.
        f_equal; [| by apply IH].
        rewrite <- (ascii_nat_embedding c), <- (ascii_nat_embedding c'). f_equal.
        rewrite (Nat.div_mod_eq (nat_of_ascii c) 16), (Nat.div_mod_eq (nat_of_ascii c') 16).
        by rewrite H1, H2.
Qed.

End Encode_facts.

Section Emails_facts.

Import JSValue JSString Calendar.

Context `{Host}.
Variable TypeErrorMessage : Value → string → string.
Variable GRAPH_SCOPES : GraphScopes.
Variable ensureAuth : EnsureAuthOptions → Proc AuthResult.
Variable network : nat → string → list (string * string) → Fetched.
Variable json : string → Thrown + JSON.

Local Abbreviation run := (Emails.run TypeErrorMessage network json).
Local Abbreviation main :=
  (Emails.main TypeErrorMessage GRAPH_SCOPES ensureAuth network json).
Local Abbreviation summary := (Emails.summary TypeErrorMessage).

(** A request whose body is shaped and written as the success response:
    it throws, or it writes the response and ends the process. *)
Lemma request_then_output token endpoint (shape : JSON → Thrown + JSON) w :
  let w' := requested ("https://graph.microsoft.com/v1.0" +:+ endpoint) w in
  (∃ error,
     try_bind (Calendar.graphRequest network json token endpoint)
       (λ response, try_bind (settle (shape response))
                      (λ data, Calendar.output (success data) : Try unit)) w
     = Ret (inl error) w')
  ∨ ∃ response,
      try_bind (Calendar.graphRequest network json token endpoint)
        (λ response, try_bind (settle (shape response))
                       (λ data, Calendar.output (success data) : Try unit)) w
      = Exit (if String.eqb (status response) "success" then 0 else 1)
             (printed [StringifiedJSON (stringify response)] w').
Proof.
  intros w'. subst w'.
  unfold Calendar.graphRequest, try_bind, lift, fetch, settle, throw.
  destruct (network _ _ _) as [error | response]; [left; eexists; reflexivity |].
  destruct (ok response); cbv beta iota delta [negb]; [| left; eexists; reflexivity].
  destruct (json (response_text response)) as [error | body]; [left; eexists; reflexivity |].
  destruct (shape body) as [error | data]; [left; eexists; reflexivity |].
  right. exists (success data). apply output_response_run.
Qed.

Lemma emails_run_ends command token top values w :
  ∃ w',
    (w' = w ∨ ∃ url, w' = requested url w)
    ∧ ((∃ error, run command token top values w = Ret (inl error) w')
       ∨ ∃ response,
           run command token top values w
           = Exit (if String.eqb (status response) "success" then 0 else 1)
                  (printed [StringifiedJSON (stringify response)] w')).
Proof.
  assert (∀ endpoint (shape : JSON → Thrown + JSON),
            ∃ w',
              (w' = w ∨ ∃ url, w' = requested url w)
              ∧ ((∃ error,
                    try_bind (Calendar.graphRequest network json token endpoint)
                      (λ response, try_bind (settle (shape response))
                                     (λ data, Calendar.output (success data) : Try unit)) w
                    = Ret (inl error) w')
                 ∨ ∃ response,
                     try_bind (Calendar.graphRequest network json token endpoint)
                       (λ response, try_bind (settle (shape response))
                                      (λ data, Calendar.output (success data) : Try unit)) w
                     = Exit (if String.eqb (status response) "success" then 0 else 1)
                            (printed [StringifiedJSON (stringify response)] w'))) as Hreq.
  { intros endpoint shape. eexists. split; [right; eexists; reflexivity |].
    apply request_then_output. }
  unfold Emails.run, Emails.graphRequest, Emails.output.
  destruct (String.eqb command "list"); [apply Hreq |].
  destruct (String.eqb command "read").
  { destruct (truthy (Emails.id values)); simpl negb; cbv iota; [apply Hreq |].
    exists w. split; [by left |]. right. eexists. apply output_response_run. }
  destruct (String.eqb command "search").
  { destruct (truthy (Emails.query values)); simpl negb; cbv iota; [apply Hreq |].
    exists w. split; [by left |]. right. eexists. apply output_response_run. }
  destruct (String.eqb command "folders"); [apply Hreq |].
  exists w. split; [by left |]. right. eexists. apply output_response_run.
Qed.

(** A run of [emails.ts] with [--help] writes the usage and exits with 0,
    whatever else is on the command line.  Every other run in which
    [ensureAuth], when it is called, returns to the script writes exactly
    one line, a JSON response, and then ends the process, with 0 when the
    status of the response is [success] and with 1 otherwise.  Without a
    command the response is an error and [ensureAuth] is not called; with
    one, the run makes at most one request and leaves the credential store
    as [ensureAuth] left it. *)
Theorem emails_single_response help usage values positionals w :
  let script :=
    Emails.script TypeErrorMessage GRAPH_SCOPES ensureAuth network json help usage
      values positionals in
  (help = true → script w = Exit 0 (printed [Text usage] w))
  ∧ (help = false → truthy (head positionals) = false →
     script w
     = Exit 1 (printed [StringifiedJSON
                          (JObj [("status", JStr "error");
                                 ("error", JStr "No command specified. Use --help for usage.")])]
                 w))
  ∧ (help = false → truthy (head positionals) = true →
     ∀ auth w1,
       ensureAuth {| auth_service := "microsoft-graph";
                     auth_profile := Emails.profile values;
                     requiredScopes := user GRAPH_SCOPES ++ mail GRAPH_SCOPES |} w
       = Ret auth w1 →
       ∃ response w',
         script w
         = Exit (if String.eqb (status response) "success" then 0 else 1) w'
         ∧ stdout w' = stdout w1 ++ [StringifiedJSON (stringify response)]
         ∧ (fetched w' = fetched w1 ∨ ∃ url, fetched w' = fetched w1 ++ [url])
         ∧ store w' = store w1).
Proof.
  intros script. subst script. split; [by intros -> |]. split.
  - intros -> Hc. unfold Emails.script, Emails.main. rewrite Hc. reflexivity.
  - intros -> Hc auth w1 Hauth. unfold Emails.script, Emails.main. rewrite Hc.
    cbv beta iota zeta delta [negb]. cbv [mbind proc_bind]. rewrite Hauth.
    destruct auth as [token | response].
    2: { exists response. eexists. unfold Emails.output. rewrite output_response_run.
         split; [reflexivity |]. split; [reflexivity |]. split; [by left | reflexivity]. }
    unfold try_catch. cbv [mbind proc_bind mret proc_ret].
    destruct (emails_run_ends (default "" (head positionals)) token
                (showParseInt (Emails.top values)) values w1)
      as (w' & Hw' & [(error & ->) | (response & ->)]).
    + exists (failure (errorMessage error)). eexists. unfold Emails.output.
      rewrite output_response_run. split; [reflexivity |].
      destruct Hw' as [-> | (url & ->)]; simpl; eauto 6.
    + exists response. eexists. split; [reflexivity |].
      destruct Hw' as [-> | (url & ->)]; simpl; eauto 6.
Qed.

Lemma summary_run (email : JSON) :
  summary email
  = match email with
    | JNull => inl (TypeError TypeErrorMessage (Some JNull) "email.id")
    | _ =>
        let read key := getOpt (Some email) key in
        if nullish (read "from")
        then inl (TypeError TypeErrorMessage (read "from") "email.from.emailAddress")
        else inr (JObj (member "id" (read "id")
                        ++ member "subject" (read "subject")
                        ++ member "from" (getOpt (read "from") "emailAddress")
                        ++ member "receivedDateTime" (read "receivedDateTime")
                        ++ member "bodyPreview" (read "bodyPreview")
                        ++ member "isRead" (read "isRead")
                        ++ member "hasAttachments" (read "hasAttachments")))
    end.
Proof.
  destruct (null_or_not email) as [-> | He]; [reflexivity |].
  unfold Emails.summary. cbv zeta. rewrite !(get_defined TypeErrorMessage email) by done.
  cbv [mbind thrown_bind mret thrown_ret].
  assert (∀ v, JSValue.get TypeErrorMessage v "emailAddress" "email.from.emailAddress"
               = if nullish v then inl (TypeError TypeErrorMessage v "email.from.emailAddress")
                 else inr (getOpt v "emailAddress")) as ->.
  { intros [[] |]; reflexivity. }
  destruct (nullish (getOpt (Some email) "from")); by destruct email.
Qed.

(** The run of [emails list] when the request is answered with a status in
    200-299 and a body that parses to an object whose [value] is an array:
    the folder name is a single, encoded segment of the one URL requested;
    when every email is an object with a sender ([from]) the one line is the
    success response with the summaries in the order of the body, and the
    exit code is 0; when an email has no sender, or is [null], the whole
    listing fails: the one line is an error response with the message of a
    [TypeError], and the exit code is 1. *)
Theorem emails_list_outcome values positionals w token w1 r fields emails :
  head positionals = Some "list" →
  ensureAuth {| auth_service := "microsoft-graph";
                auth_profile := Emails.profile values;
                requiredScopes := user GRAPH_SCOPES ++ mail GRAPH_SCOPES |} w
  = Ret (AuthToken token) w1 →
  let url :=
    "https://graph.microsoft.com/v1.0"
    +:+ ("/me/mailFolders/" +:+ Emails.encodeURIComponent (Emails.folder values)
         +:+ "/messages?$top=" +:+ showParseInt (Emails.top values)
         +:+ "&$orderby=receivedDateTime desc") in
  network (length (fetched w1)) url
    [("Authorization", "Bearer " +:+ token); ("Content-Type", "application/json")]
  = FetchResolved r →
  ok r = true →
  json (response_text r) = inr (JObj fields) →
  own "value" fields = Some (JArr emails) →
  (∀ data, Forall2 (λ email shaped, summary email = inr shaped) emails data →
     main values positionals w
     = Exit 0 (printed [StringifiedJSON (JObj [("status", JStr "success"); ("data", JArr data)])]
                 (requested url w1)))
  ∧ ((∃ email, email ∈ emails ∧ nullish (getOpt (Some email) "from") = true) →
     ∃ v site,
       main values positionals w
       = Exit 1 (printed [StringifiedJSON
                            (JObj [("status", JStr "error");
                                   ("error", JStr (TypeErrorMessage v site))])]
                   (requested url w1))).
Proof.
  intros Hc Hauth url Hn Hok Hj Hv.
  assert (∀ result,
            mapArray TypeErrorMessage (Some (JArr emails)) summary "response.value.map" = result →
            main values positionals w
            = match result with
              | inr data => Calendar.output (success data) (requested url w1)
              | inl error => Calendar.output (failure (errorMessage error)) (requested url w1)
              end) as Hrun.
  { intros result Hr. unfold Emails.main. rewrite Hc.
    change (negb (truthy (Some "list"))) with false.
    change (default "" (Some "list")) with "list". cbv beta iota zeta.
    cbv [mbind proc_bind]. rewrite Hauth. unfold try_catch. cbv [mbind proc_bind].
    unfold Emails.run. cbv beta iota zeta.
    change (String.eqb "list" "list") with true. cbv iota.
    unfold Emails.graphRequest, Emails.output.
    unfold try_bind at 1. unfold Calendar.graphRequest, try_bind, lift, fetch.
    fold url. rewrite Hn, Hok. cbv beta iota delta [negb settle]. rewrite Hj.
    unfold Emails.mapValue. simpl JSValue.get. rewrite Hv.
    cbv [mbind thrown_bind]. rewrite Hr. by destruct result. }
  split.
  - intros data Hd. apply each_inr in Hd.
    rewrite (Hrun (inr (JArr data))); [reflexivity |].
    unfold mapArray. cbv [mbind thrown_bind mret thrown_ret]. by rewrite Hd.
  - intros (email & Hin & Hfrom).
    assert (∃ v site, summary email = inl (TypeError TypeErrorMessage v site)) as (v0 & s0 & He).
    { rewrite summary_run. cbv beta zeta. rewrite Hfrom. destruct email; by eexists _, _. }
    destruct (proj2 (each_inl summary emails)
                (ex_intro _ email (ex_intro _ _ (conj Hin He)))) as [error Herr].
    assert (∃ v site, error = TypeError TypeErrorMessage v site) as (v & site & ->).
    { clear -Herr. induction emails as [| e emails IH]; [done |].
      simpl in Herr. destruct (summary e) as [e' | y] eqn:Hs.
      - injection Herr as <-. rewrite summary_run in Hs.
        destruct e; cbv beta zeta in Hs;
          try (injection Hs as <-; by eexists _, _);
          (destruct (nullish _); [injection Hs as <-; by eexists _, _ | done]).
      - destruct (each summary emails); [injection Herr as <-; by apply IH | done]. }
    exists v, site.
    rewrite (Hrun (inl (TypeError TypeErrorMessage v site))); [reflexivity |].
    unfold mapArray. cbv [mbind thrown_bind mret thrown_ret]. by rewrite Herr.
Qed.

End Emails_facts.

(** ** Runs of [check-auth-complete.ts], and further runs of [check-auth.ts] *)

Section Completion_facts.

Context `{Host}.
Variable GRAPH_SCOPES : GraphScopes.
Variable acquireTokenByRefreshToken :
  Msal.Configuration → Msal.RefreshTokenRequest → Msal.Settled.

Local Abbreviation check := (CheckAuth.main GRAPH_SCOPES acquireTokenByRefreshToken).

Lemma completion_output_run json result w :
  CheckAuthComplete.output json result w
  = Exit (if CheckAuthComplete.isComplete (CheckAuthComplete.status result) then 0 else 1)
         (printed (completionReport json result) w).
Proof.
  unfold CheckAuthComplete.output, completionReport, CheckAuthComplete.when.
  cbv [mbind proc_bind mret proc_ret process_exit].
  destruct json; [reflexivity |].
  destruct (CheckAuthComplete.status result); rewrite console_log_run;
    [destruct (JSString.truthy (CheckAuthComplete.account result))
    | destruct (JSString.truthy (CheckAuthComplete.error result)) ..];
    rewrite ?console_log_run, ?printed_printed; reflexivity.
Qed.

(** The three runs of [check-auth-complete]. *)
Lemma completion_run profile json w :
  CheckAuthComplete.main profile json w
  = match Credentials.getCredential "microsoft-graph" profile (store w) with
    | None =>
        Exit 1 (printed (completionReport json
                           {| CheckAuthComplete.status := CheckAuthComplete.pending;
                              CheckAuthComplete.account := None;
                              CheckAuthComplete.error := Some "No credentials found yet" |})
                  w)
    | Some c =>
        if Credentials.expiredAt (clock (ticks w)) c then
          Exit 1 (printed (completionReport json
                             {| CheckAuthComplete.status := CheckAuthComplete.failed;
                                CheckAuthComplete.account := None;
                                CheckAuthComplete.error :=
                                  Some "Credentials expired - please try authenticating again" |})
                    (ticked 1 w))
        else
          Exit 0 (printed (completionReport json
                             {| CheckAuthComplete.status := CheckAuthComplete.complete;
                                CheckAuthComplete.account := Some (Credentials.account c);
                                CheckAuthComplete.error := None |})
                    (ticked 1 w))
    end.
Proof.
  unfold CheckAuthComplete.main.
  cbv [mbind proc_bind mret proc_ret getCredential isTokenExpired Date_now].
  destruct (Credentials.getCredential "microsoft-graph" profile (store w)) as [c |];
    [| by rewrite completion_output_run].
  cbv beta iota. destruct (Credentials.expiredAt (clock (ticks w)) c);
    cbv beta iota delta [negb]; by rewrite completion_output_run.
Qed.

(** A run of [check-auth-complete] reports [pending] when no credential is
    stored for the profile, [complete], with the stored account, when the
    stored one is not expired at the one reading of the clock, and [failed]
    when it is; the exit code is 0 exactly for [complete].  The run writes
    its report (in JSON mode one line) and changes nothing in the store: it
    never attempts a refresh. *)
Theorem check_auth_complete_outcomes profile json w :
  let found := Credentials.getCredential "microsoft-graph" profile (store w) in
  ∃ result n,
    CheckAuthComplete.main profile json w
    = Exit (if CheckAuthComplete.isComplete (CheckAuthComplete.status result) then 0 else 1)
           (printed (completionReport json result) (ticked n w))
    ∧ (found = None →
         n = 0%nat
         ∧ completionReport true result
           = [StringifiedJSON (JObj [("status", JStr "pending");
                                     ("error", JStr "No credentials found yet")])])
    ∧ (∀ c, found = Some c → Credentials.expiredAt (clock (ticks w)) c = false →
         n = 1%nat
         ∧ completionReport true result
           = [StringifiedJSON (JObj [("status", JStr "complete");
                                     ("account", JStr (Credentials.account c))])])
    ∧ (∀ c, found = Some c → Credentials.expiredAt (clock (ticks w)) c = true →
         n = 1%nat
         ∧ completionReport true result
           = [StringifiedJSON
                (JObj [("status", JStr "failed");
                       ("error",
                        JStr "Credentials expired - please try authenticating again")])])
    ∧ (exitCode (CheckAuthComplete.main profile json w) = 0
       ↔ ∃ c, found = Some c ∧ Credentials.expiredAt (clock (ticks w)) c = false).
Proof.
  intros found. subst found. rewrite completion_run.
  destruct (Credentials.getCredential "microsoft-graph" profile (store w)) as [c |].
  2: { exists {| CheckAuthComplete.status := CheckAuthComplete.pending;
                  CheckAuthComplete.account := None;
                  CheckAuthComplete.error := Some "No credentials found yet" |}, 0%nat.
       split; [by destruct w |]. split; [done |]. split; [done |]. split; [done |].
       split; [done | by intros (c & ? & _)]. }
  destruct (Credentials.expiredAt (clock (ticks w)) c) eqn:He.
  - exists {| CheckAuthComplete.status := CheckAuthComplete.failed;
              CheckAuthComplete.account := None;
              CheckAuthComplete.error :=
                Some "Credentials expired - please try authenticating again" |}, 1%nat.
    split; [reflexivity |]. split; [done |]. split; [intros ? [= <-] ?; congruence |].
    split; [by intros ? [= <-] _ |]. split; [done |]. intros (c' & [= <-] & ?). congruence.
  - exists {| CheckAuthComplete.status := CheckAuthComplete.complete;
              CheckAuthComplete.account := Some (Credentials.account c);
              CheckAuthComplete.error := None |}, 1%nat.
    split; [reflexivity |]. split; [done |]. split; [by intros ? [= <-] _ |].
    split; [intros ? [= <-] ?; congruence |]. split; [by eauto | done].
Qed.

(** The exit code of a run of [check-auth]: 0 on a stored credential that is
    not expired, without a change of the store. *)
Lemma check_auth_fresh_run profile json w c :
  Credentials.getCredential "microsoft-graph" profile (store w) = Some c →
  Credentials.expiredAt (clock (ticks w)) c = false →
  exitCode (check profile json w) = 0
  ∧ store (finalWorld (check profile json w)) = store w.
Proof.
  intros Hc He. rewrite (main_fresh _ _ _ _ _ _ Hc He), output_run. done.
Qed.

(** [check-auth-complete] and [check-auth] agree on a credential that is
    not expired: from the same state, when the first exits with 0 so does
    the second, and it leaves the store as it is; and when [check-auth]
    exits with 1 (it found no credential, or could not refresh an expired
    one) then [check-auth-complete] exits with 1 as well. *)
Theorem complete_implies_valid profile json json' w :
  (exitCode (CheckAuthComplete.main profile json w) = 0 →
     exitCode (check profile json' w) = 0
     ∧ store (finalWorld (check profile json' w)) = store w)
  ∧ (exitCode (check profile json' w) = 1 →
     exitCode (CheckAuthComplete.main profile json w) = 1).
Proof.
  rewrite completion_run.
  destruct (Credentials.getCredential "microsoft-graph" profile (store w)) as [c |] eqn:Hc;
    [| done].
  destruct (Credentials.expiredAt (clock (ticks w)) c) eqn:He; [done |].
  destruct (check_auth_fresh_run profile json' w c Hc He) as [Hv Hs].
  split; [done |]. intros Hone. congruence.
Qed.

(** What a run of [check-auth] leaves of the store: the credentials of the
    other profiles and services in every run; the whole store when the run
    exits with 1, and when the stored credential is not expired.  A run makes
    no request of its own, and only adds to the lines written. *)
Theorem check_auth_store_frame profile json w :
  let result := check profile json w in
  (∀ service' profile', (service', profile') ≠ ("microsoft-graph", profile) →
     Credentials.getCredential service' profile' (store (finalWorld result))
     = Credentials.getCredential service' profile' (store w))
  ∧ (exitCode result = 1 → store (finalWorld result) = store w)
  ∧ (∀ c, Credentials.getCredential "microsoft-graph" profile (store w) = Some c →
       Credentials.expiredAt (clock (ticks w)) c = false →
       store (finalWorld result) = store w)
  ∧ fetched (finalWorld result) = fetched w
  ∧ ∃ ls, stdout (finalWorld result) = stdout w ++ ls.
Proof.
  intros result. subst result.
  destruct (Credentials.getCredential "microsoft-graph" profile (store w))
    as [credential |] eqn:Hc.
  2: { rewrite (main_no_credential _ _ _ _ _ Hc), output_run. simpl. eauto 10. }
  destruct (Credentials.expiredAt (clock (ticks w)) credential) eqn:He.
  2: { rewrite (main_fresh _ _ _ _ _ _ Hc He), output_run. simpl. eauto 10. }
  destruct (JSString.truthy (Credentials.refreshToken credential)) eqn:Hr.
  2: { rewrite (main_no_refresh_token _ _ _ _ _ _ Hc He Hr), output_run. simpl. eauto 10. }
  destruct (silentRefresh GRAPH_SCOPES acquireTokenByRefreshToken credential)
    as [error | [refreshed |]] eqn:Hs.
  - rewrite (main_refresh_rejected _ _ _ _ _ _ _ Hc He Hr Hs), output_run. simpl. eauto 10.
  - pose proof (main_refreshed _ _ profile json w credential refreshed Hc He Hr Hs) as Hrun.
    cbv zeta in Hrun. rewrite Hrun, output_run. simpl.
    split; [intros service' profile'; apply setCredential_other |].
    split; [done |]. split; [intros c [= <-]; congruence |]. eauto.
  - rewrite (main_refresh_null _ _ _ _ _ _ Hc He Hr Hs), output_run. simpl. eauto 10.
Qed.

(** After a successful silent refresh the next run of [check-auth], with
    whatever provider and in whatever mode, finds the stored credential not
    expired as long as the clock has not reached the new expiry: it reports
    [valid] with the seconds left and the account stored by the refresh,
    exits with 0 and leaves the store as it is. *)
Theorem refreshed_credential_is_reused profile json w credential result
    (provider' : Msal.Configuration → Msal.RefreshTokenRequest → Msal.Settled) json' :
  Credentials.getCredential "microsoft-graph" profile (store w) = Some credential →
  Credentials.expiredAt (clock (ticks w)) credential = true →
  JSString.truthy (Credentials.refreshToken credential) = true →
  silentRefresh GRAPH_SCOPES acquireTokenByRefreshToken credential
  = Msal.Resolved (Some result) →
  let w' := finalWorld (check profile json w) in
  let expiry :=
    match Msal.expiresOn result with
    | Some expiresOn => expiresOn
    | None => clock (S (ticks w)) + 3600000
    end in
  let account :=
    match Msal.account result with
    | Some a => Msal.username a
    | None => Credentials.account credential
    end in
  clock (ticks w') < expiry →
  CheckAuth.main GRAPH_SCOPES provider' profile json' w'
  = Exit 0 (printed (report json'
                       (CheckAuth.validFor
                          (Z.max 0 ((expiry - clock (S (ticks w'))) / 1000)) account))
              (ticked 2 w')).
Proof.
  intros Hc He Hr Hs w' expiry account Hfresh.
  pose proof (main_refreshed _ _ profile json w credential result Hc He Hr Hs) as Hrun.
  cbv zeta in Hrun. rewrite output_run in Hrun.
  subst w'. revert Hfresh. rewrite Hrun. simpl finalWorld. intros Hfresh.
  match goal with
  | |- CheckAuth.main _ _ _ _ ?w1 = _ =>
      rewrite (main_fresh GRAPH_SCOPES provider' profile json' w1 _
                 (setCredential_lookup _ _ _ _))
  end.
  - rewrite output_run. reflexivity.
  - unfold Credentials.expiredAt. simpl. apply Z.leb_gt. exact Hfresh.
Qed.

(** The report of a valid result in text mode: the status, the account, and
    the time left in minutes, the nearest whole number to the seconds left
    divided by 60 (a half counting upwards), so that less than 30 seconds
    show as 0 minutes. *)
Theorem text_report_minutes (expiresIn : Z) (account : string) (w : World) :
  account ≠ "" →
  ∃ mins,
    CheckAuth.output false (CheckAuth.validFor expiresIn account) w
    = Exit 0 (printed [Text "Auth status: Valid";
                       Text ("Account: " +:+ account);
                       Text ("Expires in: " +:+ pretty mins +:+ " minutes")] w)
    ∧ 60 * mins - 30 <= expiresIn < 60 * mins + 30
    ∧ (0 <= expiresIn < 30 → mins = 0).
Proof.
  intros Ha. exists (CheckAuth.roundMinutes expiresIn).
  rewrite output_run. unfold report. simpl.
  destruct (String.eqb_spec account ""); [done |]. simpl.
  split; [reflexivity |]. unfold CheckAuth.roundMinutes.
  split; [| intros ?; apply Z.div_small]; Z.div_mod_to_equations; lia.
Qed.

End Completion_facts.

(** ** Further runs of [auth.ts] *)

Section Auth_list_facts.

Context `{Host}.
Variable authenticate : Auth.Values → Proc unit.

(** [--list] wins over [--delete]: with both, the run is the listing, which
    ends normally, starts no sign-in and leaves the store as it is, so the
    profile named is not deleted. *)
Theorem list_takes_precedence (profile : string) (delete : bool) (w : World) :
  let values := {| Auth.profile := profile; Auth.list_flag := true;
                   Auth.delete_flag := delete |} in
  Auth.main authenticate values w = Auth.main authenticate (listValues profile) w
  ∧ ∃ ls n,
      Auth.main authenticate values w = Ret () (printed ls (ticked n w))
      ∧ store (finalWorld (Auth.main authenticate values w)) = store w
      ∧ Credentials.getCredential "microsoft-graph" profile
          (store (finalWorld (Auth.main authenticate values w)))
        = Credentials.getCredential "microsoft-graph" profile (store w).
Proof.
  intros values. split; [reflexivity |].
  destruct (main_list_run authenticate profile w) as (ls & n & Hrun & _).
  exists ls, n. change (Auth.main authenticate values w)
    with (Auth.main authenticate (listValues profile) w).
  rewrite Hrun. done.
Qed.

End Auth_list_facts.

Section Login_facts.

Import JSString Calendar AuthLogin.

Lemma split_cons (sep : ascii) (s : string) : ∃ first others, split sep s = first :: others.
Proof.
  induction s as [| c s (first & others & IH)]; simpl; [by eexists _, _ |].
  destruct (Ascii.eqb c sep); [by eexists _, _ |]. rewrite IH. by eexists _, _.
Qed.

Lemma join_cons (sep x : string) (first : string) (others : list string) :
  join sep (x :: first :: others) = x +:+ sep +:+ join sep (first :: others).
Proof. reflexivity. Qed.

(** The pieces that [split] gives are the text between the separators. *)
Lemma split_spec (sep : ascii) (s : string) :
  join (String sep EmptyString) (split sep s) = s
  ∧ length (split sep s) = S (occurrences sep s)
  ∧ ∀ x, x ∈ split sep s → occurrences sep x = 0%nat.
Proof.
  induction s as [| c s (Hj & Hl & Hx)]; simpl.
  { split; [done |]. split; [done |]. by intros x ->%list_elem_of_singleton. }
  destruct (split_cons sep s) as (first & others & Hs).
  destruct (Ascii.eqb_spec c sep) as [-> | Hc].
  - rewrite Hs in *. split; [| split].
    + rewrite join_cons, Hj. reflexivity.
    + simpl in *. lia.
    + intros x [-> | Hin]%elem_of_cons; [done | by apply Hx].
  - rewrite Hs in *. split; [| split].
    + destruct others as [| second others]; simpl in *; [by rewrite Hj |].
      by rewrite <- Hj.
    + simpl in *. lia.
    + intros x [-> | Hin]%elem_of_cons.
      * simpl. destruct (Ascii.eqb_spec c sep); [done |]. apply Hx. by left.
      * apply Hx. by right.
Qed.

Context `{Host}.
Variable GRAPH_SCOPES : GraphScopes.
Variable trim : string → string.
Variable toLocaleString : Z → string.
Variable authenticate : GraphClientOptions → list string → Try Msal.AuthenticationResult.
Variable noWait : Msal.Configuration → list string → bool → Try unit.

Local Abbreviation requestedScopes := (AuthLogin.requestedScopes GRAPH_SCOPES trim).
Local Abbreviation login :=
  (AuthLogin.login GRAPH_SCOPES trim toLocaleString authenticate noWait).

(** The scopes that the sign-in asks for: without [--scopes], or with an
    empty one, all the scopes of [GRAPH_SCOPES]; else the pieces of the
    option between its commas, each trimmed: one more than there are
    commas, none left out even when it is empty. *)
Theorem requested_scopes_of_option (more : Values) :
  (truthy (scopes more) = false →
     requestedScopes more = user GRAPH_SCOPES ++ mail GRAPH_SCOPES ++ calendar GRAPH_SCOPES)
  ∧ ∀ s, scopes more = Some s → s ≠ "" →
      ∃ pieces,
        requestedScopes more = trim <$> pieces
        ∧ join "," pieces = s
        ∧ length (requestedScopes more) = S (occurrences "," s)
        ∧ ∀ x, x ∈ pieces → occurrences "," x = 0%nat.
Proof.
  unfold AuthLogin.requestedScopes. split; [by intros -> |].
  intros s -> Hs. simpl. destruct (String.eqb_spec s ""); [done |]. simpl.
  destruct (split_spec "," s) as (Hj & Hl & Hx).
  exists (split "," s). split; [done |]. split; [done |].
  split; [by rewrite length_fmap | done].
Qed.

Lemma seq_run {A B} (m : Proc A) (k : Proc B) (w : World) :
  (m;; k) w = match m w with Ret _ w' => k w' | Exit code w' => Exit code w' end.
Proof. reflexivity. Qed.

Lemma login_header_run more values w :
  AuthLogin.when (negb (json more))
    (console_log (Text "Authenticating with Microsoft Graph...");;
     console_log (Text ("Profile: " +:+ Auth.profile values));;
     (if truthy (client_id more)
      then console_log
             (Text ("Client ID: "
                    +:+ default "14d82eec-204b-4c2f-b7e8-296a70dab67e" (client_id more)))
      else console_log (Text "Client ID: (using default Graph Explorer client)"));;
     AuthLogin.when (truthy (tenant_id more))
       (console_log (Text ("Tenant ID: " +:+ default "common" (tenant_id more))));;
     console_log (Text ("Scopes: " +:+ join ", " (requestedScopes more) +:+ nl))) w
  = Ret () (printed (loginHeader GRAPH_SCOPES trim more values) w).
Proof.
  unfold loginHeader, AuthLogin.when.
  destruct (json more); simpl negb; cbv iota.
  { cbv [mret proc_ret]. by rewrite printed_nil. }
  cbv [negb mbind proc_bind mret proc_ret]. rewrite !console_log_run.
  destruct (client_id more) as [c |]; destruct (tenant_id more) as [t |]; unfold truthy;
    repeat match goal with |- context [String.eqb ?a ""] => destruct (String.eqb a "") end;
    cbv [negb]; rewrite ?console_log_run, ?printed_printed; reflexivity.
Qed.

(** The sign-in without [--no-wait].  When [client.authenticate] rejects,
    the run exits with 1; with [--json] it has written one line, the error
    response with the message of the error, and without it nothing after
    the heading.  When it resolves the run ends normally; with [--json] it
    has written one line, the success response with the account and the
    expiry that the result has, and without it the lines of the success,
    the last of which names the profile.  With [--json] no heading is
    written, so every line of the run itself is a JSON document. *)
Theorem login_outcomes (more : Values) (values : Auth.Values) (w : World) :
  no_wait more = false →
  let client := {| client_profile := Auth.profile values;
                   client_clientId := client_id more;
                   client_tenantId := tenant_id more |} in
  let w0 := printed (loginHeader GRAPH_SCOPES trim more values) w in
  (json more = true → w0 = w)
  ∧ (∀ error w1,
       authenticate client (requestedScopes more) w0 = Ret (inl error) w1 →
       login more values w
       = Exit 1 (printed (if json more
                          then [StringifiedJSON
                                  (JObj [("status", JStr "error");
                                         ("error", JStr (errorMessage error))])]
                          else []) w1))
  ∧ (∀ result w1,
       authenticate client (requestedScopes more) w0 = Ret (inr result) w1 →
       ∃ ls,
         login more values w = Ret () (printed ls w1)
         ∧ (json more = true →
              ls = [StringifiedJSON
                      (JObj ([("status", JStr "success")]
                             ++ CheckAuth.member "account" JStr
                                  (Msal.username <$> Msal.account result)
                             ++ CheckAuth.member "expiresAt" JStr
                                  (toISOString <$> Msal.expiresOn result)))])
         ∧ (json more = false →
              head ls = Some (Text (nl +:+ "✓ Authentication successful!"))
              ∧ last ls
                = Some (Text (nl +:+ "Credentials saved to profile: " +:+ Auth.profile values)))).
Proof.
  intros Hw client w0. split.
  { intros Hj. subst w0. unfold loginHeader. rewrite Hj. apply printed_nil. }
  assert (∀ k : Proc unit, (AuthLogin.when (negb (json more))
                  (console_log (Text "Authenticating with Microsoft Graph...");;
                   console_log (Text ("Profile: " +:+ Auth.profile values));;
                   (if truthy (client_id more)
                    then console_log
                           (Text ("Client ID: "
                                  +:+ default "14d82eec-204b-4c2f-b7e8-296a70dab67e"
                                        (client_id more)))
                    else console_log (Text "Client ID: (using default Graph Explorer client)"));;
                   AuthLogin.when (truthy (tenant_id more))
                     (console_log (Text ("Tenant ID: " +:+ default "common" (tenant_id more))));;
                   console_log (Text ("Scopes: " +:+ join ", " (requestedScopes more) +:+ nl)));;
                k) w = k w0) as Hhead.
  { intros k. rewrite seq_run, login_header_run. reflexivity. }
  split.
  - intros error w1 Ha. unfold AuthLogin.login. cbv zeta. rewrite Hhead.
    unfold try_catch. cbv [mbind proc_bind]. rewrite Hw. unfold try_bind.
    fold client. rewrite Ha.
    destruct (json more); [rewrite console_log_run; reflexivity |].
    unfold console_error. cbv [mret proc_ret process_exit]. by rewrite printed_nil.
  - intros result w1 Ha. unfold AuthLogin.login. cbv zeta. rewrite Hhead.
    unfold try_catch. cbv [mbind proc_bind]. rewrite Hw. unfold try_bind.
    fold client. rewrite Ha. unfold lift.
    destruct (json more).
    + rewrite console_log_run. eexists. split; [reflexivity |]. split; [done | done].
    + unfold AuthLogin.when. cbv [mbind proc_bind mret proc_ret]. rewrite !console_log_run.
      destruct (truthy (client_id more)); rewrite ?console_log_run, ?printed_printed;
        (eexists; split; [reflexivity |]; split; [done | by intros _]).
Qed.

End Login_facts.

(** ** Further properties of the date resolution of [calendar.ts] *)

Section Relative_facts.

Import JSDate JSString Calendar.

Lemma monthStart_range m L : 0 <= L <= 1 → 0 <= monthStart m L <= 334 + L.
Proof.
  intros HL. unfold monthStart.
  repeat match goal with |- context [Z.eqb ?a ?b] => destruct (Z.eqb_spec a b) end; lia.
Qed.

Lemma monthStart_mono m j L : 0 <= L <= 1 → 0 <= m <= j → j <= 11 →
  monthStart m L <= monthStart j L.
Proof.
  intros HL Hm Hj. unfold monthStart.
  repeat match goal with |- context [Z.eqb ?a ?b] => destruct (Z.eqb_spec a b) end; lia.
Qed.

Lemma leap_range y : 0 <= leap y <= 1.
Proof. destruct (leap_cases y) as [-> | ->]; lia. Qed.

Lemma DayFromYear_next y k : 1 <= k → DayFromYear y + 365 + leap y <= DayFromYear (y + k).
Proof.
  intros Hk. rewrite <- Z.add_assoc, <- DaysInYear_leap, <- DayFromYear_succ.
  destruct (Z.eq_dec k 1) as [-> | Hne]; [lia |].
  pose proof (DayFromYear_lt (y + 1) (y + k)). lia.
Qed.

(** [MakeDay] grows with the month number and with the year. *)
Lemma MakeDay_month_mono y m n dt : 0 <= m <= 11 → 0 <= n →
  MakeDay y m dt <= MakeDay y (m + n) dt.
Proof.
  intros Hm Hn. unfold MakeDay.
  rewrite (Z.div_small m), (Z.mod_small m), Z.add_0_r by lia.
  assert (0 <= (m + n) mod 12 < 12) as Hj by (apply Z.mod_pos_bound; lia).
  assert (0 <= (m + n) / 12) as Hk by (apply Z.div_pos; lia).
  destruct (Z.eq_dec ((m + n) / 12) 0) as [Hz | Hnz].
  - rewrite Hz, Z.add_0_r.
    assert ((m + n) mod 12 = m + n) as ->.
    { pose proof (Z.div_mod (m + n) 12). lia. }
    pose proof (monthStart_mono m (m + n) (leap y) (leap_range y)).
    assert (m + n <= 11) by (pose proof (Z.div_mod (m + n) 12); lia). lia.
  - pose proof (DayFromYear_next y ((m + n) / 12) ltac:(lia)).
    pose proof (monthStart_range m (leap y) (leap_range y)).
    pose proof (monthStart_range ((m + n) mod 12) (leap (y + (m + n) / 12)) (leap_range _)).
    lia.
Qed.

Lemma MakeDay_year_mono y m n dt : 0 <= m <= 11 → 0 <= n →
  MakeDay y m dt <= MakeDay (y + n) m dt.
Proof.
  intros Hm Hn. unfold MakeDay.
  rewrite (Z.div_small m), (Z.mod_small m), !Z.add_0_r by lia.
  destruct (Z.eq_dec n 0) as [-> | Hnz]; [rewrite Z.add_0_r; lia |].
  pose proof (DayFromYear_next y n ltac:(lia)).
  assert (monthStart m (leap y) <= monthStart m (leap (y + n)) + leap y).
  { pose proof (leap_range y). pose proof (leap_range (y + n)). unfold monthStart.
    repeat match goal with |- context [Z.eqb ?a ?b] => destruct (Z.eqb_spec a b) end; lia. }
  lia.
Qed.

Context `{Host}.

Lemma ofLocal_of_fields t :
  constantOffset → ofLocal (localDay t) (localTimeOfDay t) = TimeClip t.
Proof.
  intros Hc. pose proof (ofLocal_shifted t 0 Hc) as Hs.
  by rewrite Z.mul_0_l, !Z.add_0_r in Hs.
Qed.

Lemma localDay_of_fields t :
  MakeDay (localYear t) (localMonth t) (localDate t) = localDay t.
Proof.
  unfold localYear, localMonth, localDate, localDay.
  pose proof (MakeDay_of_fields (LocalTime LocalTZA t) 0) as Hf.
  by rewrite !Z.add_0_r in Hf.
Qed.

Lemma ofLocal_not_before t day r :
  constantOffset →
  localDay t <= day → ofLocal day (localTimeOfDay t) = Some r → t <= r.
Proof.
  intros [offset Ho]. unfold ofLocal, TimeClip. intros Hd. case_match; [| done]. intros [= <-].
  pose proof (MakeDate_Day_TimeWithinDay (LocalTime LocalTZA t)) as Hsplit.
  unfold localDay, localTimeOfDay in *.
  revert Hd Hsplit.
  generalize (Day (LocalTime LocalTZA t)) (TimeWithinDay (LocalTime LocalTZA t)).
  intros d tod Hd Hsplit. unfold UTC, MakeDate, LocalTime, msPerDay in *.
  rewrite !Ho in *. lia.
Qed.

(** A relative date whose number is within the exact range of the engines,
    by its unit. *)
Lemma parseDate_relative_exact input amount unit t :
  relativeMatch (toLowerCase input) = Some (amount, unit) →
  let n := parseInt amount in
  withinExact unit n t = true →
  0 <= n
  ∧ parseDate input (Some t)
    = if Ascii.eqb unit "d" then ofLocal (localDay t + n) (localTimeOfDay t)
      else if Ascii.eqb unit "m" then
        ofLocal (MakeDay (localYear t) (localMonth t + n) (localDate t)) (localTimeOfDay t)
      else
        ofLocal (MakeDay (localYear t + n) (localMonth t) (localDate t)) (localTimeOfDay t).
Proof.
  intros Hm n Hex. pose proof Hm as (_ & _ & Hd & _)%relativeMatch_spec.
  split; [by apply parseInt_nonneg |].
  rewrite (parseDate_relative_eq _ _ _ _ Hm). unfold withinExact in Hex.
  destruct (Ascii.eqb unit "d"); [by apply setDate_relative |].
  destruct (Ascii.eqb unit "m"); [by apply setMonth_relative | by apply setFullYear_relative].
Qed.

(** In a zone of constant offset, and for a number within the exact range
    of the engines: a relative date [+Nd], [+Nm] or [+Ny] is never before
    its base date, and it is the base date itself when N is 0 (for a base
    date in the range of time values).  So the end of the range of
    [calendar list], when it is left out or given relative to the start, is
    not before the start. *)
Theorem relative_date_not_before_base (input amount : string) (unit : ascii) (t : Z) :
  constantOffset →
  relativeMatch (toLowerCase input) = Some (amount, unit) →
  (∀ r, withinExact unit (parseInt amount) t = true →
        parseDate input (Some t) = Some r → t <= r)
  ∧ (parseInt amount = 0 → withinExact unit 0 t = true →
     parseDate input (Some t) = TimeClip t)
  ∧ (∀ command values w s e w',
       command ≠ "today" → command ≠ "week" →
       end_ values = Some input ∨ (truthy (end_ values) = false ∧ input = "+30d") →
       dateRange command values w = Ret (Some s, Some e) w' →
       withinExact unit (parseInt amount) s = true → s <= e).
Proof.
  intros Hc Hm.
  assert (∀ t r, withinExact unit (parseInt amount) t = true →
                 parseDate input (Some t) = Some r → t <= r) as Hle.
  { clear t. intros t r Hex.
    destruct (parseDate_relative_exact input amount unit t Hm Hex) as [Hn ->].
    pose proof (localMonth_range t) as Hmonth.
    destruct (Ascii.eqb unit "d").
    { apply (ofLocal_not_before _ _ _ Hc). lia. }
    destruct (Ascii.eqb unit "m"); apply (ofLocal_not_before _ _ _ Hc);
      rewrite <- localDay_of_fields.
    - by apply MakeDay_month_mono.
    - by apply MakeDay_year_mono. }
  split; [apply Hle |]. split.
  - intros Hz Hex. rewrite <- Hz in Hex.
    destruct (parseDate_relative_exact input amount unit t Hm Hex) as [_ Hv].
    cbv zeta in Hv. rewrite Hv, Hz, !Z.add_0_r, localDay_of_fields, (ofLocal_of_fields _ Hc).
    by repeat case_match.
  - intros command values w s e w' H1 H2 Hend Hr Hex.
    rewrite (dateRange_default command values w H1 H2) in Hr. cbv zeta in Hr.
    injection Hr as Hs He _.
    assert (parseDate input (Some s) = Some e) as Hp.
    { rewrite <- He. destruct Hend as [Hi | [Hf ->]].
      - rewrite Hi in *. simpl default.
        assert (truthy (Some input) = true) as ->.
        { simpl. apply relativeMatch_spec in Hm as (Hl & _).
          destruct input; [done | done]. }
        by rewrite Hs.
      - rewrite Hf. by rewrite Hs. }
    by apply (Hle s e).
Qed.

(** Relative days add up in the local calendar: [+Bd] of the date that
    [+Ad] gives is the instant of the local day A + B days after the base
    date, at its time of day, when the zone has the local time of the date
    in between (and A and B are within the exact range of the engines).  In
    a zone of constant offset it always has, and the result is the base date
    moved by A + B times 24 hours. *)
Theorem relative_days_add_up (inputA inputB a b : string) (t r : Z) :
  relativeMatch (toLowerCase inputA) = Some (a, "d"%char) →
  relativeMatch (toLowerCase inputB) = Some (b, "d"%char) →
  parseInt a <= maxExactDate - 31 → parseInt b <= maxExactDate - 31 →
  parseDate inputA (Some t) = Some r →
  (isLocalTime (MakeDate (localDay t + parseInt a) (localTimeOfDay t)) →
     parseDate inputB (Some r)
     = ofLocal (localDay t + (parseInt a + parseInt b)) (localTimeOfDay t))
  ∧ (constantOffset →
     parseDate inputB (Some r) = TimeClip (t + (parseInt a + parseInt b) * msPerDay)).
Proof.
  intros Ha Hb Hba Hbb Hr.
  destruct (parseDate_relative_value inputA a "d"%char t Ha) as (_ & HA & _).
  destruct (parseDate_relative_value inputB b "d"%char r Hb) as (_ & HB & _).
  rewrite HA in Hr by done. rewrite HB by done.
  assert (isLocalTime (MakeDate (localDay t + parseInt a) (localTimeOfDay t)) →
          ofLocal (localDay r + parseInt b) (localTimeOfDay r)
          = ofLocal (localDay t + (parseInt a + parseInt b)) (localTimeOfDay t)) as Hsum.
  { intros Hx. apply ofLocal_fields in Hr as [-> ->];
      [| apply localTimeOfDay_range | exact Hx].
    by rewrite Z.add_assoc. }
  split; [exact Hsum |].
  intros Hc. rewrite Hsum by (by apply constantOffset_isLocalTime).
  by apply ofLocal_shifted.
Qed.

(** In a zone of constant offset [today] gives the start of the local day
    of the base date: at most the base date and less than a day before it;
    it gives the same again on its own result; and [tomorrow] is exactly one
    day after it. *)
Theorem today_is_start_of_day (today tomorrow : string) (t s : Z) :
  constantOffset →
  toLowerCase today = "today" → toLowerCase tomorrow = "tomorrow" →
  parseDate today (Some t) = Some s →
  s <= t < s + msPerDay
  ∧ parseDate today (Some s) = Some s
  ∧ (∀ r, parseDate tomorrow (Some t) = Some r → r = s + msPerDay).
Proof.
  intros Hc Hl Hl' Hs.
  destruct (parseDate_today_spec today (Some t) Hl) as [Heq Hf].
  destruct (Hf t s eq_refl Hs (constantOffset_isLocalTime _ Hc)) as [Hday Htime].
  rewrite Heq, bind_valid in Hs.
  pose proof Hc as [offset Ho].
  assert (s = t - localTimeOfDay t) as Hval.
  { revert Hs. unfold ofLocal, TimeClip. case_match; [| done]. intros [= <-].
    pose proof (MakeDate_Day_TimeWithinDay (LocalTime LocalTZA t)).
    unfold UTC, MakeDate, localDay, localTimeOfDay, LocalTime in *.
    rewrite !Ho in *. lia. }
  pose proof (localTimeOfDay_range t) as Hrange.
  split; [lia |]. split.
  - destruct (parseDate_today_spec today (Some s) Hl) as [-> _].
    rewrite bind_valid, Hday. exact Hs.
  - intros r Hr. rewrite (parseDate_tomorrow_spec _ _ Hl'), bind_valid in Hr.
    destruct (ofLocal (localDay t + 1) (localTimeOfDay t)) as [next |] eqn:Hn; [| done].
    rewrite bind_valid in Hr.
    apply ofLocal_fields in Hn as [Hd _];
      [| apply localTimeOfDay_range | by apply constantOffset_isLocalTime].
    rewrite Hd in Hr.
    revert Hr Hs. unfold ofLocal, TimeClip, UTC, MakeDate.
    rewrite !Ho. repeat case_match; intros; simplify_eq. lia.
Qed.

End Relative_facts.

(** ** Further runs of [calendar.ts] *)

Section Calendar_more_facts.

Import JSDate JSString Calendar.

(** The text that [doubleQuotes] gives reads back, as a string literal, as
    the text it was given. *)
Lemma readLiteral_doubleQuotes (q tail : string) (c : ascii) :
  c ≠ "'"%char →
  readLiteral (doubleQuotes q +:+ "'" +:+ String c tail) = Some (q, String c tail).
Proof.
  intros Hc. induction q as [| x q IH].
  - simpl. destruct (Ascii.eqb_spec c "'"); done.
  - cbn [doubleQuotes]. destruct (Ascii.eqb_spec x "'") as [-> | Hx].
    + change (String "'" (String "'" (doubleQuotes q)) +:+ "'" +:+ String c tail)
        with (String "'" (String "'" (doubleQuotes q +:+ "'" +:+ String c tail))).
      cbn [readLiteral]. change (Ascii.eqb "'" "'") with true. cbv iota.
      by rewrite IH.
    + change (String x (doubleQuotes q) +:+ "'" +:+ String c tail)
        with (String x (doubleQuotes q +:+ "'" +:+ String c tail)).
      cbn [readLiteral]. destruct (Ascii.eqb_spec x "'"); [done |]. by rewrite IH.
Qed.

Context `{Host}.
Variable GRAPH_SCOPES : GraphScopes.
Variable ensureAuth : EnsureAuthOptions → Proc AuthResult.
Variable network : nat → string → list (string * string) → Fetched.
Variable json : string → Thrown + JSON.
Variable mapFormatEventData : JSON → Thrown + JSON.
Variable formatEventData : JSON → Thrown + JSON.

Local Abbreviation run := (Calendar.run network json mapFormatEventData formatEventData).
Local Abbreviation main :=
  (Calendar.main GRAPH_SCOPES ensureAuth network json mapFormatEventData formatEventData).

(** A range with an Invalid Date, as an option that the [Date] constructor
    does not parse gives one, ends [calendar list], [today] and [week]
    before any request: [toISOString] throws, the one line written is the
    error response with the message of its [RangeError], and the exit code
    is 1. *)
Theorem invalid_range_makes_no_request values positionals w token w1 s e w2 :
  ensureAuth {| auth_service := "microsoft-graph";
                auth_profile := profile values;
                requiredScopes := user GRAPH_SCOPES ++ calendar GRAPH_SCOPES |} w
  = Ret (AuthToken token) w1 →
  commandOf positionals = "list" ∨ commandOf positionals = "today"
  ∨ commandOf positionals = "week" →
  dateRange (commandOf positionals) values w1 = Ret (s, e) w2 →
  s = None ∨ e = None →
  main values positionals w
  = Exit 1 (printed [StringifiedJSON
                       (JObj [("status", JStr "error"); ("error", JStr invalidTimeMessage)])]
              w2)
  ∧ fetched w2 = fetched w1
  ∧ (commandOf positionals = "list" → truthy (start values) = true →
     parseDate (default "" (start values)) (Some (clock (S (ticks w1)))) = None →
     s = None).
Proof.
  intros Hauth Hc Hrange Hinvalid. split; [| split].
  - unfold Calendar.main. cbv [mbind proc_bind]. rewrite Hauth, Hrange.
    unfold try_catch. cbv [mbind proc_bind]. unfold Calendar.run.
    assert (String.eqb (commandOf positionals) "list"
            || String.eqb (commandOf positionals) "today"
            || String.eqb (commandOf positionals) "week" = true) as ->.
    { destruct Hc as [-> | [-> | ->]]; reflexivity. }
    destruct s as [s |]; [destruct e as [e |]; [by destruct Hinvalid |] |]; reflexivity.
  - destruct (dateRange_frame (commandOf positionals) values w1) as (s' & e' & n & Hf).
    rewrite Hf in Hrange. by injection Hrange as _ _ <-.
  - intros Hl Hs Hp. rewrite Hl in Hrange.
    rewrite (dateRange_default "list" values w1) in Hrange by discriminate.
    cbv zeta in Hrange. rewrite Hs, Hp in Hrange. by injection Hrange as <- _ _.
Qed.

(** The request of [calendar search]: whatever the query, the text between
    the quotes of the filter, read as a string literal in which a doubled
    quote stands for one quote, is the query, and the literal ends where the
    script closes it; nothing but the quotes of the query is changed (it is
    not percent-encoded). *)
Theorem search_filter_reads_back values positionals w token w1 query :
  ensureAuth {| auth_service := "microsoft-graph";
                auth_profile := profile values;
                requiredScopes := user GRAPH_SCOPES ++ calendar GRAPH_SCOPES |} w
  = Ret (AuthToken token) w1 →
  commandOf positionals = "search" →
  Calendar.query values = Some query → query ≠ "" →
  ∃ literal,
    fetched (finalWorld (main values positionals w))
    = fetched w1
      ++ ["https://graph.microsoft.com/v1.0/me/events?$filter=contains(subject,'" +:+ literal]
    ∧ readLiteral literal
      = Some (query,
              ")&$top=" +:+ showParseInt (top values) +:+ "&$orderby=start/dateTime desc").
Proof.
  intros Hauth Hc Hq Hne.
  exists (doubleQuotes query +:+ "')&$top=" +:+ showParseInt (top values)
          +:+ "&$orderby=start/dateTime desc").
  split.
  - unfold Calendar.main. cbv [mbind proc_bind]. rewrite Hauth, Hc.
    destruct (dateRange_frame "search" values w1) as (s & e & n & ->).
    unfold try_catch. cbv [mbind proc_bind]. unfold Calendar.run.
    change (String.eqb "search" "list" || String.eqb "search" "today"
            || String.eqb "search" "week") with false.
    change (String.eqb "search" "view") with false.
    change (String.eqb "search" "search") with true. cbv iota.
    rewrite Hq.
    assert (truthy (Some query) = true) as ->.
    { unfold truthy. by destruct (String.eqb_spec query ""). }
    change (default "" (Some query)) with query. cbv beta iota zeta delta [negb].
    destruct (request_then_output network json token
                ("/me/events?$filter=contains(subject,'" +:+ doubleQuotes query
                 +:+ "')&$top=" +:+ showParseInt (top values)
                 +:+ "&$orderby=start/dateTime desc")
                mapFormatEventData (ticked n w1)) as [(error & ->) | (response & ->)];
      reflexivity.
  - apply (readLiteral_doubleQuotes query).  discriminate.
Qed.

(** The failures of the one request of [calendar list], [today] and [week]
    other than a response that is not ok: when [fetch] rejects, when the
    body of an ok response does not parse, and when its shaping throws, the
    run has made the one request, writes one line, the error response, and
    exits with 1.  The error of the response is the message of what was
    thrown when that is an [Error], and [Unknown error] otherwise. *)
Theorem calendar_request_failure values positionals w token w1 s e w2 error :
  ensureAuth {| auth_service := "microsoft-graph";
                auth_profile := profile values;
                requiredScopes := user GRAPH_SCOPES ++ calendar GRAPH_SCOPES |} w
  = Ret (AuthToken token) w1 →
  commandOf positionals = "list" ∨ commandOf positionals = "today"
  ∨ commandOf positionals = "week" →
  dateRange (commandOf positionals) values w1 = Ret (Some s, Some e) w2 →
  let url :=
    "https://graph.microsoft.com/v1.0"
    +:+ ("/me/calendarView?startDateTime=" +:+ toISOString s +:+ "&endDateTime="
         +:+ toISOString e +:+ "&$top=" +:+ showParseInt (top values)
         +:+ "&$orderby=start/dateTime") in
  let answer :=
    network (length (fetched w2)) url
      [("Authorization", "Bearer " +:+ token); ("Content-Type", "application/json")] in
  answer = FetchRejected error
  ∨ (∃ r, answer = FetchResolved r ∧ ok r = true
          ∧ (json (response_text r) = inl error
             ∨ ∃ body, json (response_text r) = inr body
                       ∧ mapFormatEventData body = inl error)) →
  main values positionals w
  = Exit 1 (printed [StringifiedJSON
                       (JObj [("status", JStr "error");
                              ("error", JStr (match error with
                                              | ThrowError message => message
                                              | ThrowOther => "Unknown error"
                                              end))])]
              (requested url w2)).
Proof.
  intros Hauth Hc Hrange url answer Hfail.
  unfold Calendar.main. cbv [mbind proc_bind]. rewrite Hauth, Hrange.
  unfold try_catch. cbv [mbind proc_bind]. unfold Calendar.run.
  assert (String.eqb (commandOf positionals) "list"
          || String.eqb (commandOf positionals) "today"
          || String.eqb (commandOf positionals) "week" = true) as ->.
  { destruct Hc as [-> | [-> | ->]]; reflexivity. }
  unfold toISO, resolve, settle, try_bind at 1 2.
  unfold try_bind at 1. unfold Calendar.graphRequest, try_bind, lift, fetch.
  fold url. fold answer.
  destruct Hfail as [-> | (r & -> & Hok & [Hj | (body & Hj & Hshape)])].
  - by destruct error.
  - rewrite Hok. cbv beta iota delta [negb settle]. rewrite Hj. by destruct error.
  - rewrite Hok. cbv beta iota delta [negb settle]. rewrite Hj, Hshape. by destruct error.
Qed.

End Calendar_more_facts.

(** ** Where the requests go *)

Section Request_facts.

Import JSValue JSString Calendar.

Context `{Host}.
Variable TypeErrorMessage : Value → string → string.
Variable GRAPH_SCOPES : GraphScopes.
Variable ensureAuth : EnsureAuthOptions → Proc AuthResult.
Variable network : nat → string → list (string * string) → Fetched.
Variable json : string → Thrown + JSON.
Variable mapFormatEventData : JSON → Thrown + JSON.
Variable formatEventData : JSON → Thrown + JSON.

(** The world after a request with its body shaped and written. *)
Lemma request_then_output_fetched token endpoint (shape : JSON → Thrown + JSON) w
    (handler : Thrown → Proc unit) :
  (∀ error w0, fetched (finalWorld (handler error w0)) = fetched w0) →
  fetched (finalWorld
             (try_catch
                (try_bind (Calendar.graphRequest network json token endpoint)
                   (λ response, try_bind (settle (shape response))
                                  (λ data, Calendar.output (success data) : Try unit)))
                handler w))
  = fetched w ++ ["https://graph.microsoft.com/v1.0" +:+ endpoint].
Proof.
  intros Hh. unfold try_catch. cbv [mbind proc_bind].
  destruct (request_then_output network json token endpoint shape w)
    as [(error & ->) | (response & ->)]; [| reflexivity].
  by rewrite Hh.
Qed.

(** A run of [calendar.ts] or of [emails.ts] sends the token that
    [ensureAuth] gave to one place at most: the one request it may make,
    whatever the command and the options, is to a URL that starts with
    [https://graph.microsoft.com/v1.0/me/]. *)
Theorem requests_go_to_graph w token w1 :
  (∀ values positionals,
     ensureAuth {| auth_service := "microsoft-graph";
                   auth_profile := profile values;
                   requiredScopes := user GRAPH_SCOPES ++ calendar GRAPH_SCOPES |} w
     = Ret (AuthToken token) w1 →
     let final :=
       finalWorld (Calendar.main GRAPH_SCOPES ensureAuth network json mapFormatEventData
                     formatEventData values positionals w) in
     fetched final = fetched w1
     ∨ ∃ rest, fetched final
               = fetched w1 ++ ["https://graph.microsoft.com/v1.0/me/" +:+ rest])
  ∧ (∀ values positionals,
       ensureAuth {| auth_service := "microsoft-graph";
                     auth_profile := Emails.profile values;
                     requiredScopes := user GRAPH_SCOPES ++ mail GRAPH_SCOPES |} w
       = Ret (AuthToken token) w1 →
       let final :=
         finalWorld (Emails.main TypeErrorMessage GRAPH_SCOPES ensureAuth network json
                       values positionals w) in
       fetched final = fetched w
       ∨ fetched final = fetched w1
       ∨ ∃ rest, fetched final
                 = fetched w1 ++ ["https://graph.microsoft.com/v1.0/me/" +:+ rest]).
Proof.
  assert (∀ error w0,
            fetched (finalWorld
                       ((λ error, Calendar.output (failure (errorMessage error)) : Proc unit)
                          error w0))
            = fetched w0) as Hh by done.
  split.
  - intros values positionals Hauth final. subst final.
    unfold Calendar.main. cbv [mbind proc_bind]. rewrite Hauth.
    destruct (dateRange_frame (commandOf positionals) values w1) as (s & e & n & ->).
    unfold Calendar.run.
    destruct (String.eqb (commandOf positionals) "list"
              || String.eqb (commandOf positionals) "today"
              || String.eqb (commandOf positionals) "week").
    { destruct s as [s |]; [| by left]. destruct e as [e |]; [| by left].
      right.
      exists ("calendarView?startDateTime=" +:+ toISOString s +:+ "&endDateTime="
              +:+ toISOString e +:+ "&$top=" +:+ showParseInt (top values)
              +:+ "&$orderby=start/dateTime").
      exact (request_then_output_fetched token _ mapFormatEventData (ticked n w1) _ Hh). }
    destruct (String.eqb (commandOf positionals) "view").
    { destruct (truthy (id values)); cbv beta iota delta [negb]; [| by left].
      right. exists ("events/" +:+ default "" (id values)).
      exact (request_then_output_fetched token _ formatEventData (ticked n w1) _ Hh). }
    destruct (String.eqb (commandOf positionals) "search"); [| by left].
    destruct (truthy (query values)); cbv beta iota delta [negb]; [| by left].
    right.
    exists ("events?$filter=contains(subject,'" +:+ doubleQuotes (default "" (query values))
            +:+ "')&$top=" +:+ showParseInt (top values)
            +:+ "&$orderby=start/dateTime desc").
    exact (request_then_output_fetched token _ mapFormatEventData (ticked n w1) _ Hh).
  - intros values positionals Hauth final. subst final.
    unfold Emails.main.
    destruct (truthy (head positionals)); cbv beta iota zeta delta [negb]; [| by left].
    right. cbv [mbind proc_bind]. rewrite Hauth.
    unfold Emails.run, Emails.graphRequest, Emails.output.
    destruct (String.eqb (default "" (head positionals)) "list").
    { right.
      exists ("mailFolders/" +:+ Emails.encodeURIComponent (Emails.folder values)
              +:+ "/messages?$top=" +:+ showParseInt (Emails.top values)
              +:+ "&$orderby=receivedDateTime desc").
      exact (request_then_output_fetched token _
               (λ response, Emails.mapValue TypeErrorMessage response
                              (Emails.summary TypeErrorMessage)) w1 _ Hh). }
    destruct (String.eqb (default "" (head positionals)) "read").
    { destruct (truthy (Emails.id values)); cbv beta iota delta [negb]; [| by left].
      right.
      exists ("messages/" +:+ default "" (Emails.id values)
              +:+ "?$select=id,subject,from,receivedDateTime,body,bodyPreview,isRead,hasAttachments").
      exact (request_then_output_fetched token _ (Emails.detail TypeErrorMessage) w1 _ Hh). }
    destruct (String.eqb (default "" (head positionals)) "search").
    { destruct (truthy (Emails.query values)); cbv beta iota delta [negb]; [| by left].
      right.
      exists ("messages?$search=" +:+ Emails.dquote
              +:+ Emails.encodeURIComponent (default "" (Emails.query values))
              +:+ Emails.dquote +:+ "&$top=" +:+ showParseInt (Emails.top values)
              +:+ "&$orderby=receivedDateTime desc").
      exact (request_then_output_fetched token _
               (λ response, Emails.mapValue TypeErrorMessage response
                              (Emails.summary TypeErrorMessage)) w1 _ Hh). }
    destruct (String.eqb (default "" (head positionals)) "folders"); [| by left].
    right. exists "mailFolders?$top=50".
    exact (request_then_output_fetched token _
             (λ response, Emails.mapValue TypeErrorMessage response
                            (Emails.folderData TypeErrorMessage)) w1 _ Hh).
Qed.

(** The URLs of [emails list] and [emails search]: the folder name and the
    query are in the URL in their encoded form, which holds none of the
    characters that delimit the parts of a URL or close the quoted search
    text, which is the name or the query itself when that is made of
    unreserved characters only, and which is different for different names
    and queries. *)
Theorem emails_urls_are_encoded values positionals w token w1 :
  ensureAuth {| auth_service := "microsoft-graph";
                auth_profile := Emails.profile values;
                requiredScopes := user GRAPH_SCOPES ++ mail GRAPH_SCOPES |} w
  = Ret (AuthToken token) w1 →
  let final :=
    finalWorld (Emails.main TypeErrorMessage GRAPH_SCOPES ensureAuth network json
                  values positionals w) in
  let encoded s := Emails.encodeURIComponent s in
  (head positionals = Some "list" →
     fetched final
     = fetched w1
       ++ ["https://graph.microsoft.com/v1.0/me/mailFolders/" +:+ encoded (Emails.folder values)
           +:+ "/messages?$top=" +:+ showParseInt (Emails.top values)
           +:+ "&$orderby=receivedDateTime desc"])
  ∧ (∀ query, head positionals = Some "search" → Emails.query values = Some query →
       query ≠ "" →
       fetched final
       = fetched w1
         ++ ["https://graph.microsoft.com/v1.0/me/messages?$search=" +:+ Emails.dquote
             +:+ encoded query +:+ Emails.dquote +:+ "&$top="
             +:+ showParseInt (Emails.top values) +:+ "&$orderby=receivedDateTime desc"])
  ∧ (∀ s c, c ∈ urlDelimiters → c ∉ String.list_ascii_of_string (encoded s))
  ∧ (∀ s, Forall (λ c, Emails.isUnreserved c = true) (String.list_ascii_of_string s) →
       encoded s = s)
  ∧ (∀ s s', encoded s = encoded s' → s = s').
Proof.
  intros Hauth final encoded. subst final encoded. cbv beta.
  assert (∀ error w0,
            fetched (finalWorld
                       ((λ error, Calendar.output (failure (errorMessage error)) : Proc unit)
                          error w0))
            = fetched w0) as Hh by done.
  split; [| split; [| split; [| split]]].
  - intros Hc. unfold Emails.main. rewrite Hc.
    change (negb (truthy (Some "list"))) with false.
    change (default "" (Some "list")) with "list". cbv beta iota zeta.
    cbv [mbind proc_bind]. rewrite Hauth.
    exact (request_then_output_fetched token _
             (λ response, Emails.mapValue TypeErrorMessage response
                            (Emails.summary TypeErrorMessage)) w1 _ Hh).
  - intros query Hc Hq Hne. unfold Emails.main. rewrite Hc.
    change (negb (truthy (Some "search"))) with false.
    change (default "" (Some "search")) with "search". cbv beta iota zeta.
    cbv [mbind proc_bind]. rewrite Hauth.
    unfold Emails.run.
    change (String.eqb "search" "list") with false.
    change (String.eqb "search" "read") with false.
    change (String.eqb "search" "search") with true. cbv iota.
    rewrite Hq.
    assert (truthy (Some query) = true) as ->.
    { unfold truthy. by destruct (String.eqb_spec query ""). }
    change (default "" (Some query)) with query. cbv beta iota zeta delta [negb].
    exact (request_then_output_fetched token _
             (λ response, Emails.mapValue TypeErrorMessage response
                            (Emails.summary TypeErrorMessage)) w1 _ Hh).
  - intros s. by destruct (encodeURIComponent_safe s) as (_ & Hd & _).
  - intros s. by destruct (encodeURIComponent_safe s) as (_ & _ & Hu & _).
  - intros s. by destruct (encodeURIComponent_safe s) as (_ & _ & _ & Hi).
Qed.

End Request_facts.

(** ** The listing of [auth.ts] is complete *)

Section Auth_listing_facts.

Import Auth.

Context `{Host}.
Variable authenticate : Values → Proc unit.

Lemma forEach_shows (profiles : list string) (w : World) (p : string)
    (c : Credentials.Credential) :
  p ∈ profiles →
  Credentials.getCredential "microsoft-graph" p (store w) = Some c →
  ∃ before after i n,
    forEach profiles printProfile w
    = Ret () (printed (before ++ profileBlock p c (clock (i + ticks w)) ++ after) (ticked n w))
    ∧ (i < n)%nat.
Proof.
  revert w. induction profiles as [| q rest IH]; intros w Hin Hc; [by apply elem_of_nil in Hin |].
  simpl. cbv [mbind proc_bind]. rewrite printProfile_run.
  destruct (decide (q = p)) as [-> | Hne].
  - rewrite Hc.
    destruct (forEach_printProfile_run rest
                (printed (profileBlock p c (clock (ticks w))) (ticked 1 w)))
      as (ls & n & -> & _).
    exists [], ls, 0%nat, (n + 1)%nat. split; [| lia].
    rewrite ticked_printed, printed_printed. unfold ticked, printed. simpl.
    do 2 f_equal. lia.
  - apply elem_of_cons in Hin as [-> | Hin]; [done |].
    destruct (Credentials.getCredential "microsoft-graph" q (store w)) as [cq |] eqn:Hq.
    + destruct (IH (printed (profileBlock q cq (clock (ticks w))) (ticked 1 w)) Hin Hc)
        as (before & after & i & n & -> & Hlt).
      exists (profileBlock q cq (clock (ticks w)) ++ before), after, (i + 1)%nat, (n + 1)%nat.
      split; [| lia].
      rewrite ticked_printed, printed_printed. unfold ticked, printed. simpl.
      rewrite <- !app_assoc. replace (i + 1 + ticks w)%nat with (i + S (ticks w))%nat by lia.
      do 2 f_equal. lia.
    + destruct (IH w Hin Hc) as (before & after & i & n & -> & Hlt).
      by exists before, after, i, n.
Qed.

(** [auth --list] leaves no stored profile out: for every profile with a
    stored credential the lines written hold, after the heading of the
    listing, the whole block of the profile (its heading, account, scopes,
    client and tenant when stored, and status), with the status as of a
    reading of the clock during the run: of the [n] readings that the run
    takes, from the one the world stands at, it is the [i]-th, with
    [i < n]. *)
Theorem list_shows_every_profile (profile p : string) (c : Credentials.Credential) (w : World) :
  Credentials.getCredential "microsoft-graph" p (store w) = Some c →
  ∃ before after i n,
    Auth.main authenticate (listValues profile) w
    = Ret () (printed ([Text ("Microsoft Graph credential profiles:" +:+ JSString.nl)]
                       ++ before ++ profileBlock p c (clock (i + ticks w)) ++ after)
                (ticked n w))
    ∧ (i < n)%nat
    ∧ Text ("  " +:+ p +:+ ":") ∈ profileBlock p c (clock (i + ticks w))
    ∧ Text ("    Status: "
            +:+ (if Credentials.expiresAt c <? clock (i + ticks w) then "EXPIRED" else "Valid"))
      ∈ profileBlock p c (clock (i + ticks w)).
Proof.
  intros Hc.
  assert (p ∈ Credentials.listProfiles "microsoft-graph" (store w)) as Hin.
  { revert Hc. unfold Credentials.getCredential, Credentials.listProfiles.
    destruct (store w !! "microsoft-graph") as [ps |]; simpl; [| done]. intros Hp.
    apply list_elem_of_fmap. exists (p, c). split; [done |]. by apply elem_of_map_to_list. }
  unfold Auth.main, listValues. simpl.
  cbv [mbind proc_bind mret proc_ret listProfiles].
  destruct (length (Credentials.listProfiles "microsoft-graph" (store w)) =? 0)%nat eqn:Hl.
  { apply Nat.eqb_eq in Hl. apply length_zero_iff_nil in Hl. rewrite Hl in Hin.
    by apply elem_of_nil in Hin. }
  rewrite console_log_run.
  destruct (forEach_shows (Credentials.listProfiles "microsoft-graph" (store w))
              (printed [Text ("Microsoft Graph credential profiles:" +:+ JSString.nl)] w)
              p c Hin Hc) as (before & after & i & n & -> & Hlt).
  exists before, after, i, n. split.
  { by rewrite ticked_printed, printed_printed. }
  split; [exact Hlt |].
  unfold profileBlock, listedAsExpired. split.
  - rewrite !elem_of_app. left. by left.
  - rewrite !elem_of_app. do 3 right. by left.
Qed.

End Auth_listing_facts.

(** ** The further properties at sample runs *)

(** [formatEventData_members] at an event with one attendee, whose [isAllDay]
    is [null] and which has no location. *)
Lemma formatEventData_members_witness :
  CalendarEvents.formatEventData sampleTypeErrorMessage sampleEvent
  = inr (JObj [("id", JStr "AAMk1");
               ("subject", JStr "Review");
               ("isAllDay", JBool false);
               ("location", JNull);
               ("organizer", JNull);
               ("attendees",
                JArr [JObj [("email", JObj [("address", JStr "ann@example.com")]);
                            ("status", JStr "accepted")]]);
               ("bodyPreview", JNull)])
  ∧ ∃ fields,
      CalendarEvents.formatEventData sampleTypeErrorMessage sampleEvent = inr (JObj fields)
      ∧ JSValue.own "isAllDay" fields = Some (JBool false)
      ∧ JSValue.own "location" fields = Some JNull.
Proof.
  split; [reflexivity |].
  destruct (formatEventData_members sampleTypeErrorMessage sampleEvent _ eq_refl)
    as (fields & items & attendees & Hd & _ & Hall & Hloc & _).
  exists fields. split; [by rewrite <- Hd |]. split; [exact Hall | exact Hloc].
Defined.

(** [calendar_events_success] at [calendar today] at time 0 in the UTC zone,
    with a body of one event. *)
Lemma calendar_events_success_witness :
  CalendarEvents.main (H := utcHost 0) sampleTypeErrorMessage sampleScopes sampleAuth
    (sampleNetwork okResponse) (sampleBody [sampleEvent])
    (sampleValues None None) ["today"] emptyWorld
  = Exit 0
      {| store := ∅; ticks := 1;
         stdout :=
           [StringifiedJSON
              (JObj [("status", JStr "success");
                     ("data",
                      JArr [JObj [("id", JStr "AAMk1");
                                  ("subject", JStr "Review");
                                  ("isAllDay", JBool false);
                                  ("location", JNull);
                                  ("organizer", JNull);
                                  ("attendees",
                                   JArr [JObj [("email",
                                                JObj [("address", JStr "ann@example.com")]);
                                               ("status", JStr "accepted")]]);
                                  ("bodyPreview", JNull)]])])];
         fetched := ["https://graph.microsoft.com/v1.0/me/calendarView?startDateTime=0&endDateTime=86399999&$top=10&$orderby=start/dateTime"] |}.
Proof.
  pose proof (calendar_events_success (H := utcHost 0) sampleTypeErrorMessage sampleScopes
                sampleAuth (sampleNetwork okResponse) (sampleBody [sampleEvent])
                (sampleValues None None) ["today"] emptyWorld "token" emptyWorld
                0 86399999 (ticked 1 emptyWorld)
                {| Calendar.response_status := 200; Calendar.response_text := "{}" |}
                [("value", JArr [sampleEvent])] [sampleEvent]
                [JObj [("id", JStr "AAMk1");
                       ("subject", JStr "Review");
                       ("isAllDay", JBool false);
                       ("location", JNull);
                       ("organizer", JNull);
                       ("attendees",
                        JArr [JObj [("email", JObj [("address", JStr "ann@example.com")]);
                                    ("status", JStr "accepted")]]);
                       ("bodyPreview", JNull)]]
                eq_refl ltac:(right; left; reflexivity) ltac:(vm_compute; reflexivity)
                eq_refl eq_refl eq_refl eq_refl
                ltac:(repeat constructor)) as Hrun.
  etransitivity; [exact Hrun |]. vm_compute. reflexivity.
Defined.

(** [emails_list_outcome] at a listing whose second email, a draft, has no
    sender: the run ends with the error of the [TypeError]. *)
Lemma emails_list_outcome_witness :
  Emails.main (H := utcHost 0) sampleTypeErrorMessage sampleScopes sampleAuth
    (sampleNetwork okResponse) (sampleBody [sampleEmail; JObj [("id", JStr "draft")]])
    sampleEmailValues ["list"] emptyWorld
  = Exit 1
      {| store := ∅; ticks := 0;
         stdout := [StringifiedJSON
                      (JObj [("status", JStr "error");
                             ("error", JStr "TypeError: email.from.emailAddress")])];
         fetched := ["https://graph.microsoft.com/v1.0/me/mailFolders/Sent%20Items/messages?$top=10&$orderby=receivedDateTime desc"] |}.
Proof.
  destruct (emails_list_outcome (H := utcHost 0) sampleTypeErrorMessage sampleScopes sampleAuth
              (sampleNetwork okResponse) (sampleBody [sampleEmail; JObj [("id", JStr "draft")]])
              sampleEmailValues ["list"] emptyWorld "token" emptyWorld
              {| Calendar.response_status := 200; Calendar.response_text := "{}" |}
              [("value", JArr [sampleEmail; JObj [("id", JStr "draft")]])]
              [sampleEmail; JObj [("id", JStr "draft")]]
              eq_refl eq_refl eq_refl eq_refl eq_refl eq_refl) as [_ Hfail].
  destruct Hfail as (v & site & Hrun).
  { exists (JObj [("id", JStr "draft")]). split; [| reflexivity]. right. left. }
  pose proof Hrun as Hsame. vm_compute in Hsame.
  etransitivity; [exact Hrun |]. symmetry. exact Hsame.
Defined.

(** [refreshed_credential_is_reused]: after a refresh to the expiry 5,000,000
    the next run, with a provider that would reject, reports 4998 seconds
    left. *)
Lemma refreshed_credential_is_reused_witness :
  CheckAuth.main (H := utcHost 1000) sampleScopes (sampleProvider (Msal.Rejected ThrowOther))
    "default" true
    (finalWorld
       (CheckAuth.main (H := utcHost 1000) sampleScopes
          (sampleProvider (Msal.Resolved (Some (sampleResult (Some 5000000)))))
          "default" true (sampleWorld (sampleCredential 500 (Some "refresh")))))
  = Exit 0
      (printed [StringifiedJSON
                  (JObj [("status", JStr "valid"); ("expiresIn", JNum 4998);
                         ("account", JStr "user@example.com")])]
         (ticked 2
            (finalWorld
               (CheckAuth.main (H := utcHost 1000) sampleScopes
                  (sampleProvider (Msal.Resolved (Some (sampleResult (Some 5000000)))))
                  "default" true (sampleWorld (sampleCredential 500 (Some "refresh"))))))).
Proof.
  etransitivity.
  - apply (refreshed_credential_is_reused (H := utcHost 1000) sampleScopes
             (sampleProvider (Msal.Resolved (Some (sampleResult (Some 5000000)))))
             "default" true (sampleWorld (sampleCredential 500 (Some "refresh")))
             (sampleCredential 500 (Some "refresh")) (sampleResult (Some 5000000))
             (sampleProvider (Msal.Rejected ThrowOther)) true
             eq_refl eq_refl eq_refl eq_refl).
    vm_compute. reflexivity.
  - vm_compute. reflexivity.
Defined.

(** [text_report_minutes] at 29 seconds left: 0 minutes. *)
Lemma text_report_minutes_witness :
  ∃ mins,
    CheckAuth.output false (CheckAuth.validFor 29 "user@example.com") emptyWorld
    = Exit 0 (printed [Text "Auth status: Valid";
                       Text "Account: user@example.com";
                       Text ("Expires in: " +:+ pretty mins +:+ " minutes")] emptyWorld)
    ∧ mins = 0.
Proof.
  destruct (text_report_minutes 29 "user@example.com" emptyWorld ltac:(discriminate))
    as (mins & Hrun & _ & Hzero).
  exists mins. split; [exact Hrun | apply Hzero; lia].
Defined.

(** [login_outcomes] at a sign-in with [--json] that the provider rejects. *)
Lemma login_outcomes_witness :
  AuthLogin.login (H := utcHost 0) sampleScopes (λ s, s) (λ t, pretty t)
    (λ _ _ w, Ret (inl (ThrowError "denied")) w) (λ _ _ _ w, Ret (inr ()) w)
    (sampleLogin true) (listValues "default") emptyWorld
  = Exit 1
      (printed [StringifiedJSON (JObj [("status", JStr "error"); ("error", JStr "denied")])]
         emptyWorld).
Proof.
  destruct (login_outcomes (H := utcHost 0) sampleScopes (λ s, s) (λ t, pretty t)
              (λ _ _ w, Ret (inl (ThrowError "denied")) w) (λ _ _ _ w, Ret (inr ()) w)
              (sampleLogin true) (listValues "default") emptyWorld eq_refl)
    as (_ & Hfail & _).
  exact (Hfail (ThrowError "denied") emptyWorld eq_refl).
Defined.

(** [relative_date_not_before_base] at [+1m] from 2024-01-31T00:00:00Z in the
    UTC zone, which is 2024-03-02T00:00:00Z. *)
Lemma relative_date_not_before_base_witness :
  constantOffset (H := utcHost 0)
  ∧ ∃ r, Calendar.parseDate (H := utcHost 0) "+1m" (Some 1706659200000) = Some r
         ∧ 1706659200000 <= r.
Proof.
  assert (constantOffset (H := utcHost 0)) as Hc by (by exists 0).
  split; [exact Hc |].
  destruct (relative_date_not_before_base (H := utcHost 0) "+1m" "1" "m" 1706659200000
              Hc eq_refl)
    as (Hle & _).
  exists 1709337600000.
  assert (Calendar.parseDate (H := utcHost 0) "+1m" (Some 1706659200000) = Some 1709337600000)
    as Hr by (vm_compute; reflexivity).
  split; [exact Hr | exact (Hle _ eq_refl Hr)].
Defined.

(** [relative_days_add_up] at [+1d] and then [+2d] from 2024-03-08T17:00:00Z,
    noon in a zone whose clocks go forward on 2024-03-10: noon of
    2024-03-11, 2024-03-11T16:00:00Z. *)
Lemma relative_days_add_up_witness :
  Calendar.parseDate (H := springForwardHost 0) "+1d" (Some 1709917200000)
  = Some 1710003600000
  ∧ Calendar.parseDate (H := springForwardHost 0) "+2d" (Some 1710003600000)
    = Some 1710172800000.
Proof.
  assert (Calendar.parseDate (H := springForwardHost 0) "+1d" (Some 1709917200000)
          = Some 1710003600000) as Hr by (vm_compute; reflexivity).
  split; [exact Hr |].
  destruct (relative_days_add_up (H := springForwardHost 0) "+1d" "+2d" "1" "2"
              1709917200000 1710003600000 eq_refl eq_refl
              ltac:(vm_compute; discriminate) ltac:(vm_compute; discriminate) Hr)
    as [Hsum _].
  etransitivity; [apply Hsum; vm_compute; reflexivity |].
  vm_compute. reflexivity.
Defined.

(** [today_is_start_of_day] at noon of 2024-01-01 in the UTC zone. *)
Lemma today_is_start_of_day_witness :
  1704067200000 <= 1704110400000 < 1704067200000 + JSDate.msPerDay
  ∧ Calendar.parseDate (H := utcHost 0) "Today" (Some 1704067200000) = Some 1704067200000.
Proof.
  destruct (today_is_start_of_day (H := utcHost 0) "Today" "tomorrow" 1704110400000
              1704067200000 ltac:(by exists 0) eq_refl eq_refl
              ltac:(vm_compute; reflexivity))
    as (Hrange & Hsame & _).
  split; [exact Hrange | exact Hsame].
Defined.

(** [invalid_range_makes_no_request] at [calendar list] with a [--start] that
    the host does not parse. *)
Lemma invalid_range_makes_no_request_witness :
  Calendar.main (H := utcHost 0) sampleScopes sampleAuth (sampleNetwork okResponse)
    (sampleBody []) (λ _, inl ThrowOther) (λ _, inl ThrowOther)
    (sampleValues (Some "next friday") None) ["list"] emptyWorld
  = Exit 1
      {| store := ∅; ticks := 2;
         stdout := [StringifiedJSON
                      (JObj [("status", JStr "error"); ("error", JStr "Invalid time value")])];
         fetched := [] |}.
Proof.
  destruct (invalid_range_makes_no_request (H := utcHost 0) sampleScopes sampleAuth
              (sampleNetwork okResponse) (sampleBody []) (λ _, inl ThrowOther)
              (λ _, inl ThrowOther) (sampleValues (Some "next friday") None) ["list"]
              emptyWorld "token" emptyWorld None None (ticked 2 emptyWorld)
              eq_refl ltac:(left; reflexivity) ltac:(vm_compute; reflexivity)
              ltac:(left; reflexivity)) as (Hrun & _).
  etransitivity; [exact Hrun |]. vm_compute. reflexivity.
Defined.

(** [search_filter_reads_back] at a query with a quote. *)
Lemma search_filter_reads_back_witness :
  ∃ literal,
    fetched (finalWorld
               (Calendar.main (H := utcHost 0) sampleScopes sampleAuth
                  (sampleNetwork okResponse) (sampleBody []) (λ _, inl ThrowOther)
                  (λ _, inl ThrowOther)
                  {| Calendar.profile := "default"; Calendar.top := "10";
                     Calendar.start := None; Calendar.end_ := None;
                     Calendar.query := Some "Ann's 1:1"; Calendar.id := None |}
                  ["search"] emptyWorld))
    = ["https://graph.microsoft.com/v1.0/me/events?$filter=contains(subject,'" +:+ literal]
    ∧ readLiteral literal = Some ("Ann's 1:1", ")&$top=10&$orderby=start/dateTime desc").
Proof.
  destruct (search_filter_reads_back (H := utcHost 0) sampleScopes sampleAuth
              (sampleNetwork okResponse) (sampleBody []) (λ _, inl ThrowOther)
              (λ _, inl ThrowOther)
              {| Calendar.profile := "default"; Calendar.top := "10";
                 Calendar.start := None; Calendar.end_ := None;
                 Calendar.query := Some "Ann's 1:1"; Calendar.id := None |}
              ["search"] emptyWorld "token" emptyWorld "Ann's 1:1"
              eq_refl eq_refl eq_refl ltac:(discriminate)) as (literal & Hurl & Hread).
  exists literal. split; [exact Hurl | exact Hread].
Defined.

(** [calendar_request_failure] at [calendar week] at time 0 in the UTC zone
    when the connection fails. *)
Lemma calendar_request_failure_witness :
  Calendar.main (H := utcHost 0) sampleScopes sampleAuth
    (sampleNetwork (Calendar.FetchRejected (ThrowError "Unable to connect")))
    (sampleBody []) (λ _, inl ThrowOther) (λ _, inl ThrowOther)
    (sampleValues None None) ["week"] emptyWorld
  = Exit 1
      {| store := ∅; ticks := 1;
         stdout := [StringifiedJSON
                      (JObj [("status", JStr "error"); ("error", JStr "Unable to connect")])];
         fetched := ["https://graph.microsoft.com/v1.0/me/calendarView?startDateTime=0&endDateTime=604800000&$top=10&$orderby=start/dateTime"] |}.
Proof.
  pose proof (calendar_request_failure (H := utcHost 0) sampleScopes sampleAuth
                (sampleNetwork (Calendar.FetchRejected (ThrowError "Unable to connect")))
                (sampleBody []) (λ _, inl ThrowOther) (λ _, inl ThrowOther)
                (sampleValues None None) ["week"] emptyWorld "token" emptyWorld
                0 604800000 (ticked 1 emptyWorld) (ThrowError "Unable to connect")
                eq_refl ltac:(right; right; reflexivity) ltac:(vm_compute; reflexivity)
                ltac:(left; reflexivity)) as Hrun.
  etransitivity; [exact Hrun |]. vm_compute. reflexivity.
Defined.

(** [emails_urls_are_encoded] at the folder [Sent Items]. *)
Lemma emails_urls_are_encoded_witness :
  fetched (finalWorld
             (Emails.main (H := utcHost 0) sampleTypeErrorMessage sampleScopes sampleAuth
                (sampleNetwork okResponse) (sampleBody []) sampleEmailValues ["list"]
                emptyWorld))
  = ["https://graph.microsoft.com/v1.0/me/mailFolders/Sent%20Items/messages?$top=10&$orderby=receivedDateTime desc"].
Proof.
  destruct (emails_urls_are_encoded (H := utcHost 0) sampleTypeErrorMessage sampleScopes
              sampleAuth (sampleNetwork okResponse) (sampleBody []) sampleEmailValues ["list"]
              emptyWorld "token" emptyWorld eq_refl) as (Hlist & _).
  etransitivity; [exact (Hlist eq_refl) |]. vm_compute. reflexivity.
Defined.

(** [list_shows_every_profile] at a store with the profile [default]. *)
Lemma list_shows_every_profile_witness :
  ∃ before after i n,
    Auth.main (H := utcHost 1000) (λ _, mret ()) (listValues "default")
      (sampleWorld (sampleCredential 5000000 None))
    = Ret () (printed ([Text ("Microsoft Graph credential profiles:" +:+ JSString.nl)]
                       ++ before
                       ++ profileBlock "default" (sampleCredential 5000000 None)
                            (1000 + Z.of_nat i)
                       ++ after)
                (ticked n (sampleWorld (sampleCredential 5000000 None))))
    ∧ (i < n)%nat.
Proof.
  destruct (list_shows_every_profile (H := utcHost 1000) (λ _, mret ()) "default" "default"
              (sampleCredential 5000000 None) (sampleWorld (sampleCredential 5000000 None))
              (setCredential_lookup _ _ _ _))
    as (before & after & i & n & Hrun & Hlt & _).
  exists before, after, i, n. split; [| exact Hlt].
  rewrite Hrun. simpl. by rewrite Nat.add_0_r.
Defined.
